(** * TNFS client: wire codec and session engine

    A shallow embedding of [tnfs_client3.py]: the codec primitives
    ([struct] packing, null-terminated strings), the message classes with
    their [toWire] / [fromWire] methods, and the [Session] engine that
    exchanges them over a datagram socket.

    Python values are embedded as follows.
    - [int] is [Z]; an attribute that the code may set to [None] is an
      [option].
    - [bytes] is a list of byte values ([Z], each in [0, 255]).
    - [str] is a list of Unicode code points ([Z]); [str.encode("utf-8")]
      and [bytes.decode("utf-8")] are written out.
    - an exception is a value of [exn]; a computation that may raise returns
      a [result]. *)

From Stdlib Require Import ZArith List Bool Lia.
Import ListNotations.
Local Open Scope Z_scope.

(** ** Exceptions and results *)

Inductive exn : Type :=
| StructError          (* struct.error *)
| ValueError
| TypeError
| UnboundLocalError
| UnicodeDecodeError
| UnicodeEncodeError
| IndexError
| AttributeError
| TimeoutError         (* socket.timeout *)
| SystemExit (code : Z)
| OutOfFuel.           (* never raised by Python: the loop bound of the model *)

Inductive result (A : Type) : Type :=
| Ok (a : A)
| Raise (e : exn).
Arguments Ok {A} a.
Arguments Raise {A} e.

Definition bind {A B : Type} (r : result A) (k : A -> result B) : result B :=
  match r with
  | Ok a => k a
  | Raise e => Raise e
  end.

Notation "x <- e ;; k" := (bind e (fun x => k))
  (at level 61, e at next level, right associativity).
Notation "' p <- e ;; k" := (bind e (fun p => k))
  (at level 61, p pattern, e at next level, right associativity).

Definition bytes := list Z.
Definition str := list Z.

Definition len {A : Type} (l : list A) : Z := Z.of_nat (length l).

(** ** The [struct] module *)

Module Struct.

(** Format characters used by the client: [B] (1 byte), [H] (2 bytes),
    [I] (4 bytes), all unsigned, and the signed 4-byte [i].  Every format
    string of the source is either little-endian ([<]) or made of [B]
    only, so no padding is ever inserted. *)
Inductive fmtc : Type := B | H | I | i.

Definition width (c : fmtc) : nat :=
  match c with B => 1 | H => 2 | I => 4 | i => 4 end%nat.

Fixpoint calcsize (fmt : list fmtc) : nat :=
  match fmt with
  | [] => 0
  | c :: f => width c + calcsize f
  end%nat.

Fixpoint le_bytes (n : nat) (v : Z) : bytes :=
  match n with
  | O => []
  | S n' => v mod 256 :: le_bytes n' (v / 256)
  end.

Fixpoint le_value (b : bytes) : Z :=
  match b with
  | [] => 0
  | x :: r => x + 256 * le_value r
  end.

Definition in_range (c : fmtc) (v : Z) : bool :=
  match c with
  | B => (0 <=? v) && (v <? 256)
  | H => (0 <=? v) && (v <? 65536)
  | I => (0 <=? v) && (v <? 4294967296)
  | i => (-2147483648 <=? v) && (v <? 2147483648)
  end.

Definition pack1 (c : fmtc) (v : option Z) : result bytes :=
  match v with
  | None => Raise StructError
  | Some z =>
      if in_range c z then Ok (le_bytes (width c) (z mod 256 ^ Z.of_nat (width c)))
      else Raise StructError
  end.

(** [struct.pack(fmt, v1, ..., vn)] *)
Fixpoint pack (fmt : list fmtc) (vs : list (option Z)) : result bytes :=
  match fmt, vs with
  | [], [] => Ok []
  | c :: f, v :: r =>
      b <- pack1 c v ;;
      bs <- pack f r ;;
      Ok (b ++ bs)
  | _, _ => Raise StructError
  end.

Definition unpack1 (c : fmtc) (b : bytes) : Z :=
  match c with
  | i => let v := le_value b in if v <? 2147483648 then v else v - 4294967296
  | _ => le_value b
  end.

Fixpoint unpack_fields (fmt : list fmtc) (data : bytes) : list Z :=
  match fmt with
  | [] => []
  | c :: f =>
      unpack1 c (firstn (width c) data) :: unpack_fields f (skipn (width c) data)
  end.

(** [struct.unpack(fmt, data)]: the buffer must have exactly the size the
    format requires. *)
Definition unpack (fmt : list fmtc) (data : bytes) : result (list Z) :=
  if (length data =? calcsize fmt)%nat then Ok (unpack_fields fmt data)
  else Raise StructError.

End Struct.

(** ** UTF-8 *)

Module UTF8.

(** [chr(c).encode("utf-8")]; lone surrogates cannot be encoded. *)
Definition encode_char (c : Z) : result bytes :=
  if c <? 0 then Raise UnicodeEncodeError
  else if c <? 0x80 then Ok [c]
  else if c <? 0x800 then Ok [0xC0 + c / 64; 0x80 + c mod 64]
  else if c <? 0x10000 then
    if (0xD800 <=? c) && (c <=? 0xDFFF) then Raise UnicodeEncodeError
    else Ok [0xE0 + c / 4096; 0x80 + (c / 64) mod 64; 0x80 + c mod 64]
  else if c <? 0x110000 then
    Ok [0xF0 + c / 262144; 0x80 + (c / 4096) mod 64;
        0x80 + (c / 64) mod 64; 0x80 + c mod 64]
  else Raise UnicodeEncodeError.

Fixpoint encode (s : str) : result bytes :=
  match s with
  | [] => Ok []
  | c :: r =>
      b <- encode_char c ;;
      bs <- encode r ;;
      Ok (b ++ bs)
  end.

Definition between (lo hi b : Z) : bool := (lo <=? b) && (b <=? hi).
Definition cont (b : Z) : bool := between 0x80 0xBF b.

(** The strict decoder: shortest form only, no surrogates, at most
    U+10FFFF. *)
Fixpoint decode (d : bytes) : result str :=
  match d with
  | [] => Ok []
  | b0 :: r0 =>
      if between 0 0x7F b0 then
        s <- decode r0 ;; Ok (b0 :: s)
      else if between 0xC2 0xDF b0 then
        match r0 with
        | b1 :: r1 =>
            if cont b1 then
              s <- decode r1 ;; Ok ((b0 - 0xC0) * 64 + (b1 - 0x80) :: s)
            else Raise UnicodeDecodeError
        | _ => Raise UnicodeDecodeError
        end
      else if between 0xE0 0xEF b0 then
        match r0 with
        | b1 :: b2 :: r2 =>
            if between (if b0 =? 0xE0 then 0xA0 else 0x80)
                       (if b0 =? 0xED then 0x9F else 0xBF) b1 && cont b2 then
              s <- decode r2 ;;
              Ok ((b0 - 0xE0) * 4096 + (b1 - 0x80) * 64 + (b2 - 0x80) :: s)
            else Raise UnicodeDecodeError
        | _ => Raise UnicodeDecodeError
        end
      else if between 0xF0 0xF4 b0 then
        match r0 with
        | b1 :: b2 :: b3 :: r3 =>
            if between (if b0 =? 0xF0 then 0x90 else 0x80)
                       (if b0 =? 0xF4 then 0x8F else 0xBF) b1
               && cont b2 && cont b3 then
              s <- decode r3 ;;
              Ok ((b0 - 0xF0) * 262144 + (b1 - 0x80) * 4096
                  + (b2 - 0x80) * 64 + (b3 - 0x80) :: s)
            else Raise UnicodeDecodeError
        | _ => Raise UnicodeDecodeError
        end
      else Raise UnicodeDecodeError
  end.

End UTF8.

(** ** Slices and null-terminated strings *)

(** A slice bound as Python normalises it: [None] is the default, a negative
    index counts from the end, and the result is clamped to the length. *)
Definition py_index (n : Z) (dflt : Z) (k : option Z) : Z :=
  match k with
  | None => dflt
  | Some p => if p <? 0 then Z.max 0 (p + n) else Z.min p n
  end.

(** [data[lo:hi]] *)
Definition slice (data : bytes) (lo hi : option Z) : bytes :=
  let l := py_index (len data) 0 lo in
  let h := py_index (len data) (len data) hi in
  firstn (Z.to_nat (h - l)) (skipn (Z.to_nat l) data).

Fixpoint index0 (d : bytes) : option nat :=
  match d with
  | [] => None
  | b :: r => if b =? 0 then Some O else option_map S (index0 r)
  end.

(** [data.find(b"\0", start)] *)
Definition find0 (data : bytes) (start : option Z) : Z :=
  let s := py_index (len data) 0 start in
  match index0 (skipn (Z.to_nat s) data) with
  | Some k => s + Z.of_nat k
  | None => -1
  end.

(** [getCstr(data, pos)]: the string that starts at [pos] and the position
    after its terminator. *)
Definition getCstr (data : bytes) (pos : option Z)
  : result (option str * option Z) :=
  let end_ := find0 data pos in
  if end_ =? -1 then Ok (None, None)
  else
    string <- UTF8.decode (slice data pos (Some end_)) ;;
    Ok (Some string, Some (end_ + 1)).

(** ** Small pieces of Python *)

(** [f"{v}"] for an attribute that holds a string or [None]. *)
Definition fmt (v : option str) : str :=
  match v with
  | Some s => s
  | None => [78; 111; 110; 101]   (* "None" *)
  end.

Definition NUL : str := [0].
Definition anonymous : str := [97; 110; 111; 110; 121; 109; 111; 117; 115].

(** [t[0]] on the tuple returned by [struct.unpack]. *)
Definition item0 (t : list Z) : result Z :=
  match t with
  | x :: _ => Ok x
  | [] => Raise IndexError
  end.

(** [f( *t )] for a one-argument setter. *)
Definition star1 (t : list Z) : result Z :=
  match t with
  | [x] => Ok x
  | _ => Raise TypeError
  end.

(** [a, b = t] and its longer forms. *)
Definition tuple2 (t : list Z) : result (Z * Z) :=
  match t with
  | [a; b] => Ok (a, b)
  | _ => Raise ValueError
  end.

Definition tuple3 (t : list Z) : result (Z * Z * Z) :=
  match t with
  | [a; b; c] => Ok (a, b, c)
  | _ => Raise ValueError
  end.

Definition tuple4 (t : list Z) : result (Z * Z * Z * Z) :=
  match t with
  | [a; b; c; d] => Ok (a, b, c, d)
  | _ => Raise ValueError
  end.

Definition tuple7 (t : list Z) : result (Z * Z * Z * Z * Z * Z * Z) :=
  match t with
  | [a; b; c; d; e; f; g] => Ok (a, b, c, d, e, f, g)
  | _ => Raise ValueError
  end.

(** ** The message model *)

Module Wire.
Import Struct.

(** [class DirEntry].  [setCtime] and [setMtime] store
    [localtime(t)]; the embedding keeps the timestamp [t] itself, the
    conversion being presentation only. *)
Record DirEntry : Type := mkDirEntry {
  de_flags : Z;
  de_size : Z;
  de_ctime : Z;
  de_mtime : Z;
  de_name : option str
}.

(** Attributes set by [MessageBase.__init__]. *)
Record header : Type := mkHeader {
  conn_id : option Z;
  retry : Z;
  command : Z
}.

(** The subclasses of [Command], each with its attributes. *)
Inductive command_body : Type :=
| Mount (ver_maj ver_min : Z) (location user password : option str)
| Umount
| OpenDir (path : option str)
| ReadDir (handle : option Z)
| CloseDir (handle : option Z)
| MkDir (path : option str)
| RmDir (path : option str)
| OpenDirX (path : option str) (pattern : str)
           (dirOptions sortOptions maxResults : Z)
| ReadDirX (handle : option Z) (maxEntries : Z)
| Open (flags mode : Z) (path : option str)
| Read (fd size : option Z)
| Write (fd : option Z) (data : option bytes)
| Close (fd : option Z)
| Stat (path : option str)
| LSeek (fd seektype seekposition : option Z)
| Unlink (path : option str)
| ChMod (mode : option Z) (path : option str)
| Rename (source destination : option str)
| Size
| Free.

(** The subclasses of [Response].  An attribute that [__init__] does not
    create ([OpenDirXResponse.path], [ReadDirXResponse.status] and
    [.dpos]) is [None] until [fromWire] sets it; no code reads it
    before. *)
Inductive response_body : Type :=
| MountResponse (ver_maj ver_min : Z) (retry_delay : option Z)
| UmountResponse
| OpenDirResponse (handle : option Z)
| ReadDirResponse (path : option str)
| CloseDirResponse
| MkDirResponse
| RmDirResponse
| OpenDirXResponse (handle : option Z) (entries : Z) (path : option str)
| ReadDirXResponse (path : option str) (entries : option (list DirEntry))
                   (status dpos : option Z)
| OpenResponse (fd : option Z)
| ReadResponse (size : option Z) (data : option bytes)
| WriteResponse (size : option Z)
| CloseResponse
| StatResponse (mode uid gid size atime mtime ctime : option Z)
               (user group : option str)
| LSeekResponse
| UnlinkResponse
| ChModResponse
| RenameResponse
| SizeResponse (size : option Z)
| FreeResponse (free : option Z).

(** An object of one of the message classes; a [Response] also has the
    attribute [reply]. *)
Inductive message : Type :=
| Command (h : header) (c : command_body)
| Response (h : header) (reply : Z) (r : response_body).

Definition TnfsCmd_command (c : command_body) : Z :=
  match c with
  | Mount _ _ _ _ _ => 0x00
  | Umount => 0x01
  | OpenDir _ => 0x10
  | ReadDir _ => 0x11
  | CloseDir _ => 0x12
  | MkDir _ => 0x13
  | RmDir _ => 0x14
  | OpenDirX _ _ _ _ _ => 0x17
  | ReadDirX _ _ => 0x18
  | Open _ _ _ => 0x29
  | Read _ _ => 0x21
  | Write _ _ => 0x22
  | Close _ => 0x23
  | Stat _ => 0x24
  | LSeek _ _ _ => 0x25
  | Unlink _ => 0x26
  | ChMod _ _ => 0x27
  | Rename _ _ => 0x28
  | Size => 0x30
  | Free => 0x31
  end.

Definition TnfsCmd_response (r : response_body) : Z :=
  match r with
  | MountResponse _ _ _ => 0x00
  | UmountResponse => 0x01
  | OpenDirResponse _ => 0x10
  | ReadDirResponse _ => 0x11
  | CloseDirResponse => 0x12
  | MkDirResponse => 0x13
  | RmDirResponse => 0x14
  | OpenDirXResponse _ _ _ => 0x17
  | ReadDirXResponse _ _ _ _ => 0x18
  | OpenResponse _ => 0x29
  | ReadResponse _ _ => 0x21
  | WriteResponse _ => 0x22
  | CloseResponse => 0x23
  | StatResponse _ _ _ _ _ _ _ _ _ => 0x24
  | LSeekResponse => 0x25
  | UnlinkResponse => 0x26
  | ChModResponse => 0x27
  | RenameResponse => 0x28
  | SizeResponse _ => 0x30
  | FreeResponse _ => 0x31
  end.

(** The class attribute [TnfsCmd]. *)
Definition TnfsCmd (self : message) : Z :=
  match self with
  | Command _ c => TnfsCmd_command c
  | Response _ _ r => TnfsCmd_response r
  end.

Definition hdr (self : message) : header :=
  match self with
  | Command h _ => h
  | Response h _ _ => h
  end.

Definition with_hdr (self : message) (h : header) : message :=
  match self with
  | Command _ c => Command h c
  | Response _ reply r => Response h reply r
  end.

(** [setSession]: [Mount] overrides it and always stores 0. *)
Definition setSession (self : message) (session : option Z) : message :=
  let h := hdr self in
  match self with
  | Command _ (Mount _ _ _ _ _) =>
      with_hdr self (mkHeader (Some 0) (retry h) (command h))
  | _ => with_hdr self (mkHeader session (retry h) (command h))
  end.

Definition setRetry (self : message) (r : Z) : message :=
  let h := hdr self in
  with_hdr self (mkHeader (conn_id h) r (command h)).

Definition setReply (self : message) (reply : Z) : message :=
  match self with
  | Response h _ r => Response h reply r
  | Command _ _ => self
  end.

(** ** Freshly constructed objects: the [__init__] methods *)

(** [MessageBase.__init__]:
    [self.setSession(None).setRetry(0).setCommand(self.TnfsCmd)] *)
Definition new_command (c : command_body) : message :=
  setSession (Command (mkHeader None 0 (TnfsCmd_command c)) c) None.

(** [Response.__init__] then sets [reply] to 0; [OpenDirResponse] and
    [OpenDirXResponse] set it to 255 afterwards. *)
Definition new_response (reply : Z) (r : response_body) : message :=
  Response (mkHeader None 0 (TnfsCmd_response r)) reply r.

Definition init_command (c : command_body) : command_body :=
  match c with
  | Mount _ _ _ _ _ => Mount 1 2 None (Some []) (Some [])
  | Umount => Umount
  | OpenDir _ => OpenDir None
  | ReadDir _ => ReadDir None
  | CloseDir _ => CloseDir None
  | MkDir _ => MkDir None
  | RmDir _ => RmDir None
  | OpenDirX _ _ _ _ _ => OpenDirX None [] 0 0 0xffff
  | ReadDirX _ _ => ReadDirX None 0
  | Open _ _ _ => Open 0 0 None
  | Read _ _ => Read None None
  | Write _ _ => Write None None
  | Close _ => Close None
  | Stat _ => Stat None
  | LSeek _ _ _ => LSeek None None None
  | Unlink _ => Unlink None
  | ChMod _ _ => ChMod None None
  | Rename _ _ => Rename None None
  | Size => Size
  | Free => Free
  end.

Definition init_response (r : response_body) : Z * response_body :=
  match r with
  | MountResponse _ _ _ => (0, MountResponse 0 0 None)
  | UmountResponse => (0, UmountResponse)
  | OpenDirResponse _ => (255, OpenDirResponse None)
  | ReadDirResponse _ => (0, ReadDirResponse None)
  | CloseDirResponse => (0, CloseDirResponse)
  | MkDirResponse => (0, MkDirResponse)
  | RmDirResponse => (0, RmDirResponse)
  | OpenDirXResponse _ _ _ => (255, OpenDirXResponse None 0 None)
  | ReadDirXResponse _ _ _ _ => (0, ReadDirXResponse None None None None)
  | OpenResponse _ => (0, OpenResponse None)
  | ReadResponse _ _ => (0, ReadResponse None None)
  | WriteResponse _ => (0, WriteResponse None)
  | CloseResponse => (0, CloseResponse)
  | StatResponse _ _ _ _ _ _ _ _ _ =>
      (0, StatResponse None (Some 0) (Some 0) None (Some 0) (Some 0) (Some 0)
            (Some anonymous) (Some anonymous))
  | LSeekResponse => (0, LSeekResponse)
  | UnlinkResponse => (0, UnlinkResponse)
  | ChModResponse => (0, ChModResponse)
  | RenameResponse => (0, RenameResponse)
  | SizeResponse _ => (0, SizeResponse None)
  | FreeResponse _ => (0, FreeResponse None)
  end.

(** [type(self)()]: a new object of the class of [self]. *)
Definition fresh (self : message) : message :=
  match self with
  | Command _ c => new_command (init_command c)
  | Response _ _ r =>
      let '(reply, r0) := init_response r in new_response reply r0
  end.

(** ** Encoding *)

Definition cstr (fields : list (option str)) : result bytes :=
  UTF8.encode (concat (map (fun v => fmt v ++ NUL) fields)).

Definition do_ExtraToWire (self : message) : result bytes :=
  match self with
  | Command _ _ => Ok []
  | Response _ reply _ => pack [B] [Some reply]
  end.

Definition command_DataToWire (c : command_body) : result bytes :=
  match c with
  | Mount ver_maj ver_min location user password =>
      p <- pack [B; B] [Some ver_min; Some ver_maj] ;;
      s <- cstr [location; user; password] ;;
      Ok (p ++ s)
  | OpenDir path | MkDir path | RmDir path | Stat path | Unlink path =>
      cstr [path]
  | ReadDir handle | CloseDir handle => pack [B] [handle]
  | OpenDirX path pattern dirOptions sortOptions maxResults =>
      p <- pack [B; B; H] [Some dirOptions; Some sortOptions; Some maxResults] ;;
      s <- cstr [Some pattern; path] ;;
      Ok (p ++ s)
  | ReadDirX handle maxEntries => pack [B; B] [handle; Some maxEntries]
  | Open flags mode path =>
      p <- pack [H; H] [Some flags; Some mode] ;;
      s <- cstr [path] ;;
      Ok (p ++ s)
  | Read fd size => pack [B; H] [fd; size]
  | Write fd data =>
      match data with
      | None => Raise TypeError          (* len(None) *)
      | Some d =>
          p <- pack [B; H] [fd; Some (len d)] ;;
          Ok (p ++ d)
      end
  | Close fd => pack [B] [fd]
  | LSeek fd seektype seekposition => pack [B; B; i] [fd; seektype; seekposition]
  | ChMod mode path =>
      p <- pack [H] [mode] ;;
      s <- cstr [path] ;;
      Ok (p ++ s)
  | Rename source destination => cstr [source; destination]
  | Umount | Size | Free => Ok []
  end.

Definition response_DataToWire (reply : Z) (r : response_body) : result bytes :=
  match r with
  | MountResponse ver_maj ver_min retry_delay =>
      p <- pack [B; B] [Some ver_min; Some ver_maj] ;;
      d <- (if reply =? 0 then pack [H] [retry_delay] else Ok []) ;;
      Ok (p ++ d)
  | OpenDirResponse handle | OpenDirXResponse handle _ _ =>
      if reply =? 0 then pack [B] [handle] else Ok []
  | ReadDirResponse path | ReadDirXResponse path _ _ _ =>
      if reply =? 0 then cstr [path] else Ok []
  | OpenResponse fd => if reply =? 0 then pack [B] [fd] else Ok []
  | ReadResponse size _ | WriteResponse size =>
      if reply =? 0 then pack [H] [size] else Ok []
  | StatResponse mode uid gid size atime mtime ctime user group =>
      p <- pack [H; H; H; I; I; I; I] [mode; uid; gid; size; atime; mtime; ctime] ;;
      s <- cstr [user; group] ;;
      Ok (p ++ s)
  | SizeResponse size => pack [I] [size]
  | FreeResponse free => pack [I] [free]
  | UmountResponse | CloseDirResponse | MkDirResponse | RmDirResponse
  | CloseResponse | LSeekResponse | UnlinkResponse | ChModResponse
  | RenameResponse => Ok []
  end.

Definition do_DataToWire (self : message) : result bytes :=
  match self with
  | Command _ c => command_DataToWire c
  | Response _ reply r => response_DataToWire reply r
  end.

(** [MessageBase.toWire] *)
Definition toWire (self : message) : result bytes :=
  let h := hdr self in
  head <- pack [H; B; B] [conn_id h; Some (retry h); Some (command h)] ;;
  extra <- do_ExtraToWire self ;;
  payload <- do_DataToWire self ;;
  Ok (head ++ extra ++ payload).

(** ** Decoding *)

(** [Response.do_ExtraFromWire] reads the status byte and returns 1;
    [MessageBase.do_ExtraFromWire] returns 0. *)
Definition do_ExtraFromWire (self : message) (data : bytes)
  : result (message * nat) :=
  match self with
  | Command _ _ => Ok (self, 0%nat)
  | Response _ _ _ =>
      t <- unpack [B] (firstn 1 data) ;;
      reply <- item0 t ;;
      Ok (setReply self reply, 1%nat)
  end.

(** The path read by the classes that carry one string. *)
Definition path_FromWire (data : bytes) : result (option str) :=
  '(s, _) <- getCstr data (Some 0) ;; Ok s.

Definition command_DataFromWire (c : command_body) (data : bytes)
  : result command_body :=
  match c with
  | Mount _ _ _ _ _ =>
      t <- unpack [B; B] (firstn 2 data) ;;
      '(ver_min, ver_maj) <- tuple2 t ;;
      '(location, pos) <- getCstr data (Some 2) ;;
      '(user, pos) <- getCstr data pos ;;
      '(password, pos) <- getCstr data pos ;;
      Ok (Mount ver_maj ver_min location user password)
  | OpenDir _ => p <- path_FromWire data ;; Ok (OpenDir p)
  | MkDir _ => p <- path_FromWire data ;; Ok (MkDir p)
  | RmDir _ => p <- path_FromWire data ;; Ok (RmDir p)
  | Stat _ => p <- path_FromWire data ;; Ok (Stat p)
  | Unlink _ => p <- path_FromWire data ;; Ok (Unlink p)
  | OpenDirX _ pattern dirOptions sortOptions maxResults =>
      p <- path_FromWire data ;;
      Ok (OpenDirX p pattern dirOptions sortOptions maxResults)
  | ReadDir _ =>
      t <- unpack [B] (firstn 1 data) ;; h <- star1 t ;; Ok (ReadDir (Some h))
  | CloseDir _ =>
      t <- unpack [B] (firstn 1 data) ;; h <- star1 t ;; Ok (CloseDir (Some h))
  | ReadDirX _ maxEntries =>
      t <- unpack [B] (firstn 1 data) ;; h <- star1 t ;;
      Ok (ReadDirX (Some h) maxEntries)
  | Open _ _ _ =>
      t <- unpack [H; H] (firstn 4 data) ;;
      '(flags, mode) <- tuple2 t ;;
      '(path, _) <- getCstr data (Some 4) ;;
      Ok (Open flags mode path)
  | Read _ _ =>
      t <- unpack [B; H] data ;;
      '(fd, size) <- tuple2 t ;;
      Ok (Read (Some fd) (Some size))
  | Write _ _ =>
      t <- unpack [B; H] (firstn 3 data) ;;
      '(fd, size) <- tuple2 t ;;
      Ok (Write (Some fd) (Some (skipn 3 data)))
  | Close _ =>
      t <- unpack [B] data ;; fd <- star1 t ;; Ok (Close (Some fd))
  | LSeek _ _ _ =>
      t <- unpack [B; B; i] data ;;
      '(fd, seektype, seekposition) <- tuple3 t ;;
      Ok (LSeek (Some fd) (Some seektype) (Some seekposition))
  | ChMod _ _ =>
      (* [def do_DataFromWire(self)] takes no [data]: the call fails *)
      Raise TypeError
  | Rename _ _ =>
      '(source, pos) <- getCstr data (Some 0) ;;
      '(destination, pos) <- getCstr data pos ;;
      Ok (Rename source destination)
  | Umount | Size | Free => Ok c
  end.

(** The loop of [ReadDirXResponse.do_DataFromWire]: [n] entries remain to
    be read at [pos].  After a name without terminator [pos] is [None]
    and [pos + 13] fails. *)
Fixpoint read_entries (n : nat) (data : bytes) (pos : option Z)
  (entries : list DirEntry) : result (list DirEntry) :=
  match n with
  | O => Ok entries
  | S n' =>
      match pos with
      | None => Raise TypeError
      | Some p =>
          t <- unpack [B; I; I; I] (slice data (Some p) (Some (p + 13))) ;;
          '(flags, size, mtime, ctime) <- tuple4 t ;;
          '(name, pos') <- getCstr data (Some (p + 13)) ;;
          read_entries n' data pos'
            (entries ++ [mkDirEntry flags size ctime mtime name])
      end
  end.

Definition response_DataFromWire (reply : Z) (r : response_body) (data : bytes)
  : result response_body :=
  match r with
  | MountResponse _ _ _ =>
      t <- unpack [B; B] (firstn 2 data) ;;
      '(version_min, version_maj) <- tuple2 t ;;
      retry_delay <-
        (if reply =? 0 then
           t <- unpack [H] (skipn 2 data) ;; d <- item0 t ;; Ok (Some d)
         else Ok None) ;;
      Ok (MountResponse version_maj version_min retry_delay)
  | OpenDirResponse _ =>
      if reply =? 0 then
        t <- unpack [B] (firstn 1 data) ;; h <- item0 t ;;
        Ok (OpenDirResponse (Some h))
      else Ok (OpenDirResponse None)
  | ReadDirResponse _ =>
      if reply =? 0 then p <- path_FromWire data ;; Ok (ReadDirResponse p)
      else Ok (ReadDirResponse None)
  | OpenDirXResponse _ _ _ =>
      if len data <? 3 then Ok r
      else
        t <- unpack [B; H] (firstn 3 data) ;;
        '(handle, entries) <- tuple2 t ;;
        if negb (reply =? 0) then Ok r
        else
          p <- path_FromWire (skipn 3 data) ;;
          Ok (OpenDirXResponse (Some handle) entries p)
  | ReadDirXResponse path entries status dpos =>
      if negb (reply =? 0) then Ok r
      else
        t <- unpack [B; B; H] (firstn 4 data) ;;
        '(entryCount, status', dpos') <- tuple3 t ;;
        es <- read_entries (Z.to_nat entryCount) data (Some 4) [] ;;
        Ok (ReadDirXResponse path (Some es) (Some status') (Some dpos'))
  | OpenResponse _ =>
      if reply =? 0 then
        t <- unpack [B] data ;; fd <- item0 t ;; Ok (OpenResponse (Some fd))
      else Ok (OpenResponse None)
  | ReadResponse _ _ =>
      if reply =? 0 then
        t <- unpack [H] (firstn 2 data) ;; size <- item0 t ;;
        Ok (ReadResponse (Some size) (Some (skipn 2 data)))
      else Ok (ReadResponse None None)
  | WriteResponse _ =>
      if reply =? 0 then
        t <- unpack [H] data ;; size <- item0 t ;; Ok (WriteResponse (Some size))
      else Ok (WriteResponse None)
  | StatResponse _ _ _ _ _ _ _ _ _ =>
      if reply =? 0 then
        t <- unpack [H; H; H; I; I; I; I] (firstn 22 data) ;;
        '(mode, uid, gid, size, atime, mtime, ctime) <- tuple7 t ;;
        '(user, group) <-
          (if 22 <? len data then
             '(user, pos) <- getCstr data (Some 22) ;;
             '(group, pos) <- getCstr data pos ;;
             Ok (user, group)
           else Ok (Some anonymous, Some anonymous)) ;;
        Ok (StatResponse (Some mode) (Some uid) (Some gid) (Some size)
              (Some atime) (Some mtime) (Some ctime) user group)
      else
        Ok (StatResponse None None None None None None None
              (Some anonymous) (Some anonymous))
  | SizeResponse _ =>
      if reply =? 0 then
        t <- unpack [I] data ;; size <- item0 t ;; Ok (SizeResponse (Some size))
      else Ok (SizeResponse None)
  | FreeResponse _ =>
      if reply =? 0 then
        t <- unpack [I] data ;; free <- item0 t ;; Ok (FreeResponse (Some free))
      else Ok (FreeResponse None)
  | UmountResponse | CloseDirResponse | MkDirResponse | RmDirResponse
  | CloseResponse | LSeekResponse | UnlinkResponse | ChModResponse
  | RenameResponse => Ok r
  end.

Definition do_DataFromWire (self : message) (data : bytes) : result message :=
  match self with
  | Command h c => c' <- command_DataFromWire c data ;; Ok (Command h c')
  | Response h reply r =>
      r' <- response_DataFromWire reply r data ;; Ok (Response h reply r')
  end.

(** [MessageBase.fromWire]: [self] is the object the method is called on,
    the result is that object after the call. *)
Definition fromWire (self : message) (data : bytes) : result message :=
  t <- unpack [H; B; B] (firstn 4 data) ;;
  '(conn_id, retry, command) <- tuple3 t ;;
  if negb (command =? TnfsCmd self) then Raise ValueError
  else
    let self := setRetry (setSession self (Some conn_id)) retry in
    '(self, data_pos) <- do_ExtraFromWire self (skipn 4 data) ;;
    do_DataFromWire self (skipn (4 + data_pos) data).

End Wire.

(** ** The session engine *)

(** [str(n)] for an integer, as an f-string prints it. *)
Fixpoint digits (fuel : nat) (n : Z) (acc : str) : str :=
  match fuel with
  | O => acc
  | S fuel' =>
      let acc' := 48 + n mod 10 :: acc in
      if n <? 10 then acc' else digits fuel' (n / 10) acc'
  end.

Definition decimal (n : Z) : str :=
  if n <? 0 then 45 :: digits (S (Z.to_nat (Z.log2 (- n)))) (- n) []
  else digits (S (Z.to_nat (Z.log2 n))) n [].

(** [a < b] on strings: lexicographic on code points. *)
Fixpoint str_lt (a b : str) : bool :=
  match a, b with
  | _, [] => false
  | [], _ :: _ => true
  | x :: a', y :: b' => (x <? y) || ((x =? y) && str_lt a' b')
  end.

Module Session.
Import Wire.

(** The datagram socket, seen from the client: the datagrams handed to
    [sendto], oldest first, and what the coming calls of [recvfrom] will
    produce, [Some d] for a datagram and [None] for a timeout.  Once the
    list is used up nothing arrives any more and [recvfrom] times out.
    Errors of the operating system other than the timeout are not
    modelled. *)
Record socket : Type := mkSocket {
  sent : list bytes;
  incoming : list (option bytes)
}.

(** The attributes of a [Session] object ([address] never changes and is
    left out). *)
Record state : Type := mkState {
  session : option Z;
  sequence : Z;
  version : str;
  sock : socket
}.

(** A method of [Session]: it may change the object, and returns or
    raises. *)
Definition M (A : Type) : Type := state -> result A * state.

Definition ret {A : Type} (a : A) : M A := fun self => (Ok a, self).
Definition raise {A : Type} (e : exn) : M A := fun self => (Raise e, self).
Definition lift {A : Type} (r : result A) : M A := fun self => (r, self).

Definition bindM {A B : Type} (m : M A) (k : A -> M B) : M B :=
  fun self =>
    match m self with
    | (Ok a, self') => k a self'
    | (Raise e, self') => (Raise e, self')
    end.

Notation "x <~ e ;; k" := (bindM e (fun x => k))
  (at level 61, e at next level, right associativity).
Notation "' p <~ e ;; k" := (bindM e (fun p => k))
  (at level 61, p pattern, e at next level, right associativity).

(** [try: m  except TimeoutError: handler] *)
Definition except_TimeoutError {A : Type} (m : M A) (handler : M A) : M A :=
  fun self =>
    match m self with
    | (Raise TimeoutError, self') => handler self'
    | other => other
    end.

Definition setSession (s : option Z) : M unit :=
  fun self => (Ok tt, mkState s (sequence self) (version self) (sock self)).

Definition sendto (w : bytes) : M unit :=
  fun self =>
    (Ok tt, mkState (session self) (sequence self) (version self)
              (mkSocket (sent (sock self) ++ [w]) (incoming (sock self)))).

(** [recvfrom(1024)]: a longer datagram is cut to the buffer size. *)
Definition recvfrom : M bytes :=
  fun self =>
    let s := sock self in
    let self' rest :=
      mkState (session self) (sequence self) (version self)
        (mkSocket (sent s) rest) in
    match incoming s with
    | [] => (Raise TimeoutError, self)
    | None :: rest => (Raise TimeoutError, self' rest)
    | Some d :: rest => (Ok (firstn 1024 d), self' rest)
    end.

Definition next_sequence : M unit :=
  fun self =>
    (Ok tt, mkState (session self) ((sequence self + 1) mod 256)
              (version self) (sock self)).

(** The message as [_SendReceive] stamps it before sending. *)
Definition stamp (self : state) (message : Wire.message) : Wire.message :=
  Wire.setSession (setRetry message (sequence self)) (session self).

Definition _SendReceive (message : Wire.message) : M bytes :=
  fun self =>
    (w <~ lift (toWire (stamp self message)) ;;
     _ <~ sendto w ;;
     data <~ recvfrom ;;
     _ <~ next_sequence ;;
     ret data) self.

(** The pattern shared by the methods: send a command, decode the answer
    into a new object of the response class. *)
Definition exchange (cmd : command_body) (reply0 : Z) (rsp : response_body)
  : M message :=
  data <~ _SendReceive (new_command cmd) ;;
  lift (fromWire (new_response reply0 rsp) data).

Definition reply_of (r : message) : Z :=
  match r with
  | Response _ reply _ => reply
  | Command _ _ => 0
  end.

Definition empty : str := [].

Definition Mount (path : str) : M (Z * Z * Z) :=
  data <~ except_TimeoutError
            (_SendReceive (new_command (Wire.Mount 1 2 (Some path) (Some empty) (Some empty))))
            (* print("TimeoutError: Host did not respond"); sys.exit(0) *)
            (raise (SystemExit 0)) ;;
  r <~ lift (fromWire (new_response 0 (MountResponse 0 0 None)) data) ;;
  match r with
  | Response h reply (MountResponse ver_maj ver_min _) =>
      _ <~ (if reply =? 0 then setSession (conn_id h) else ret tt) ;;
      ret (reply, ver_maj, ver_min)
  | _ => raise AttributeError
  end.

Definition Umount : M Z :=
  r <~ exchange Wire.Umount 0 UmountResponse ;;
  _ <~ setSession None ;;
  ret (reply_of r).

Definition OpenDir (path : str) : M (Z * option Z) :=
  r <~ exchange (Wire.OpenDir (Some path)) 255 (OpenDirResponse None) ;;
  match r with
  | Response _ reply (OpenDirResponse handle) => ret (reply, handle)
  | _ => raise AttributeError
  end.

Definition ReadDir (handle : option Z) : M (Z * option str) :=
  r <~ exchange (Wire.ReadDir handle) 0 (ReadDirResponse None) ;;
  match r with
  | Response _ reply (ReadDirResponse path) => ret (reply, path)
  | _ => raise AttributeError
  end.

(** [OpenDirX] answers [(None, None, None)] below protocol version 1.2,
    without any exchange. *)
Definition OpenDirX (path pattern : str) (dirOptions sortOptions maxResults : Z)
  : M (option Z * option Z * option Z) :=
  fun self =>
    if str_lt (version self) [49; 46; 50] then (Ok (None, None, None), self)
    else
      (r <~ exchange (Wire.OpenDirX (Some path) pattern dirOptions sortOptions maxResults)
              255 (OpenDirXResponse None 0 None) ;;
       match r with
       | Response _ reply (OpenDirXResponse handle entries _) =>
           ret (Some reply, handle, Some entries)
       | _ => raise AttributeError
       end) self.

Definition ReadDirX (handle : option Z) : M (Z * option (list DirEntry)) :=
  r <~ exchange (Wire.ReadDirX handle 0) 0 (ReadDirXResponse None None None None) ;;
  match r with
  | Response _ reply (ReadDirXResponse _ entries _ _) => ret (reply, entries)
  | _ => raise AttributeError
  end.

Definition CloseDir (handle : option Z) : M Z :=
  r <~ exchange (Wire.CloseDir handle) 0 CloseDirResponse ;; ret (reply_of r).

Definition MkDir (path : str) : M Z :=
  r <~ exchange (Wire.MkDir (Some path)) 0 MkDirResponse ;; ret (reply_of r).

Definition RmDir (path : str) : M Z :=
  r <~ exchange (Wire.RmDir (Some path)) 0 RmDirResponse ;; ret (reply_of r).

Definition Open (path : str) (flags mode : Z) : M (Z * option Z) :=
  r <~ exchange (Wire.Open flags mode (Some path)) 0 (OpenResponse None) ;;
  match r with
  | Response _ reply (OpenResponse fd) => ret (reply, fd)
  | _ => raise AttributeError
  end.

(** The bound given to the loops of the model: every turn of a loop either
    raises or uses up one element of [incoming], so one more than its
    length is never reached. *)
Definition turns (self : state) : nat := S (length (incoming (sock self))).

(** The [while] loop of [Read]; [r] is the local variable of that name,
    unbound ([None]) until the first turn. *)
Fixpoint Read_loop (fuel : nat) (fd : option Z) (size : Z)
  (data_received : bytes) (r : option message)
  : M (bytes * option message) :=
  if 0 <? size then
    match fuel with
    | O => raise OutOfFuel
    | S fuel' =>
        r' <~ exchange (Wire.Read fd (Some (if size <=? 512 then size else 512)))
                0 (ReadResponse None None) ;;
        match r' with
        | Response _ reply (ReadResponse _ data) =>
            if reply =? 0 then
              match data with
              | Some d =>
                  Read_loop fuel' fd (size - len d) (data_received ++ d) (Some r')
              | None => raise TypeError
              end
            else ret (data_received, Some r')
        | _ => raise AttributeError
        end
    end
  else ret (data_received, r).

Definition Read (fd : option Z) (size : Z) : M (Z * option bytes) :=
  fun self =>
    ('(data_received, r) <~ Read_loop (turns self) fd size [] None ;;
     if 0 <? len data_received then ret (0, Some data_received)
     else
       match r with
       | Some r => ret (reply_of r, None)
       | None => raise UnboundLocalError
       end) self.

(** The [while] loop of [Write]. *)
Fixpoint Write_loop (fuel : nat) (fd : option Z) (data_to_send : bytes)
  (written : Z) (r : option message) : M (Z * option message) :=
  if written <? len data_to_send then
    match fuel with
    | O => raise OutOfFuel
    | S fuel' =>
        r' <~ exchange
                (Wire.Write fd
                   (Some (slice data_to_send (Some written) (Some (written + 512)))))
                0 (WriteResponse None) ;;
        match r' with
        | Response _ reply (WriteResponse size) =>
            if negb (reply =? 0) then ret (written, Some r')
            else
              match size with
              | Some n => Write_loop fuel' fd data_to_send (written + n) (Some r')
              | None => raise TypeError
              end
        | _ => raise AttributeError
        end
    end
  else ret (written, r).

Definition Write (fd : option Z) (data_to_send : bytes) : M (Z * Z) :=
  fun self =>
    ('(written, r) <~ Write_loop (turns self) fd data_to_send 0 None ;;
     match r with
     | Some r => ret (reply_of r, written)
     | None => raise UnboundLocalError
     end) self.

Definition Close (fd : option Z) : M Z :=
  r <~ exchange (Wire.Close fd) 0 CloseResponse ;; ret (reply_of r).

Definition Stat (path : str) : M (Z * message) :=
  r <~ exchange (Wire.Stat (Some path)) 0
         (StatResponse None (Some 0) (Some 0) None (Some 0) (Some 0) (Some 0)
            (Some anonymous) (Some anonymous)) ;;
  ret (reply_of r, r).

Definition LSeek (fd : option Z) (offset whence : Z) : M Z :=
  r <~ exchange (Wire.LSeek fd (Some whence) (Some offset)) 0 LSeekResponse ;;
  ret (reply_of r).

Definition Unlink (path : str) : M Z :=
  r <~ exchange (Wire.Unlink (Some path)) 0 UnlinkResponse ;; ret (reply_of r).

Definition Rename (source destination : str) : M Z :=
  r <~ exchange (Wire.Rename (Some source) (Some destination)) 0 RenameResponse ;;
  ret (reply_of r).

Definition ChMod (path : str) (mode : Z) : M Z :=
  r <~ exchange (Wire.ChMod (Some mode) (Some path)) 0 ChModResponse ;;
  ret (reply_of r).

Definition GetFilesystemSize : M (Z * option Z) :=
  r <~ exchange Wire.Size 0 (SizeResponse None) ;;
  match r with
  | Response _ reply (SizeResponse size) => ret (reply, size)
  | _ => raise AttributeError
  end.

Definition GetFilesystemFree : M (Z * option Z) :=
  r <~ exchange Wire.Free 0 (FreeResponse None) ;;
  match r with
  | Response _ reply (FreeResponse free) => ret (reply, free)
  | _ => raise AttributeError
  end.

(** *** The composite operations *)

Fixpoint ListDir_loop (fuel : nat) (handle : option Z) (reply : Z)
  (contents : list (option str)) : M (list (option str)) :=
  if reply =? 0 then
    match fuel with
    | O => raise OutOfFuel
    | S fuel' =>
        '(reply', filename) <~ ReadDir handle ;;
        ListDir_loop fuel' handle reply'
          (if reply' =? 0 then contents ++ [filename] else contents)
    end
  else ret contents.

Definition close_handle (handle : option Z) : M unit :=
  match handle with
  | Some _ => _ <~ CloseDir handle ;; ret tt
  | None => ret tt
  end.

Definition ListDir (path : str) : M (list (option str)) :=
  '(reply, handle) <~ OpenDir path ;;
  contents <~ (fun self => ListDir_loop (turns self) handle reply [] self) ;;
  _ <~ close_handle handle ;;
  ret contents.

(** The loop of [ListDirX]: [numEntries -= len(entries)] comes before the
    test of [reply]. *)
Fixpoint ListDirX_loop (fuel : nat) (handle : option Z) (reply numEntries : Z)
  (contents : list DirEntry) : M (list DirEntry) :=
  if (reply =? 0) && (0 <? numEntries) then
    match fuel with
    | O => raise OutOfFuel
    | S fuel' =>
        '(reply', entries) <~ ReadDirX handle ;;
        match entries with
        | None => raise TypeError            (* len(None) *)
        | Some es =>
            ListDirX_loop fuel' handle reply' (numEntries - len es)
              (if reply' =? 0 then contents ++ es else contents)
        end
    end
  else ret contents.

Definition ListDirX (path pattern : str) (dirOptions sortOptions maxResults : Z)
  : M (option (list DirEntry)) :=
  '(reply, handle, numEntries) <~
    OpenDirX path pattern dirOptions sortOptions maxResults ;;
  match reply with
  | None => ret None
  | Some reply =>
      contents <~
        (if reply =? 0 then
           match numEntries with
           | Some n => fun self => ListDirX_loop (turns self) handle reply n [] self
           | None => raise TypeError
           end
         else ret []) ;;
      _ <~ close_handle handle ;;
      ret (Some contents)
  end.

Fixpoint GetFile_loop (fuel : nat) (fd : option Z) (reply : Z)
  (data : list (option bytes)) : M (list (option bytes)) :=
  if reply =? 0 then
    match fuel with
    | O => raise OutOfFuel
    | S fuel' =>
        '(reply', chunk) <~ Read fd 4096 ;;
        GetFile_loop fuel' fd reply'
          (if reply' =? 0 then data ++ [chunk] else data)
    end
  else ret data.

(** [b"".join(data)] *)
Fixpoint join (data : list (option bytes)) : result bytes :=
  match data with
  | [] => Ok []
  | None :: _ => Raise TypeError
  | Some c :: rest => b <- join rest ;; Ok (c ++ b)
  end.

Definition GetFile (path : str) : M (option bytes) :=
  '(reply, fd) <~ Open path 0 0 ;;
  match fd with
  | None => ret None
  | Some _ =>
      data <~ (fun self => GetFile_loop (turns self) fd reply [] self) ;;
      _ <~ Close fd ;;
      b <~ lift (join data) ;;
      ret (Some b)
  end.

Fixpoint PutFile_loop (fuel : nat) (fd : option Z) (data : bytes) (pos : Z)
  : M unit :=
  if pos <? len data then
    match fuel with
    | O => raise OutOfFuel
    | S fuel' =>
        _ <~ Write fd (slice data (Some pos) (Some (pos + 4096))) ;;
        PutFile_loop fuel' fd data (pos + 4096)
    end
  else ret tt.

Definition PutFile (path : str) (data : bytes) : M unit :=
  (* tnfs_flag.O_WRONLY | tnfs_flag.O_CREAT | tnfs_flag.O_TRUNC, 0o600 *)
  '(reply, fd) <~ Open path 0x0302 384 ;;
  match fd with
  | None => ret tt                        (* print("Access denied") *)
  | Some _ =>
      _ <~ PutFile_loop (length data) fd data 0 ;;
      _ <~ Close fd ;;
      ret tt
  end.

(** [Session.__init__]: the object starts unmounted with sequence 0 and
    mounts ["/"]; [version] is set from the answer. *)
Definition init (s : socket) : result unit * state :=
  ('(reply, ver_maj, ver_min) <~ Mount [47] ;;
   fun self =>
     (Ok tt, mkState (session self) (sequence self)
               (decimal ver_maj ++ [46] ++ decimal ver_min) (sock self)))
    (mkState None 0 [] s).

(** [Session.__exit__] *)
Definition exit : M unit :=
  fun self =>
    match session self with
    | Some _ => (_ <~ Umount ;; setSession None) self
    | None => (Ok tt, self)
    end.

End Session.

(** ** Vocabulary of the statements *)

(** Legal values of the attributes: an integer fits the field that carries
    it, a string is made of Unicode scalar values other than NUL (the
    terminator), the data of a [Write] are bytes and at most 65535 of
    them. *)
Definition fits (c : Struct.fmtc) (v : option Z) : bool :=
  match v with
  | Some z => Struct.in_range c z
  | None => false
  end.

Definition legal_char (c : Z) : bool :=
  ((0 <? c) && (c <? 0xD800)) || ((0xE000 <=? c) && (c <? 0x110000)).

Definition legal_str (s : str) : bool := forallb legal_char s.

Definition legal_string (v : option str) : bool :=
  match v with
  | Some s => legal_str s
  | None => false
  end.

Definition legal_bytes (v : option bytes) : bool :=
  match v with
  | Some d => forallb (Struct.in_range Struct.B) d && (len d <? 65536)
  | None => false
  end.

Module Legal.
Import Struct Wire.

Definition command (c : command_body) : bool :=
  match c with
  | Mount ver_maj ver_min location user password =>
      in_range B ver_maj && in_range B ver_min
      && legal_string location && legal_string user && legal_string password
  | OpenDir path | MkDir path | RmDir path | Stat path | Unlink path =>
      legal_string path
  | ReadDir handle | CloseDir handle => fits B handle
  | OpenDirX path pattern dirOptions sortOptions maxResults =>
      legal_string path && legal_str pattern && in_range B dirOptions
      && in_range B sortOptions && in_range H maxResults
  | ReadDirX handle maxEntries => fits B handle && in_range B maxEntries
  | Open flags mode path =>
      in_range H flags && in_range H mode && legal_string path
  | Read fd size => fits B fd && fits H size
  | Write fd data => fits B fd && legal_bytes data
  | Close fd => fits B fd
  | LSeek fd seektype seekposition =>
      fits B fd && fits B seektype && fits i seekposition
  | ChMod mode path => fits H mode && legal_string path
  | Rename source destination =>
      legal_string source && legal_string destination
  | Umount | Size | Free => true
  end.

(** The payload of a response is looked at when [reply] is 0; otherwise
    the payload attributes may hold anything, [None] included. *)
Definition response (reply : Z) (r : response_body) : bool :=
  match r with
  | MountResponse ver_maj ver_min retry_delay =>
      in_range B ver_maj && in_range B ver_min
      && (if reply =? 0 then fits H retry_delay else true)
  | OpenDirResponse handle => if reply =? 0 then fits B handle else true
  | ReadDirResponse path => if reply =? 0 then legal_string path else true
  | OpenDirXResponse handle entries path =>
      if reply =? 0 then fits B handle && in_range H entries else true
  | ReadDirXResponse path _ _ _ =>
      if reply =? 0 then legal_string path else true
  | OpenResponse fd => if reply =? 0 then fits B fd else true
  | ReadResponse size _ | WriteResponse size =>
      if reply =? 0 then fits H size else true
  | StatResponse mode uid gid size atime mtime ctime user group =>
      if reply =? 0 then
        fits H mode && fits H uid && fits H gid && fits I size
        && fits I atime && fits I mtime && fits I ctime
        && legal_string user && legal_string group
      else true
  | SizeResponse size => if reply =? 0 then fits I size else true
  | FreeResponse free => if reply =? 0 then fits I free else true
  | UmountResponse | CloseDirResponse | MkDirResponse | RmDirResponse
  | CloseResponse | LSeekResponse | UnlinkResponse | ChModResponse
  | RenameResponse => true
  end.

(** A header as the setters leave it: a 16-bit session (which
    [Mount.setSession] forces to 0), an 8-bit sequence, and the opcode of
    the class. *)
Definition header (self : Wire.message) : bool :=
  let h := hdr self in
  match self with
  | Command _ (Mount _ _ _ _ _) =>
      match conn_id h with Some c => c =? 0 | None => false end
  | _ => fits H (conn_id h)
  end
  && in_range B (retry h) && (Wire.command h =? TnfsCmd self).

Definition message (self : Wire.message) : bool :=
  header self &&
  match self with
  | Command _ c => command c
  | Response _ reply r => in_range B reply && response reply r
  end.

End Legal.

Module RoundTrip.
Import Wire.

(** The variants whose [toWire] and [fromWire] mirror each other.  Left
    out: [OpenDirX] and [ChMod]; [ReadDirX] with a [maxEntries] other than
    the default; [OpenDirXResponse] and [ReadDirXResponse] with status 0;
    [StatResponse], [SizeResponse] and [FreeResponse] with a nonzero
    status. *)
Definition symmetric (self : message) : bool :=
  match self with
  | Command _ (OpenDirX _ _ _ _ _) | Command _ (ChMod _ _) => false
  | Command _ (ReadDirX _ maxEntries) => maxEntries =? 0
  | Response _ reply (OpenDirXResponse _ _ _)
  | Response _ reply (ReadDirXResponse _ _ _ _) => negb (reply =? 0)
  | Response _ reply (StatResponse _ _ _ _ _ _ _ _ _)
  | Response _ reply (SizeResponse _)
  | Response _ reply (FreeResponse _) => reply =? 0
  | _ => true
  end.

Definition is_none {A : Type} (v : option A) : bool :=
  match v with None => true | Some _ => false end.

(** The attributes that the encoding leaves out hold what decoding gives
    them: the payload attributes of a failure response are as [__init__]
    or the failure branch of the decoder sets them, and the [data] of a
    [ReadResponse], which [toWire] never writes, is empty. *)
Definition nothing_omitted (self : message) : bool :=
  match self with
  | Command _ _ => true
  | Response _ reply r =>
      match r with
      | MountResponse _ _ retry_delay => (reply =? 0) || is_none retry_delay
      | OpenDirResponse handle => (reply =? 0) || is_none handle
      | ReadDirResponse path => (reply =? 0) || is_none path
      | OpenDirXResponse handle entries path =>
          is_none handle && (entries =? 0) && is_none path
      | ReadDirXResponse path entries status dpos =>
          is_none path && is_none entries && is_none status && is_none dpos
      | OpenResponse fd => (reply =? 0) || is_none fd
      | ReadResponse size data =>
          if reply =? 0 then
            match data with Some [] => true | _ => false end
          else is_none size && is_none data
      | WriteResponse size => (reply =? 0) || is_none size
      | _ => true
      end
  end.

(** Encode, decode into a new object of the same class, encode again. *)
Definition holds (self : message) : Prop :=
  exists w self',
    toWire self = Ok w /\
    fromWire (fresh self) w = Ok self' /\
    toWire self' = Ok w /\
    (nothing_omitted self = true -> self' = self).

End RoundTrip.

(** The values handed to [struct.pack], once it has accepted them. *)
Definition values (vs : list (option Z)) : list Z :=
  map (fun v => match v with Some z => z | None => 0 end) vs.

(** Fields of a datagram. *)
Definition session_id (w : bytes) : Z := Struct.le_value (firstn 2 w).
Definition opcode (w : bytes) : Z := nth 3 w 0.

Module Engine.
Import Wire Session.

(** The object after one complete exchange: the request [w] has been sent,
    the first element of [incoming] received, the sequence advanced. *)
Definition exchanged (self : state) (w : bytes) (rest : list (option bytes))
  : state :=
  mkState (session self) ((sequence self + 1) mod 256) (version self)
    (mkSocket (sent (sock self) ++ [w]) rest).

(** The object after a request [w] that got no answer in time. *)
Definition unanswered (self : state) (w : bytes) : state :=
  mkState (session self) (sequence self) (version self)
    (mkSocket (sent (sock self) ++ [w]) (tl (incoming (sock self)))).

(** The next [recvfrom] will time out. *)
Definition timed_out (self : state) : bool :=
  match incoming (sock self) with
  | [] | None :: _ => true
  | Some _ :: _ => false
  end.

(** A run of exchanges, one per message. *)
Fixpoint exchanges (messages : list message) : M (list bytes) :=
  match messages with
  | [] => ret []
  | m :: ms =>
      d <~ _SendReceive m ;;
      ds <~ exchanges ms ;;
      ret (d :: ds)
  end.

(** The public methods of [Session], with their arguments. *)
Inductive op : Type :=
| OpMount (path : str)
| OpUmount
| OpOpenDir (path : str)
| OpReadDir (handle : option Z)
| OpOpenDirX (path pattern : str) (dirOptions sortOptions maxResults : Z)
| OpReadDirX (handle : option Z)
| OpCloseDir (handle : option Z)
| OpMkDir (path : str)
| OpRmDir (path : str)
| OpOpen (path : str) (flags mode : Z)
| OpRead (fd : option Z) (size : Z)
| OpWrite (fd : option Z) (data_to_send : bytes)
| OpClose (fd : option Z)
| OpStat (path : str)
| OpLSeek (fd : option Z) (offset whence : Z)
| OpUnlink (path : str)
| OpRename (source destination : str)
| OpChMod (path : str) (mode : Z)
| OpGetFilesystemSize
| OpGetFilesystemFree
| OpListDir (path : str)
| OpListDirX (path pattern : str) (dirOptions sortOptions maxResults : Z)
| OpGetFile (path : str)
| OpPutFile (path : str) (data : bytes)
| OpExit.

Definition is_Mount (o : op) : bool :=
  match o with OpMount _ => true | _ => false end.

Definition returning {A : Type} (status : A -> option Z) (m : M A)
  : M (option Z) :=
  a <~ m ;; ret (status a).

(** Calling a method; of what it returns only the status is kept, where
    there is one. *)
Definition run (o : op) : M (option Z) :=
  match o with
  | OpMount path => returning (fun '(reply, _, _) => Some reply) (Mount path)
  | OpUmount => returning Some Umount
  | OpOpenDir path => returning (fun '(reply, _) => Some reply) (OpenDir path)
  | OpReadDir handle => returning (fun '(reply, _) => Some reply) (ReadDir handle)
  | OpOpenDirX path pattern d s m =>
      returning (fun '(reply, _, _) => reply) (OpenDirX path pattern d s m)
  | OpReadDirX handle => returning (fun '(reply, _) => Some reply) (ReadDirX handle)
  | OpCloseDir handle => returning Some (CloseDir handle)
  | OpMkDir path => returning Some (MkDir path)
  | OpRmDir path => returning Some (RmDir path)
  | OpOpen path flags mode =>
      returning (fun '(reply, _) => Some reply) (Open path flags mode)
  | OpRead fd size => returning (fun '(reply, _) => Some reply) (Read fd size)
  | OpWrite fd data => returning (fun '(reply, _) => Some reply) (Write fd data)
  | OpClose fd => returning Some (Close fd)
  | OpStat path => returning (fun '(reply, _) => Some reply) (Stat path)
  | OpLSeek fd offset whence => returning Some (LSeek fd offset whence)
  | OpUnlink path => returning Some (Unlink path)
  | OpRename source destination => returning Some (Rename source destination)
  | OpChMod path mode => returning Some (ChMod path mode)
  | OpGetFilesystemSize =>
      returning (fun '(reply, _) => Some reply) GetFilesystemSize
  | OpGetFilesystemFree =>
      returning (fun '(reply, _) => Some reply) GetFilesystemFree
  | OpListDir path => returning (fun _ => None) (ListDir path)
  | OpListDirX path pattern d s m =>
      returning (fun _ => None) (ListDirX path pattern d s m)
  | OpGetFile path => returning (fun _ => None) (GetFile path)
  | OpPutFile path data => returning (fun _ => None) (PutFile path data)
  | OpExit => returning (fun _ => None) exit
  end.

(** The session id that the answer to a [Mount] brings, read off the
    datagram about to be received. *)
Definition mount_reply_conn (self : state) : option Z :=
  match incoming (sock self) with
  | Some d :: _ => Some (session_id d)
  | _ => None
  end.

(** The datagrams sent by a sequence of calls, each with the session id
    that the most recent successful [Mount] before it returned ([None] when
    there was none). *)
Fixpoint trace (ops : list op) (self : state) (mounted : option Z)
  : list (option Z * bytes) :=
  match ops with
  | [] => []
  | o :: rest =>
      let '(res, self') := run o self in
      let new := skipn (length (sent (sock self))) (sent (sock self')) in
      let mounted' :=
        match o, res with
        | OpMount _, Ok (Some 0) => mount_reply_conn self
        | _, _ => mounted
        end in
      map (pair mounted) new ++ trace rest self' mounted'
  end.

(** A [Mount] request carries session 0, any other request the session of
    the last successful [Mount]. *)
Definition carries_session (e : option Z * bytes) : bool :=
  let '(mounted, w) := e in
  if opcode w =? 0 then session_id w =? 0
  else
    match mounted with
    | Some c => session_id w =? c
    | None => false
    end.

End Engine.

Definition is_MountResponse (r : Wire.response_body) : bool :=
  match r with Wire.MountResponse _ _ _ => true | _ => false end.

(** The exceptions that encoding and decoding can raise. *)
Definition codec_exn (e : exn) : bool :=
  match e with
  | StructError | ValueError | TypeError | IndexError
  | UnicodeDecodeError | UnicodeEncodeError => true
  | _ => false
  end.

Definition codec_only {A : Type} (r : result A) : Prop :=
  forall e, r = Raise e -> codec_exn e = true.

(** [r] is not the exception of [sys.exit]. *)
Definition safe {A : Type} (r : result A) : Prop :=
  forall code, r <> Raise (SystemExit code).

(** A request other than [Mount] that carries the given session. *)
Definition request_of (session : option Z) (w : bytes) : Prop :=
  opcode w <> 0 /\ session = Some (session_id w).

(** A [Mount] request with session 0. *)
Definition mount_request (w : bytes) : Prop :=
  opcode w = 0 /\ session_id w = 0.

(** A method that does not exit, leaves [session] alone, and sends only
    requests that carry it. *)
Definition sound {A : Type} (m : Session.M A) : Prop :=
  forall self res self',
    m self = (res, self') ->
    safe res /\
    Session.session self' = Session.session self /\
    exists new,
      Session.sent (Session.sock self') = Session.sent (Session.sock self) ++ new /\
      Forall (request_of (Session.session self)) new.

(** As [sound], but the method may also clear [session]. *)
Definition sound_or_unmounting {A : Type} (m : Session.M A) : Prop :=
  forall self res self',
    m self = (res, self') ->
    safe res /\
    (Session.session self' = Session.session self \/ Session.session self' = None) /\
    exists new,
      Session.sent (Session.sock self') = Session.sent (Session.sock self) ++ new /\
      Forall (request_of (Session.session self)) new.

(** Under a timeout the method raises, having sent at most one request. *)
Definition stops_at_timeout {A : Type} (m : Session.M A) : Prop :=
  forall self,
    Engine.timed_out self = true ->
    (exists e, m self = (Raise e, self)) \/
    (exists w, m self = (Raise TimeoutError, Engine.unanswered self w)).

(** Under a timeout the method either leaves the object as it is or raises
    [TimeoutError] after one request. *)
Definition surfaces_timeout {A : Type} (m : Session.M A) : Prop :=
  forall self,
    Engine.timed_out self = true ->
    snd (m self) = self \/
    (fst (m self) = Raise TimeoutError /\
     exists w, snd (m self) = Engine.unanswered self w).

(** The sequence counter after [n] answered exchanges. *)
Definition advanced (n : nat) (sequence : Z) : Z :=
  Nat.iter n (fun s => (s + 1) mod 256) sequence.

(** [mid] is the object [self] after exchanges that were all answered: the
    requests [ws] have been sent, one for each of the datagrams [ds], which
    were the next to arrive, and each reply advanced the counter. *)
Definition answered (self : Session.state) (ws ds : list bytes)
  (mid : Session.state) : Prop :=
  Session.version mid = Session.version self /\
  Session.sent (Session.sock mid) = Session.sent (Session.sock self) ++ ws /\
  Session.incoming (Session.sock self) =
    map Some ds ++ Session.incoming (Session.sock mid) /\
  length ws = length ds /\
  Session.sequence mid = advanced (length ds) (Session.sequence self).

(** A call that ends in [self'] with [res] because the exchange begun in
    [mid] got no answer: the request was sent once, nothing was sent after
    it, the counter is as it was, and [TimeoutError] is raised. *)
Definition times_out (mid : Session.state) {A : Type} (res : result A)
  (self' : Session.state) : Prop :=
  res = Raise TimeoutError /\
  Engine.timed_out mid = true /\
  exists cmd w,
    Wire.toWire (Session.stamp mid (Wire.new_command cmd)) = Ok w /\
    self' = Engine.unanswered mid w.

(** A method whose exchanges are answered until it ends or until one of
    them times out, which ends it; [session] is left alone. *)
Definition passes_timeouts {A : Type} (m : Session.M A) : Prop :=
  forall self res self',
    m self = (res, self') ->
    exists ws ds mid,
      answered self ws ds mid /\
      Session.session mid = Session.session self /\
      (self' = mid \/ times_out mid res self').

(** As [passes_timeouts], but the method may change [session] when it
    ends. *)
Definition surfaces_timeouts {A : Type} (m : Session.M A) : Prop :=
  forall self res self',
    m self = (res, self') ->
    exists ws ds mid,
      answered self ws ds mid /\
      (self' = mid \/
       (Session.session mid = Session.session self /\ times_out mid res self')).

(** The number of datagrams and timeouts still to come. *)
Definition pending (self : Session.state) : nat :=
  length (Session.incoming (Session.sock self)).

(** What every method keeps: it stays within the bound of the loops, uses
    up [incoming] only, and keeps the sequence counter a byte. *)
Definition kept (self : Session.state) {A : Type} (res : result A)
  (self' : Session.state) : Prop :=
  res <> Raise OutOfFuel /\
  (pending self' <= pending self)%nat /\
  (0 <= Session.sequence self < 256 -> 0 <= Session.sequence self' < 256).

Definition steady {A : Type} (m : Session.M A) : Prop :=
  forall self res self', m self = (res, self') -> kept self res self'.

(** A steady method that, when it returns, has received something. *)
Definition consuming {A : Type} (m : Session.M A) : Prop :=
  forall self res self',
    m self = (res, self') ->
    kept self res self' /\
    (forall a, res = Ok a -> (pending self' < pending self)%nat).

(** A steady method, for objects that satisfy [P]. *)
Definition steady_when (P : Session.state -> Prop) {A : Type} (m : Session.M A)
  : Prop :=
  forall self res self', P self -> m self = (res, self') -> kept self res self'.

(** ** Concrete messages, datagrams and sessions *)

Module Examples.
Import Wire Session Engine.

Definition root : str := [47].                        (* "/" *)
Definition v1_2 : str := [49; 46; 50].                (* "1.2" *)

(** [Mount().setLocation("/home").setUserPassword("u", "p")], stamped. *)
Definition a_Mount : message :=
  Command (mkHeader (Some 0) 7 0x00)
    (Wire.Mount 1 2 (Some [47; 104; 111; 109; 101]) (Some [117]) (Some [112])).

(** [OpenDirXResponse().setSession(0xbeef).setReply(0).setHandle(0x1f)
     .setEntries(3)] *)
Definition an_OpenDirXResponse : message :=
  Response (mkHeader (Some 0xbeef) 0 0x17) 0 (OpenDirXResponse (Some 0x1f) 3 None).

(** A session mounted as 0xbeef on a 1.2 server, at sequence 5, with the
    given datagrams still to come. *)
Definition mounted (replies : list (option bytes)) : state :=
  mkState (Some 0xbeef) 5 v1_2 (mkSocket [] replies).

(** A session object before its [Mount]. *)
Definition unmounted (replies : list (option bytes)) : state :=
  mkState None 0 [] (mkSocket [] replies).

(** Datagrams as a server sends them. *)
Definition reply (opcode status : Z) (payload : bytes) : option bytes :=
  Some ([0xef; 0xbe; 0; opcode; status] ++ payload).

Definition mount_ok : option bytes := reply 0x00 0 [2; 1; 0xe8; 3].
Definition read_ok (d : bytes) : option bytes :=
  reply 0x21 0 ([len d mod 256; len d / 256] ++ d).
Definition write_ack (n : Z) : option bytes :=
  reply 0x22 0 [n mod 256; n / 256].
Definition EOF : Z := 0x21.

(** The answer to [OpenDirX]: handle 1, two entries, and the path. *)
Definition opendirx_ok : option bytes := reply 0x17 0 [1; 2; 0; 47; 0].

Definition kilobyte : bytes := repeat 7 1024.

End Examples.

(** ** Vocabulary of the further properties *)

(** The methods that begin with an exchange whatever their arguments and
    the version of the server. *)
Definition always_exchanges (o : Engine.op) : bool :=
  match o with
  | Engine.OpMount _ | Engine.OpOpenDirX _ _ _ _ _ | Engine.OpListDirX _ _ _ _ _
  | Engine.OpRead _ _ | Engine.OpWrite _ _ | Engine.OpExit => false
  | _ => true
  end.

(** On an unmounted session object the method raises [struct.error] and
    leaves the object as it is. *)
Definition rejects {A : Type} (m : Session.M A) : Prop :=
  forall self, Session.session self = None -> m self = (Raise StructError, self).

(** On an unmounted session object the method leaves the object as it is. *)
Definition untouched {A : Type} (m : Session.M A) : Prop :=
  forall self, Session.session self = None -> snd (m self) = self.

(** The session object after an exchange that set [session]. *)
Definition remounted (self : Session.state) (w : bytes)
  (rest : list (option bytes)) (session : option Z) : Session.state :=
  Session.mkState session ((Session.sequence self + 1) mod 256)
    (Session.version self)
    (Session.mkSocket (Session.sent (Session.sock self) ++ [w]) rest).

(** The version string that [Session.__init__] makes of the two version
    bytes of the answer to [Mount]. *)
Definition version_string (ver_maj ver_min : Z) : str :=
  decimal ver_maj ++ [46] ++ decimal ver_min.

(** The minor versions of a 1.x server whose version string sorts before
    ["1.2"]. *)
Definition sorts_below_1_2 (minor : Z) : bool :=
  (minor <? 2) || ((10 <=? minor) && (minor <? 20))
  || ((100 <=? minor) && (minor <? 200)).

(** The datagrams of a run of requests as [_SendReceive] stamps them: all
    with the same session, the sequence number counting up from
    [sequence]. *)
Fixpoint wires (session : option Z) (sequence : Z)
  (cmds : list Wire.command_body) : result (list bytes) :=
  match cmds with
  | [] => Ok []
  | c :: cs =>
      w <- Wire.toWire
             (Wire.setSession (Wire.setRetry (Wire.new_command c) sequence) session) ;;
      ws <- wires session ((sequence + 1) mod 256) cs ;;
      Ok (w :: ws)
  end.

Definition requests (self : Session.state) (cmds : list Wire.command_body)
  : result (list bytes) :=
  wires (Session.session self) (Session.sequence self) cmds.

(** The session object after the exchanges of the requests [ws], with
    [rest] left to receive. *)
Definition after (self : Session.state) (ws : list bytes)
  (rest : list (option bytes)) : Session.state :=
  Session.mkState (Session.session self)
    ((Session.sequence self + len ws) mod 256) (Session.version self)
    (Session.mkSocket (Session.sent (Session.sock self) ++ ws) rest).

(** A reply datagram with the given opcode, status and payload.  Its
    session id and its sequence number are free: the client looks at
    neither. *)
Definition reply_with (opcode status : Z) (payload : bytes)
  (d : option bytes) : Prop :=
  exists c0 c1 q, d = Some (c0 :: c1 :: q :: opcode :: status :: payload).

(** A successful reply to [Read] that carries the data [d] and fits the
    receive buffer; its size field is free. *)
Definition read_reply (d : bytes) (dg : option bytes) : Prop :=
  (length d <= 1017)%nat /\
  exists s0 s1, reply_with 0x21 0 (s0 :: s1 :: d) dg.

(** The requests of [Read]: the first one, and one more after each of the
    data received. *)
Fixpoint Read_requests (fd : option Z) (size : Z) (received : list bytes)
  : list Wire.command_body :=
  Wire.Read fd (Some (if size <=? 512 then size else 512)) ::
  match received with
  | [] => []
  | d :: ds => Read_requests fd (size - len d) ds
  end.

(** A successful reply to [Write] that acknowledges [n] bytes. *)
Definition ack_reply (n : Z) (dg : option bytes) : Prop :=
  0 <= n /\
  exists n0 n1, n = n0 + 256 * n1 /\ reply_with 0x22 0 [n0; n1] dg.

(** The requests of [Write]: the first one, and one more after each of the
    acknowledged counts. *)
Fixpoint Write_requests (fd : option Z) (data_to_send : bytes) (written : Z)
  (acks : list Z) : list Wire.command_body :=
  Wire.Write fd (Some (slice data_to_send (Some written) (Some (written + 512)))) ::
  match acks with
  | [] => []
  | n :: ns => Write_requests fd data_to_send (written + n) ns
  end.

(** [sum(ns)] *)
Definition total (ns : list Z) : Z := fold_right Z.add 0 ns.

(** A successful reply to [ReadDir] that names an entry: the bytes of the
    name, the terminator, and whatever follows it. *)
Definition name_reply (name : str) (dg : option bytes) : Prop :=
  exists e extra,
    UTF8.decode e = Ok name /\
    Forall (fun b => b <> 0) e /\
    (length (e ++ 0%Z :: extra) <= 1019)%nat /\
    reply_with 0x11 0 (e ++ 0 :: extra) dg.

(** One [Read] of 4096 bytes that the replies fill: the data [front] leave
    it short, the data [last] complete it. *)
Definition filled_round (b : list bytes * bytes) (dgs : list (option bytes))
  : Prop :=
  Forall2 read_reply (fst b ++ [snd b]) dgs /\
  len (concat (fst b)) < 4096 <= len (concat (fst b)) + len (snd b).

(** The data of such a round. *)
Definition round_data (b : list bytes * bytes) : bytes := concat (fst b) ++ snd b.

(** [data[512*k : 512*k + 512]], the [k]-th piece of 512 bytes, and the
    number of such pieces. *)
Definition piece (data : bytes) (k : nat) : bytes :=
  slice data (Some (512 * Z.of_nat k)) (Some (512 * Z.of_nat k + 512)).

Definition piece_count (data : bytes) : nat := Z.to_nat ((len data + 511) / 512).

(** The same from a position [pos] on: the piece [k] places further, and
    the number of pieces that remain. *)
Definition piece_at (data : bytes) (pos : Z) (k : nat) : bytes :=
  slice data (Some (pos + 512 * Z.of_nat k)) (Some (pos + 512 * Z.of_nat k + 512)).

Definition remaining (data : bytes) (pos : Z) : nat :=
  Z.to_nat ((len data - pos + 511) / 512).

(** The number of blocks of 4096 bytes that [PutFile] hands to [Write]. *)
Definition block_count (data : bytes) : nat := Z.to_nat ((len data + 4095) / 4096).

Definition blocks_from (data : bytes) (pos : Z) : nat :=
  Z.to_nat ((len data - pos + 4095) / 4096).

(** A reply that refuses a [Write]. *)
Definition write_refusal (dg : option bytes) : Prop :=
  exists status payload, status <> 0 /\ reply_with 0x22 status payload dg.

(** ** The hex dump *)

Module Dump.

(** [f"{n:x}"] for an integer that is not negative. *)
Definition hex_digit (d : Z) : Z := if d <? 10 then 48 + d else 87 + d.

Fixpoint hex_digits (fuel : nat) (n : Z) (acc : str) : str :=
  match fuel with
  | O => acc
  | S fuel' =>
      let acc' := hex_digit (n mod 16) :: acc in
      if n <? 16 then acc' else hex_digits fuel' (n / 16) acc'
  end.

Definition hex (n : Z) : str := hex_digits (S (Z.to_nat (Z.log2 n))) n [].

(** The format specifications [0w] (zeros on the left) and [<w] (spaces on
    the right). *)
Definition zfill (width : nat) (s : str) : str :=
  repeat 48 (width - length s) ++ s.

Definition ljust (width : nat) (s : str) : str :=
  s ++ repeat 32 (width - length s).

(** The local variables of [dumpHex]. *)
Record dump : Type := mkDump {
  res : str;
  hexout : str;
  litout : str;
  dump_i : Z;
  offs : Z
}.

(** The [for] loop of [dumpHex] over the items of a bytes object, from a
    given state of the local variables; [break] leaves it with the
    variables as they are. *)
Fixpoint dumpHex_loop (barray : bytes) (maxBytes : Z) (v : dump) : dump :=
  match barray with
  | [] => v
  | b :: rest =>
      let hexout' := hexout v ++ zfill 2 (hex b) ++ [32] in
      let litout' := litout v ++ [if 32 <=? b then b else 46] in
      if 15 <=? dump_i v then
        let res' :=
          res v ++ zfill 4 (hex (offs v)) ++ [58; 32] ++ hexout'
          ++ [32; 32; 32] ++ litout' ++ [10] in
        let offs' := offs v + 16 in
        if maxBytes <? offs' then mkDump res' [] [] 0 offs'
        else dumpHex_loop rest maxBytes (mkDump res' [] [] 0 offs')
      else
        dumpHex_loop rest maxBytes
          (mkDump (res v) hexout' litout' (dump_i v + 1) (offs v))
  end.

Definition dumpHex (barray : bytes) (maxBytes : Z) : str :=
  let v := dumpHex_loop barray maxBytes (mkDump [] [] [] 0 0) in
  if 0 <? dump_i v then
    res v ++ zfill 4 (hex (offs v)) ++ [58; 32] ++ ljust 51 (hexout v) ++ litout v
  else res v.

End Dump.

(** The number of bytes that a dump limited to [maxBytes] shows at most. *)
Definition shown (maxBytes : Z) : Z := 16 * (maxBytes / 16 + 1).

(** The request that a method begins with, for the methods that begin
    with one whatever their arguments and the version of the server. *)
Definition first_request (o : Engine.op) : option Wire.command_body :=
  match o with
  | Engine.OpUmount => Some Wire.Umount
  | Engine.OpOpenDir path | Engine.OpListDir path => Some (Wire.OpenDir (Some path))
  | Engine.OpReadDir handle => Some (Wire.ReadDir handle)
  | Engine.OpReadDirX handle => Some (Wire.ReadDirX handle 0)
  | Engine.OpCloseDir handle => Some (Wire.CloseDir handle)
  | Engine.OpMkDir path => Some (Wire.MkDir (Some path))
  | Engine.OpRmDir path => Some (Wire.RmDir (Some path))
  | Engine.OpOpen path flags mode => Some (Wire.Open flags mode (Some path))
  | Engine.OpGetFile path => Some (Wire.Open 0 0 (Some path))
  | Engine.OpPutFile path _ => Some (Wire.Open 0x0302 384 (Some path))
  | Engine.OpClose fd => Some (Wire.Close fd)
  | Engine.OpStat path => Some (Wire.Stat (Some path))
  | Engine.OpLSeek fd offset whence => Some (Wire.LSeek fd (Some whence) (Some offset))
  | Engine.OpUnlink path => Some (Wire.Unlink (Some path))
  | Engine.OpRename source destination =>
      Some (Wire.Rename (Some source) (Some destination))
  | Engine.OpChMod path mode => Some (Wire.ChMod (Some mode) (Some path))
  | Engine.OpGetFilesystemSize => Some Wire.Size
  | Engine.OpGetFilesystemFree => Some Wire.Free
  | Engine.OpMount _ | Engine.OpOpenDirX _ _ _ _ _ | Engine.OpListDirX _ _ _ _ _
  | Engine.OpRead _ _ | Engine.OpWrite _ _ | Engine.OpExit => None
  end.

(** What decoding makes of a datagram that is not a reply to the command
    with opcode [opcode]: [struct.error] when the header or the status is
    missing, [ValueError] when the opcode is another one. *)
Definition rejected (opcode : Z) (d : bytes) : option exn :=
  match d with
  | _ :: _ :: _ :: op :: t =>
      if negb (op =? opcode) then Some ValueError
      else match t with [] => Some StructError | _ => None end
  | _ => Some StructError
  end.

(** The bytes of a directory entry as [ReadDirXResponse] reads them:
    flags, size, modification time and change time, in this order, then
    the name and its terminator. *)
Definition entry_wire (e : Wire.DirEntry) : result bytes :=
  p <- Struct.pack [Struct.B; Struct.I; Struct.I; Struct.I]
         [Some (Wire.de_flags e); Some (Wire.de_size e);
          Some (Wire.de_mtime e); Some (Wire.de_ctime e)] ;;
  n <- match Wire.de_name e with
       | Some s => UTF8.encode s
       | None => Raise TypeError
       end ;;
  Ok (p ++ n ++ [0]).

Fixpoint entries_wire (es : list Wire.DirEntry) : result bytes :=
  match es with
  | [] => Ok []
  | e :: r => w <- entry_wire e ;; ws <- entries_wire r ;; Ok (w ++ ws)
  end.

(** An entry whose name can be carried. *)
Definition legal_entry (e : Wire.DirEntry) : bool :=
  match Wire.de_name e with
  | Some s => legal_str s
  | None => false
  end.

(** A successful reply to [ReadDirX] that carries the entries [es]: their
    number, a status byte and a position that the client stores without
    using them, the entries, and whatever follows. *)
Definition entries_reply (es : list Wire.DirEntry) (dg : option bytes) : Prop :=
  exists ws status d0 d1 extra,
    forallb legal_entry es = true /\
    entries_wire es = Ok ws /\
    (length es < 256)%nat /\
    (length (ws ++ extra) <= 1015)%nat /\
    reply_with 0x18 0 (Z.of_nat (length es) :: status :: d0 :: d1 :: ws ++ extra) dg.

(** A successful reply to [OpenDirX]: the handle, the number of entries
    and the path. *)
Definition opendirx_reply (handle numEntries : Z) (dg : option bytes) : Prop :=
  exists n0 n1 e extra path,
    numEntries = n0 + 256 * n1 /\
    UTF8.decode e = Ok path /\
    Forall (fun b => b <> 0) e /\
    (length (e ++ 0%Z :: extra) <= 1016)%nat /\
    reply_with 0x17 0 (handle :: n0 :: n1 :: e ++ 0 :: extra) dg.

(** The [Mount] request of [Session.__init__]: session 0, sequence 0,
    version 1.2, the location ["/"], no user and no password. *)
Definition first_mount : bytes := [0; 0; 0; 0; 2; 1; 47; 0; 0; 0].

(** [with Session(address): pass], on a socket: [__init__], then
    [__exit__]. *)
Definition with_Session (s : Session.socket) : result unit * Session.state :=
  match Session.init s with
  | (Ok _, self) => Session.exit self
  | (Raise e, self) => (Raise e, self)
  end.

(** ** The connections of the load test *)

Module LoadTest.

(** [sep.join(segments)] *)
Fixpoint join (sep : str) (segments : list str) : str :=
  match segments with
  | [] => []
  | [s] => s
  | s :: rest => s ++ sep ++ join sep rest
  end.

(** [class TestConn], its attribute [pwd]; the session it holds plays no
    part in [path] and [cd]. *)
Definition TestConn : Type := list str.

Definition truthy (file : option str) : bool :=
  match file with
  | Some (_ :: _) => true
  | _ => false
  end.

(** [TestConn.path]: [segments] is the list [self.pwd] itself, not a copy,
    so [segments.append(file)] changes the object. *)
Definition path (file : option str) (self : TestConn) : str * TestConn :=
  let segments :=
    if truthy file then self ++ [match file with Some f => f | None => [] end]
    else self in
  (47 :: join [47] segments, segments).

(** [TestConn.cd]; [pop] on an empty list raises [IndexError]. *)
Definition cd (dir : str) (self : TestConn) : result unit * TestConn :=
  if list_eq_dec Z.eq_dec dir [46; 46] then
    match self with
    | [] => (Raise IndexError, self)
    | _ => (Ok tt, removelast self)
    end
  else (Ok tt, self ++ [dir]).

(** The paths of some files, asked for one after the other. *)
Fixpoint paths (files : list str) (self : TestConn) : list str * TestConn :=
  match files with
  | [] => ([], self)
  | f :: rest =>
      let '(p, self1) := path (Some f) self in
      let '(ps, self2) := paths rest self1 in
      (p :: ps, self2)
  end.

End LoadTest.

(** ** Open flags *)

Module Flags.

(** The truth value of an integer. *)
Definition truth (n : Z) : bool := negb (n =? 0).

Section Host.

(** The constants of the module [os], which depend on the host. *)
Variables O_RDONLY O_WRONLY O_RDWR O_APPEND O_CREAT O_EXCL O_TRUNC : Z.

(** [flagsToTNFS]; the constants of [class tnfs_flag] are written out. *)
Definition flagsToTNFS (flags : Z) : Z :=
  let tnfs_flags := 0 in
  let tnfs_flags :=
    if Z.land flags 0x03 =? O_RDONLY then Z.lor tnfs_flags 0x0001
    else if Z.land flags 0x03 =? O_WRONLY then Z.lor tnfs_flags 0x0002
    else if Z.land flags 0x03 =? O_RDWR then Z.lor tnfs_flags 0x0003
    else tnfs_flags in
  let tnfs_flags :=
    if truth (Z.land flags O_APPEND) then Z.lor tnfs_flags 0x0008 else tnfs_flags in
  let tnfs_flags :=
    if truth (Z.land flags O_CREAT) then Z.lor tnfs_flags 0x0100 else tnfs_flags in
  let tnfs_flags :=
    if truth (Z.land flags O_EXCL) then Z.lor tnfs_flags 0x0400 else tnfs_flags in
  let tnfs_flags :=
    if truth (Z.land flags O_TRUNC) then Z.lor tnfs_flags 0x0200 else tnfs_flags in
  tnfs_flags.

End Host.

End Flags.

(** The methods that return the status of the reply and nothing else. *)
Definition returns_status (o : Engine.op) : bool :=
  match o with
  | Engine.OpCloseDir _ | Engine.OpMkDir _ | Engine.OpRmDir _ | Engine.OpClose _
  | Engine.OpLSeek _ _ _ | Engine.OpUnlink _ | Engine.OpRename _ _
  | Engine.OpChMod _ _ => true
  | _ => false
  end.

(** Further sessions and runs of datagrams. *)
Module Scenarios.
Import Session Examples.

(** A session mounted on a server that announced version 1.10. *)
Definition on_1_10 : state :=
  mkState (Some 0xbeef) 5 [49; 46; 49; 48] (mkSocket [] []).

(** A directory with the entries "a" and "b". *)
Definition listing : list (option bytes) :=
  [reply 0x10 0 [1]; reply 0x11 0 [97; 0]; reply 0x11 0 [98; 0];
   reply 0x11 EOF []; reply 0x12 0 []].

(** A file of three bytes: the reply that brings them, two refusals, and
    the answer to [Close]. *)
Definition download : list (option bytes) :=
  [reply 0x29 0 [4]; read_ok [1; 2; 3]; reply 0x21 EOF []; reply 0x21 EOF [];
   reply 0x23 0 []].

(** A directory entry named "a", and its bytes. *)
Definition an_entry : Wire.DirEntry := Wire.mkDirEntry 0 3 7 9 (Some [97]).
Definition an_entry_wire : bytes := [0; 3; 0; 0; 0; 9; 0; 0; 0; 7; 0; 0; 0; 97; 0].

(** A directory of one entry, as a server of version 1.2 lists it. *)
Definition listing_x : list (option bytes) :=
  [reply 0x17 0 [1; 1; 0; 47; 0]; reply 0x18 0 ([1; 0; 0; 0] ++ an_entry_wire);
   reply 0x12 0 []].

End Scenarios.

(** * Properties of the codec *)

(** ** Packing and unpacking *)

Module StructFacts.
Import Struct.

Lemma le_bytes_length n v : length (le_bytes n v) = n.
Proof. revert v; induction n; intros; simpl; auto. Qed.

Lemma le_value_le_bytes n v : le_value (le_bytes n v) = v mod 256 ^ Z.of_nat n.
Proof.
  revert v; induction n; intros v.
  - simpl. now rewrite Z.mod_1_r.
  - cbn [le_bytes le_value]. rewrite IHn.
    rewrite Nat2Z.inj_succ, Z.pow_succ_r by lia.
    rewrite Z.rem_mul_r by lia. lia.
Qed.

Lemma unpack1_pack1 c z b :
  pack1 c (Some z) = Ok b -> unpack1 c b = z /\ length b = width c.
Proof.
  unfold pack1. destruct (in_range c z) eqn:R; [|discriminate].
  intros E; injection E as <-. split; [|apply le_bytes_length].
  unfold unpack1.
  destruct c; cbn [in_range] in R; rewrite le_value_le_bytes;
    rewrite Z.mod_mod by (cbn; lia);
    apply andb_true_iff in R as [R1 R2];
    apply Z.leb_le in R1; apply Z.ltb_lt in R2.
  1-3: apply Z.mod_small; cbn; lia.
  change (256 ^ Z.of_nat (width i)) with 4294967296.
  destruct (Z.ltb_spec (z mod 4294967296) 2147483648);
    pose proof (Z.mod_pos_bound z 4294967296 ltac:(lia));
    pose proof (Z.div_mod z 4294967296 ltac:(lia)); lia.
Qed.

Lemma pack_unpack_fields fmt : forall vs bs rest,
  pack fmt vs = Ok bs ->
  unpack_fields fmt (bs ++ rest) = values vs /\ length bs = calcsize fmt.
Proof.
  induction fmt as [|c f IH]; intros [|v vs] bs rest; cbn [pack map]; try discriminate.
  - intros E; injection E as <-. now split.
  - destruct (pack1 c v) as [b|] eqn:P1; [|discriminate]. cbn [bind].
    destruct (pack f vs) as [bs'|] eqn:P2; [|discriminate]. cbn [bind].
    intros E; injection E as <-.
    destruct v as [z|]; [|discriminate P1].
    apply unpack1_pack1 in P1 as [U L].
    destruct (IH _ _ rest P2) as [IH1 IH2].
    cbn [unpack_fields calcsize values map]. rewrite <- app_assoc.
    rewrite <- L at 1 2.
    rewrite firstn_app, Nat.sub_diag, firstn_all, firstn_O, app_nil_r.
    rewrite skipn_app, Nat.sub_diag, skipn_all. cbn [skipn app].
    fold (values vs).
    rewrite U, IH1, length_app, L, IH2. now split.
Qed.

Lemma pack_length fmt vs bs : pack fmt vs = Ok bs -> length bs = calcsize fmt.
Proof. intros P. now destruct (pack_unpack_fields fmt vs bs [] P). Qed.

Lemma unpack_pack fmt vs bs rest :
  pack fmt vs = Ok bs ->
  unpack fmt (firstn (calcsize fmt) (bs ++ rest)) = Ok (values vs).
Proof.
  intros P. destruct (pack_unpack_fields fmt vs bs [] P) as [U L].
  rewrite <- L, firstn_app, Nat.sub_diag, firstn_all, firstn_O, app_nil_r.
  unfold unpack. rewrite L, Nat.eqb_refl. rewrite app_nil_r in U. now rewrite U.
Qed.

Lemma unpack_pack_exact fmt vs bs :
  pack fmt vs = Ok bs -> unpack fmt bs = Ok (values vs).
Proof.
  intros P. destruct (pack_unpack_fields fmt vs bs [] P) as [U L].
  unfold unpack. rewrite L, Nat.eqb_refl. rewrite app_nil_r in U. now rewrite U.
Qed.
End StructFacts.

(** ** UTF-8 *)

Module UTF8Facts.
Import UTF8.

Lemma Ok_inj {A} (a b : A) : Ok a = Ok b -> a = b.
Proof. congruence. Qed.

Lemma Raise_inj {A} (e e' : exn) : @Raise A e = Raise e' -> e = e'.
Proof. congruence. Qed.

Ltac divmod := Z.div_mod_to_equations; lia.

Lemma decode_cons b0 r0 :
  decode (b0 :: r0) =
    if between 0 0x7F b0 then
      s <- decode r0 ;; Ok (b0 :: s)
    else if between 0xC2 0xDF b0 then
      match r0 with
      | b1 :: r1 =>
          if cont b1 then
            s <- decode r1 ;; Ok ((b0 - 0xC0) * 64 + (b1 - 0x80) :: s)
          else Raise UnicodeDecodeError
      | _ => Raise UnicodeDecodeError
      end
    else if between 0xE0 0xEF b0 then
      match r0 with
      | b1 :: b2 :: r2 =>
          if between (if b0 =? 0xE0 then 0xA0 else 0x80)
                     (if b0 =? 0xED then 0x9F else 0xBF) b1 && cont b2 then
            s <- decode r2 ;;
            Ok ((b0 - 0xE0) * 4096 + (b1 - 0x80) * 64 + (b2 - 0x80) :: s)
          else Raise UnicodeDecodeError
      | _ => Raise UnicodeDecodeError
      end
    else if between 0xF0 0xF4 b0 then
      match r0 with
      | b1 :: b2 :: b3 :: r3 =>
          if between (if b0 =? 0xF0 then 0x90 else 0x80)
                     (if b0 =? 0xF4 then 0x8F else 0xBF) b1
             && cont b2 && cont b3 then
            s <- decode r3 ;;
            Ok ((b0 - 0xF0) * 262144 + (b1 - 0x80) * 4096
                + (b2 - 0x80) * 64 + (b3 - 0x80) :: s)
          else Raise UnicodeDecodeError
      | _ => Raise UnicodeDecodeError
      end
    else Raise UnicodeDecodeError.
Proof. reflexivity. Qed.

Lemma between_true lo hi b : lo <= b <= hi -> between lo hi b = true.
Proof. intros; unfold between; apply andb_true_iff; split; apply Z.leb_le; lia. Qed.

Lemma between_false lo hi b : b < lo \/ hi < b -> between lo hi b = false.
Proof.
  intros [?|?]; unfold between; apply andb_false_iff; [left|right];
    apply Z.leb_gt; lia.
Qed.

Ltac btw :=
  repeat first
    [ match goal with
      | |- context [between ?a ?b ?x] =>
          first [ rewrite (between_true a b x) by divmod
                | rewrite (between_false a b x) by divmod ]
      end
    | progress cbv beta iota
    | match goal with
      | |- context [Z.eqb ?a ?b] =>
          destruct (Z.eqb_spec a b); try (exfalso; divmod)
      end ].

Ltac finish :=
  cbv beta iota; cbn [andb];
  match goal with
  | |- context [decode ?r] => destruct (decode r); cbn [bind]; [|reflexivity]
  end;
  f_equal; f_equal; divmod.

Lemma decode_encode_char c b rest :
  encode_char c = Ok b ->
  decode (b ++ rest) = s <- decode rest ;; Ok (c :: s).
Proof.
  unfold encode_char.
  destruct (Z.ltb_spec c 0); [discriminate|].
  destruct (Z.ltb_spec c 0x80).
  { intros E; apply Ok_inj in E; subst b. cbn [app]. rewrite decode_cons.
    rewrite between_true by lia. reflexivity. }
  destruct (Z.ltb_spec c 0x800).
  { intros E; apply Ok_inj in E; subst b. cbn [app]. rewrite decode_cons. unfold cont.
    btw. finish. }
  destruct (Z.ltb_spec c 0x10000).
  { destruct (Z.leb_spec 0xD800 c); destruct (Z.leb_spec c 0xDFFF); cbn [andb];
      try discriminate; try (exfalso; lia).
    all: intros E; apply Ok_inj in E; subst b; cbn [app]; rewrite decode_cons; unfold cont;
      btw; finish. }
  destruct (Z.ltb_spec c 0x110000); [|discriminate].
  intros E; apply Ok_inj in E; subst b; cbn [app]; rewrite decode_cons; unfold cont;
    btw; finish.
Qed.

Lemma decode_encode s : forall e, encode s = Ok e -> decode e = Ok s.
Proof.
  induction s as [|c s IH]; intros e; cbn [encode].
  - intros E; apply Ok_inj in E; subst e. reflexivity.
  - destruct (encode_char c) as [b|] eqn:Ec; [|discriminate]. cbn [bind].
    destruct (encode s) as [bs|] eqn:Es; [|discriminate]. cbn [bind].
    intros E; apply Ok_inj in E; subst e.
    rewrite (decode_encode_char c b bs Ec), (IH bs eq_refl). reflexivity.
Qed.

Lemma encode_app a : forall b,
  encode (a ++ b) = x <- encode a ;; y <- encode b ;; Ok (x ++ y).
Proof.
  induction a as [|c a IH]; intros b; cbn [app encode bind].
  - destruct (encode b); reflexivity.
  - destruct (encode_char c); cbn [bind]; [|reflexivity].
    rewrite IH. destruct (encode a); cbn [bind]; [|reflexivity].
    destruct (encode b); cbn [bind]; [|reflexivity].
    now rewrite app_assoc.
Qed.

Lemma encode_char_legal c :
  legal_char c = true ->
  exists b, encode_char c = Ok b /\ Forall (fun x => x <> 0) b.
Proof.
  unfold legal_char, encode_char. intros L.
  assert (0 < c < 0xD800 \/ 0xE000 <= c < 0x110000) as R.
  { apply orb_true_iff in L as [L|L]; apply andb_true_iff in L as [L1 L2];
      rewrite ?Z.ltb_lt, ?Z.leb_le in *; lia. }
  clear L.
  destruct (Z.ltb_spec c 0); [lia|].
  destruct (Z.ltb_spec c 0x80).
  { eexists; split; [reflexivity|]. repeat constructor. lia. }
  destruct (Z.ltb_spec c 0x800).
  { eexists; split; [reflexivity|]. repeat constructor; divmod. }
  destruct (Z.ltb_spec c 0x10000).
  { destruct (Z.leb_spec 0xD800 c); destruct (Z.leb_spec c 0xDFFF); cbn [andb];
      try (exfalso; lia).
    all: eexists; split; [reflexivity|]; repeat constructor; divmod. }
  destruct (Z.ltb_spec c 0x110000); [|lia].
  eexists; split; [reflexivity|]; repeat constructor; divmod.
Qed.

Lemma encode_legal s :
  legal_str s = true ->
  exists e, encode s = Ok e /\ Forall (fun x => x <> 0) e.
Proof.
  induction s as [|c s IH]; cbn [legal_str forallb encode].
  - intros _. exists []. split; [reflexivity|constructor].
  - intros L. apply andb_true_iff in L as [Lc Ls].
    destruct (encode_char_legal c Lc) as (b & Eb & Fb).
    destruct (IH Ls) as (e & Ee & Fe).
    exists (b ++ e). rewrite Eb, Ee. split; [reflexivity|].
    apply Forall_app; now split.
Qed.
End UTF8Facts.

(** ** Null-terminated strings *)

Module CstrFacts.

Lemma len_app {A} (a b : list A) : len (a ++ b) = len a + len b.
Proof. unfold len. rewrite length_app. lia. Qed.

Lemma len_nonneg {A} (a : list A) : 0 <= len a.
Proof. unfold len. lia. Qed.

Lemma index0_terminator e rest :
  Forall (fun x => x <> 0) e -> index0 (e ++ 0 :: rest) = Some (length e).
Proof.
  induction 1 as [|x e Hx _ IH]; cbn [app index0 length].
  - reflexivity.
  - destruct (Z.eqb_spec x 0); [contradiction|]. now rewrite IH.
Qed.

Lemma index0_none d : Forall (fun x => x <> 0) d -> index0 d = None.
Proof.
  induction 1 as [|x e Hx _ IH]; cbn [index0]; [reflexivity|].
  destruct (Z.eqb_spec x 0); [contradiction|]. now rewrite IH.
Qed.

(** A terminated string that starts at [pos] is found, with the position
    after its terminator. *)
Lemma getCstr_at data pos pre e rest s :
  data = pre ++ e ++ 0 :: rest ->
  pos = len pre ->
  Forall (fun x => x <> 0) e ->
  UTF8.decode e = Ok s ->
  getCstr data (Some pos) = Ok (Some s, Some (len pre + len e + 1)).
Proof.
  intros -> -> Fe De. unfold getCstr, find0, slice, py_index.
  pose proof (len_nonneg pre). pose proof (len_nonneg e).
  pose proof (len_nonneg rest).
  assert (len (pre ++ e ++ 0 :: rest) = len pre + len e + 1 + len rest) as L.
  { rewrite !len_app. unfold len at 3. cbn [length]. fold (len rest).
    unfold len. lia. }
  rewrite L.
  destruct (Z.ltb_spec (len pre) 0); [lia|].
  rewrite Z.min_l by lia.
  replace (Z.to_nat (len pre)) with (length pre) by (unfold len; lia).
  rewrite skipn_app, Nat.sub_diag, skipn_all. cbn [skipn app].
  rewrite index0_terminator by assumption. fold (len e).
  destruct (Z.eqb_spec (len pre + len e) (-1)); [lia|].
  destruct (Z.ltb_spec (len pre + len e) 0); [lia|].
  rewrite Z.min_l by lia.
  replace (Z.to_nat (len pre + len e - len pre)) with (length e)
    by (unfold len; lia).
  rewrite firstn_app, Nat.sub_diag, firstn_all, firstn_O, app_nil_r.
  rewrite De. reflexivity.
Qed.
End CstrFacts.

(** ** Payloads *)

Module WireFacts.
Import Struct Wire StructFacts UTF8Facts CstrFacts.

Lemma cstr_nil : cstr [] = Ok [].
Proof. reflexivity. Qed.

Lemma cstr_cons s ss :
  legal_str s = true ->
  exists e, Forall (fun x => x <> 0) e /\ UTF8.decode e = Ok s /\
    cstr (Some s :: ss) = t <- cstr ss ;; Ok (e ++ 0 :: t).
Proof.
  intros L. destruct (encode_legal s L) as (e & Ee & Fe).
  exists e. split; [assumption|]. split; [now apply decode_encode|].
  unfold cstr. cbn [map concat fmt]. rewrite <- app_assoc.
  rewrite encode_app, Ee. cbn [bind]. rewrite encode_app.
  change (UTF8.encode NUL) with (@Ok bytes [0]). cbn [bind].
  match goal with |- context [UTF8.encode ?x] => destruct (UTF8.encode x) end;
    reflexivity.
Qed.

Ltac split_legal :=
  repeat match goal with
  | H : _ && _ = true |- _ => apply andb_true_iff in H as [? ?]
  | H : fits _ ?v = true |- _ =>
      destruct v; [cbn [fits] in H|discriminate H]
  | H : legal_string ?v = true |- _ =>
      destruct v; [cbn [legal_string] in H|discriminate H]
  end.

(** [pack] succeeds on values in range; the decoder then finds them. *)
Ltac pack_ok :=
  match goal with
  | |- context [pack ?f ?vs] =>
      let p := fresh "p" in
      let P := fresh "P" in
      destruct (pack f vs) as [p|] eqn:P;
      [ let U := fresh "U" in
        let L := fresh "L" in
        let U0 := fresh "U" in
        let UE := fresh "U" in
        pose proof (fun rest => unpack_pack _ _ _ rest P) as U;
        pose proof (unpack_pack _ _ _ [] P) as U0;
        pose proof (unpack_pack_exact _ _ _ P) as UE;
        pose proof (pack_length _ _ _ P) as L;
        rewrite app_nil_r in U0;
        cbn [calcsize width Nat.add values map] in U, U0, UE, L
      | exfalso; cbn [pack pack1 bind] in P;
        repeat match goal with
        | H : in_range _ _ = true |- _ => rewrite H in P; cbn [bind] in P
        end; discriminate P ]
  end.

Ltac one_cstr s e :=
  let Fe := fresh "Fe" in let De := fresh "De" in let Ce := fresh "Ce" in
  match goal with
  | H : legal_str s = true |- context [cstr (Some s :: ?ss)] =>
      destruct (cstr_cons s ss H) as (e & Fe & De & Ce); rewrite Ce
  end.

Ltac cstr_at pre e s :=
  erewrite (getCstr_at _ _ pre e _ s);
  [ cbn [bind]
  | repeat rewrite <- app_assoc; reflexivity
  | unfold len; rewrite ?length_app; cbn [length]; lia
  | assumption
  | assumption ].

Lemma firstn_exact {A} n (a b : list A) : length a = n -> firstn n (a ++ b) = a.
Proof. intros <-. now rewrite firstn_app, Nat.sub_diag, firstn_all, firstn_O, app_nil_r. Qed.

Lemma skipn_exact {A} n (a b : list A) : length a = n -> skipn n (a ++ b) = b.
Proof. intros <-. now rewrite skipn_app, Nat.sub_diag, skipn_all. Qed.


Lemma path_roundtrip s e rest :
  Forall (fun x => x <> 0) e -> UTF8.decode e = Ok s ->
  path_FromWire (e ++ 0 :: rest) = Ok (Some s).
Proof.
  intros Fe De. unfold path_FromWire.
  rewrite (getCstr_at _ 0 [] e rest s); auto.
Qed.

Ltac unpacked :=
  match goal with
  | U : forall rest, unpack ?f (firstn ?n (?p ++ rest)) = _
    |- context [unpack ?f (firstn ?n (?p ++ _))] => rewrite U
  | U : unpack ?f (firstn ?n ?p) = _
    |- context [unpack ?f (firstn ?n ?p)] => rewrite U
  | U : unpack ?f ?p = _ |- context [unpack ?f ?p] => rewrite U
  end.

Ltac recstr :=
  repeat match goal with
  | C : cstr ?x = _ |- context [cstr ?x] => rewrite C
  end.

Lemma pack_cons c f v vs :
  pack (c :: f) (v :: vs) = b <- pack [c] [v] ;; bs <- pack f vs ;; Ok (b ++ bs).
Proof.
  cbn [pack bind]. destruct (pack1 c v); cbn [bind]; [|reflexivity].
  now rewrite app_nil_r.
Qed.

Ltac no_payload := eexists; split; reflexivity.

Ltac one_path :=
  match goal with
  | H : legal_str ?s = true |- _ =>
      let e := fresh "e" in
      one_cstr s e; rewrite cstr_nil; cbn [bind];
      eexists; split; [reflexivity|];
      rewrite (path_roundtrip s e []) by assumption; reflexivity
  end.

Ltac packed :=
  pack_ok; cbn [bind]; eexists; split; [reflexivity|];
  unpacked; reflexivity.

Lemma command_roundtrip h c :
  Legal.command c = true ->
  RoundTrip.symmetric (Command h c) = true ->
  exists p, command_DataToWire c = Ok p /\
            command_DataFromWire (init_command c) p = Ok c.
Proof.
  intros L S.
  destruct c; cbn [Legal.command] in L; cbn [RoundTrip.symmetric] in S;
    try discriminate S; split_legal;
    cbn [command_DataToWire init_command command_DataFromWire];
    try no_payload; try one_path; try packed.
  - (* Mount *)
    pack_ok. cbn [bind].
    one_cstr s1 e1. one_cstr s0 e0. one_cstr s e. rewrite cstr_nil. cbn [bind].
    eexists; split; [reflexivity|].
    unpacked. cbn [bind tuple2].
    cstr_at p e1 s1. cstr_at (p ++ e1 ++ [0]) e0 s0.
    cstr_at ((p ++ e1 ++ [0]) ++ e0 ++ [0]) e s.
    reflexivity.
  - (* ReadDirX *)
    apply Z.eqb_eq in S; subst maxEntries.
    rewrite pack_cons. pack_ok. cbn [bind]. pack_ok. cbn [bind].
    eexists; split; [reflexivity|]. unpacked. reflexivity.
  - (* Open *)
    pack_ok. cbn [bind]. one_cstr s e. rewrite cstr_nil. cbn [bind].
    eexists; split; [reflexivity|].
    unpacked. cbn [bind tuple2]. cstr_at p e s. reflexivity.
  - (* Write *)
    destruct data as [d|]; [|discriminate]. cbn [legal_bytes] in *.
    split_legal.
    assert (in_range H (len d) = true) as Hd.
    { cbn [in_range]. apply andb_true_iff; split; [apply Z.leb_le; apply len_nonneg|assumption]. }
    pack_ok. cbn [bind]. eexists; split; [reflexivity|].
    unpacked. cbn [bind tuple2]. now rewrite skipn_exact.
  - (* Rename *)
    one_cstr s0 e0. one_cstr s e. rewrite cstr_nil. cbn [bind].
    eexists; split; [reflexivity|].
    cstr_at (@nil Z) e0 s0. cstr_at (e0 ++ [0]) e s. reflexivity.
Qed.

Ltac omitted :=
  let O := fresh "O" in
  intros O; cbn [RoundTrip.nothing_omitted] in O;
  try match goal with
  | R : (_ =? 0) = false |- _ => rewrite R in O
  end;
  cbn [orb] in O;
  repeat match goal with
  | H : _ && _ = true |- _ => apply andb_true_iff in H as [? ?]
  | H : RoundTrip.is_none ?v = true |- _ =>
      destruct v; [discriminate H|clear H]
  | H : (?z =? 0) = true |- _ => apply Z.eqb_eq in H; subst z
  end;
  try reflexivity.

Lemma response_roundtrip h reply r :
  Legal.response reply r = true ->
  RoundTrip.symmetric (Response h reply r) = true ->
  exists p r',
    response_DataToWire reply r = Ok p /\
    response_DataFromWire reply (snd (init_response r)) p = Ok r' /\
    response_DataToWire reply r' = Ok p /\
    (RoundTrip.nothing_omitted (Response h reply r) = true -> r' = r).
Proof.
  intros L S.
  destruct r; cbn [Legal.response] in L; cbn [RoundTrip.symmetric] in S;
    cbn [init_response snd response_DataToWire response_DataFromWire];
    try (do 2 eexists; repeat split; reflexivity);
    destruct (reply =? 0) eqn:R0; try discriminate S; cbn [negb orb];
    split_legal.
  - (* MountResponse, success *)
    pack_ok. cbn [bind]. pack_ok. cbn [bind].
    do 2 eexists. split; [reflexivity|].
    rewrite U, skipn_exact by assumption. cbn [bind tuple2]. unpacked.
    cbn [bind item0]. split; [reflexivity|].
    cbn [response_DataToWire]. rewrite R0, P, P0. cbn [bind].
    repeat split.
  - (* MountResponse, failure *)
    pack_ok. cbn [bind].
    do 2 eexists. split; [reflexivity|].
    unpacked. cbn [bind tuple2]. split; [reflexivity|].
    cbn [response_DataToWire]. rewrite R0, P. cbn [bind].
    split; [reflexivity|omitted].
  - (* OpenDirResponse, success *)
    pack_ok. do 2 eexists. split; [reflexivity|].
    unpacked. cbn [bind item0]. split; [reflexivity|].
    cbn [response_DataToWire]. rewrite R0, P. repeat split.
  - do 2 eexists. repeat split; try reflexivity.
    + cbn [response_DataToWire]. now rewrite R0.
    + omitted.
  - (* ReadDirResponse, success *)
    one_cstr s e. rewrite cstr_nil. cbn [bind].
    do 2 eexists. split; [reflexivity|].
    rewrite (path_roundtrip s e []) by assumption. cbn [bind].
    split; [reflexivity|].
    cbn [response_DataToWire]. rewrite R0.
    recstr. rewrite cstr_nil. repeat split.
  - do 2 eexists. repeat split; try reflexivity.
    + cbn [response_DataToWire]. now rewrite R0.
    + omitted.
  - (* OpenDirXResponse, failure *)
    do 2 eexists. split; [reflexivity|].
    change (len [] <? 3) with true. cbv iota. split; [reflexivity|].
    cbn [response_DataToWire]. rewrite R0. split; [reflexivity|omitted].
  - (* ReadDirXResponse, failure *)
    do 2 eexists. repeat split; try reflexivity.
    + cbn [response_DataToWire]. now rewrite R0.
    + omitted.
  - (* OpenResponse, success *)
    pack_ok. do 2 eexists. split; [reflexivity|].
    unpacked. cbn [bind item0]. split; [reflexivity|].
    cbn [response_DataToWire]. rewrite R0, P. repeat split.
  - do 2 eexists. repeat split; try reflexivity.
    + cbn [response_DataToWire]. now rewrite R0.
    + omitted.
  - (* ReadResponse, success *)
    pack_ok. do 2 eexists. split; [reflexivity|].
    unpacked. cbn [bind item0]. split; [reflexivity|].
    cbn [response_DataToWire]. rewrite R0, P. split; [reflexivity|].
    intros O. cbn [RoundTrip.nothing_omitted] in O. rewrite R0 in O.
    destruct data as [[|]|]; try discriminate O.
    rewrite <- L0, skipn_all. reflexivity.
  - do 2 eexists. repeat split; try reflexivity.
    + cbn [response_DataToWire]. now rewrite R0.
    + intros O. cbn [RoundTrip.nothing_omitted] in O. rewrite R0 in O.
      apply andb_true_iff in O as [O1 O2].
      destruct size; [discriminate|]. destruct data; [discriminate|]. reflexivity.
  - (* WriteResponse, success *)
    pack_ok. do 2 eexists. split; [reflexivity|].
    unpacked. cbn [bind item0]. split; [reflexivity|].
    cbn [response_DataToWire]. rewrite R0, P. repeat split.
  - do 2 eexists. repeat split; try reflexivity.
    + cbn [response_DataToWire]. now rewrite R0.
    + omitted.
  - (* StatResponse, success *)
    pack_ok. cbn [bind]. one_cstr s0 e0. one_cstr s e. rewrite cstr_nil.
    cbn [bind]. do 2 eexists. split; [reflexivity|].
    unpacked. cbn [bind tuple7].
    replace (22 <? len (p ++ e0 ++ 0 :: e ++ [0])) with true
      by (symmetry; apply Z.ltb_lt; unfold len; rewrite !length_app;
          cbn [length]; lia).
    cstr_at p e0 s0. cstr_at (p ++ e0 ++ [0]) e s.
    split; [reflexivity|].
    cbn [response_DataToWire]. rewrite P. cbn [bind].
    recstr. rewrite cstr_nil. repeat split.
  - (* SizeResponse *)
    pack_ok. do 2 eexists. split; [reflexivity|].
    unpacked. cbn [bind item0]. split; [reflexivity|].
    cbn [response_DataToWire]. rewrite P. repeat split.
  - (* FreeResponse *)
    pack_ok. do 2 eexists. split; [reflexivity|].
    unpacked. cbn [bind item0]. split; [reflexivity|].
    cbn [response_DataToWire]. rewrite P. repeat split.
Qed.
End WireFacts.

(** ** Whole messages *)

Module RoundTripFacts.
Import Struct Wire StructFacts UTF8Facts CstrFacts WireFacts.

Lemma TnfsCmd_init_command c :
  TnfsCmd_command (init_command c) = TnfsCmd_command c.
Proof. destruct c; reflexivity. Qed.

Lemma TnfsCmd_init_response r :
  TnfsCmd_response (snd (init_response r)) = TnfsCmd_response r.
Proof. destruct r; reflexivity. Qed.

(** Decoding a command: the header is read, the payload goes to the
    class. *)
Lemma fromWire_command h0 c0 cid retry hd p :
  pack [H; B; B] [Some cid; Some retry; Some (TnfsCmd_command c0)] = Ok hd ->
  fromWire (Command h0 c0) (hd ++ p) =
    c' <- command_DataFromWire c0 p ;;
    Ok (Command
          (mkHeader (conn_id (hdr (setSession (Command h0 c0) (Some cid))))
             retry (command h0)) c').
Proof.
  intros P. unfold fromWire.
  pose proof (unpack_pack _ _ _ p P) as U.
  cbn [calcsize width Nat.add] in U. rewrite U. cbn [values map bind tuple3].
  cbn [TnfsCmd]. rewrite Z.eqb_refl. cbn [negb].
  rewrite (skipn_exact 4) by (apply (pack_length _ _ _ P)).
  destruct c0; cbn [setSession setRetry hdr with_hdr do_ExtraFromWire bind
                    Nat.add do_DataFromWire conn_id Wire.retry command];
    rewrite (skipn_exact 4) by (apply (pack_length _ _ _ P)); reflexivity.
Qed.

Lemma fromWire_response h0 reply0 r0 cid retry reply hd ex p :
  pack [H; B; B] [Some cid; Some retry; Some (TnfsCmd_response r0)] = Ok hd ->
  pack [B] [Some reply] = Ok ex ->
  fromWire (Response h0 reply0 r0) (hd ++ ex ++ p) =
    r' <- response_DataFromWire reply r0 p ;;
    Ok (Response (mkHeader (Some cid) retry (command h0)) reply r').
Proof.
  intros P E. unfold fromWire.
  pose proof (unpack_pack _ _ _ (ex ++ p) P) as U.
  cbn [calcsize width Nat.add] in U. rewrite U. cbn [values map bind tuple3].
  cbn [TnfsCmd]. rewrite Z.eqb_refl. cbn [negb].
  rewrite (skipn_exact 4) by (apply (pack_length _ _ _ P)).
  cbn [setSession setRetry hdr with_hdr do_ExtraFromWire].
  pose proof (unpack_pack _ _ _ p E) as U'.
  cbn [calcsize width Nat.add] in U'. rewrite U'. cbn [values map bind item0 setReply].
  rewrite app_assoc.
  rewrite (skipn_exact (4 + 1)).
  2:{ rewrite length_app, (pack_length _ _ _ P), (pack_length _ _ _ E). reflexivity. }
  reflexivity.
Qed.

Lemma TnfsCmd_command_byte c : in_range B (TnfsCmd_command c) = true.
Proof. destruct c; reflexivity. Qed.

Lemma TnfsCmd_response_byte r : in_range B (TnfsCmd_response r) = true.
Proof. destruct r; reflexivity. Qed.

Lemma fresh_response_shape h reply r :
  exists reply0,
    fresh (Response h reply r) =
    Response (mkHeader None 0 (TnfsCmd_response r)) reply0 (snd (init_response r)).
Proof. destruct r; eexists; reflexivity. Qed.

Lemma new_command_shape c0 :
  exists h0, new_command c0 = Command h0 c0 /\ command h0 = TnfsCmd_command c0.
Proof. destruct c0; eexists; split; reflexivity. Qed.

Lemma legal_command_header cid retry cmd c :
  Legal.header (Command (mkHeader cid retry cmd) c) = true ->
  exists cv, cid = Some cv /\ in_range H cv = true /\ in_range B retry = true /\
    cmd = TnfsCmd_command c /\
    forall h0, conn_id (hdr (setSession (Command h0 (init_command c)) (Some cv)))
               = Some cv.
Proof.
  unfold Legal.header. cbn [hdr conn_id Wire.retry command TnfsCmd].
  intros L. apply andb_true_iff in L as [L L3]. apply andb_true_iff in L as [L1 L2].
  apply Z.eqb_eq in L3.
  destruct c; cbn [init_command setSession hdr with_hdr conn_id];
    (destruct cid as [cv|]; [|discriminate L1]); exists cv;
    cbn [fits] in L1; repeat split; auto.
  all: apply Z.eqb_eq in L1; subst cv; reflexivity.
Qed.

Lemma legal_response_header cid retry cmd reply r :
  Legal.header (Response (mkHeader cid retry cmd) reply r) = true ->
  exists cv, cid = Some cv /\ in_range H cv = true /\ in_range B retry = true /\
    cmd = TnfsCmd_response r.
Proof.
  unfold Legal.header. cbn [hdr conn_id Wire.retry command TnfsCmd].
  intros L. apply andb_true_iff in L as [L L3]. apply andb_true_iff in L as [L1 L2].
  apply Z.eqb_eq in L3.
  destruct cid as [cv|]; [|discriminate L1]. exists cv. auto.
Qed.

(** X24.  For every message of a variant whose [toWire] and
    [fromWire] mirror each other ([RoundTrip.symmetric]) and every legal
    assignment of its attributes: encoding succeeds, decoding the bytes
    into a new object of the class succeeds, encoding the decoded object
    gives the same bytes again, and the decoded object equals the original
    one whenever the attributes that the encoding leaves out hold what
    decoding gives them. *)
Theorem roundtrip_symmetric m :
  Legal.message m = true -> RoundTrip.symmetric m = true -> RoundTrip.holds m.
Proof.
  intros L S. destruct m as [[cid retry cmd] c|[cid retry cmd] reply r];
    unfold Legal.message in L; apply andb_true_iff in L as [Lh Lb].
  - destruct (legal_command_header _ _ _ _ Lh) as (cv & -> & Hc & Hr & -> & Hs).
    destruct (command_roundtrip _ c Lb S) as (p & Ep & Dp).
    assert (exists hd, pack [H; B; B]
              [Some cv; Some retry; Some (TnfsCmd_command c)] = Ok hd) as [hd Phd].
    { pose proof (TnfsCmd_command_byte c). pack_ok. eauto. }
    assert (toWire (Command (mkHeader (Some cv) retry (TnfsCmd_command c)) c)
            = Ok (hd ++ [] ++ p)) as Ew.
    { unfold toWire. cbn [hdr conn_id Wire.retry command do_ExtraToWire do_DataToWire].
      rewrite Phd, Ep. reflexivity. }
    exists (hd ++ [] ++ p), (Command (mkHeader (Some cv) retry (TnfsCmd_command c)) c).
    split; [exact Ew|]. split; [|split; [exact Ew|reflexivity]].
    cbn [fresh app]. destruct (new_command_shape (init_command c)) as (h0 & -> & Hcmd).
    rewrite <- TnfsCmd_init_command in Phd.
    rewrite (fromWire_command _ _ _ _ _ _ Phd), Dp. cbn [bind].
    rewrite Hs, Hcmd, TnfsCmd_init_command. reflexivity.
  - apply andb_true_iff in Lb as [Lr Lb].
    destruct (legal_response_header _ _ _ _ _ Lh) as (cv & -> & Hc & Hr & ->).
    destruct (response_roundtrip (mkHeader (Some cv) retry (TnfsCmd_response r))
                reply r Lb S) as (p & r' & Ep & Dp & Rp & Vp).
    assert (exists hd, pack [H; B; B]
              [Some cv; Some retry; Some (TnfsCmd_response r)] = Ok hd) as [hd Phd].
    { pose proof (TnfsCmd_response_byte r). pack_ok. eauto. }
    assert (exists ex, pack [B] [Some reply] = Ok ex) as [ex Pex].
    { pack_ok. eauto. }
    exists (hd ++ ex ++ p),
      (Response (mkHeader (Some cv) retry (TnfsCmd_response r)) reply r').
    split.
    { unfold toWire. cbn [hdr conn_id Wire.retry command do_ExtraToWire do_DataToWire].
      rewrite Phd, Pex, Ep. reflexivity. }
    split.
    { destruct (fresh_response_shape (mkHeader (Some cv) retry (TnfsCmd_response r))
                  reply r) as [reply0 ->].
      assert (pack [H; B; B]
                [Some cv; Some retry;
                 Some (TnfsCmd_response (snd (init_response r)))] = Ok hd) as Phd'
        by now rewrite TnfsCmd_init_response.
      rewrite (fromWire_response _ _ _ _ _ _ _ _ _ Phd' Pex), Dp. reflexivity. }
    split.
    { unfold toWire. cbn [hdr conn_id Wire.retry command do_ExtraToWire do_DataToWire].
      rewrite Phd, Pex, Rp. reflexivity. }
    intros O. now rewrite (Vp O).
Qed.
End RoundTripFacts.

(** ** Status gating and missing terminators *)

Module GatingFacts.
Import Struct Wire CstrFacts.

Lemma py_index_bounds n d k : 0 <= n -> 0 <= d <= n -> 0 <= py_index n d k <= n.
Proof. intros; unfold py_index; destruct k as [p|]; [destruct (Z.ltb_spec p 0)|]; lia. Qed.

(** C8 (amended).  When [data] has no zero byte from [pos] on, that is in
    [data[pos:]], [getCstr] does not raise: it returns the pair
    [(None, None)]. *)
Theorem getCstr_without_terminator data pos :
  Forall (fun b => b <> 0) (slice data pos None) ->
  getCstr data pos = Ok (None, None).
Proof.
  unfold slice, getCstr, find0. cbn [py_index].
  pose proof (len_nonneg data) as Hn.
  pose proof (py_index_bounds (len data) 0 pos Hn ltac:(lia)) as Hb.
  set (l := py_index (len data) 0 pos) in *.
  rewrite firstn_all2.
  2:{ rewrite length_skipn. unfold len in *. lia. }
  intros F. now rewrite (index0_none _ F).
Qed.

Lemma getCstr_without_terminator_witness :
  getCstr [65; 66; 0; 67] (Some 3) = Ok (None, None).
Proof.
  apply getCstr_without_terminator. vm_compute. repeat constructor; discriminate.
Defined.

Lemma getCstr_no_MalformedField :
  getCstr [65; 66] (Some 0) = Ok (None, None) /\
  ~ (exists e, getCstr [65; 66] (Some 0) = Raise e).
Proof. split; [reflexivity|]. intros [e E]. discriminate E. Qed.

Lemma status_nonzero status : status <> 0 -> (status + 256 * 0 =? 0) = false.
Proof. intros; apply Z.eqb_neq; lia. Qed.

(** C2 (amended).  Take a datagram made of a header with the opcode of
    the response class, a nonzero status byte, and any payload.  For every
    response variant other than [MountResponse], [fromWire] succeeds and
    its result does not depend on the payload: the datagram of header and
    status alone decodes to the same object.  [MountResponse] reads the two
    version bytes that follow the status, whatever the status: its result
    depends on no byte after them, and decoding succeeds exactly when they
    are there. *)
Theorem failure_response_needs_no_payload h reply0 r c0 c1 q status payload :
  status <> 0 ->
  (is_MountResponse r = false ->
   exists self',
     fromWire (Response h reply0 r)
       ([c0; c1; q; TnfsCmd_response r; status] ++ payload) = Ok self' /\
     fromWire (Response h reply0 r)
       [c0; c1; q; TnfsCmd_response r; status] = Ok self') /\
  (is_MountResponse r = true ->
   fromWire (Response h reply0 r)
     ([c0; c1; q; TnfsCmd_response r; status] ++ payload) =
   fromWire (Response h reply0 r)
     ([c0; c1; q; TnfsCmd_response r; status] ++ firstn 2 payload) /\
   ((exists self', fromWire (Response h reply0 r)
       ([c0; c1; q; TnfsCmd_response r; status] ++ payload) = Ok self')
    <-> (2 <= length payload)%nat)).
Proof.
  intros Hs. pose proof (status_nonzero status Hs) as Hz.
  split; intros Hm.
  - destruct r; try discriminate Hm;
      unfold fromWire;
      cbn [app firstn skipn unpack length calcsize width Nat.add Nat.eqb
           unpack_fields unpack1 le_value bind tuple3 TnfsCmd TnfsCmd_response];
      rewrite Z.add_0_r, Z.mul_0_r, Z.add_0_r, Z.eqb_refl;
      cbn [negb setSession setRetry hdr with_hdr do_ExtraFromWire firstn skipn
           unpack length calcsize width Nat.add Nat.eqb unpack_fields unpack1
           le_value bind item0 setReply do_DataFromWire response_DataFromWire];
      rewrite ?Hz; cbn [negb bind]; try (eexists; split; reflexivity).
    (* OpenDirXResponse *)
    change (len [] <? 3) with true. cbv iota.
    destruct payload as [|a [|b [|c t]]];
      try (eexists; split; reflexivity).
    replace (len (a :: b :: c :: t) <? 3) with false
      by (symmetry; apply Z.ltb_ge; unfold len; cbn [length]; lia).
    cbn [firstn unpack length calcsize width Nat.add Nat.eqb bind unpack_fields
         skipn tuple2].
    eexists; split; reflexivity.
  - destruct r; try discriminate Hm.
    unfold fromWire;
      cbn [app firstn skipn unpack length calcsize width Nat.add Nat.eqb
           unpack_fields unpack1 le_value bind tuple3 TnfsCmd TnfsCmd_response].
    rewrite Z.add_0_r, Z.mul_0_r, Z.add_0_r. cbn [Z.eqb negb].
    cbn [negb setSession setRetry hdr with_hdr do_ExtraFromWire firstn skipn
           unpack length calcsize width Nat.add Nat.eqb unpack_fields unpack1
           le_value bind item0 setReply do_DataFromWire response_DataFromWire].
    rewrite Hz.
    destruct payload as [|a [|b t]];
      cbn [firstn unpack length calcsize width Nat.add Nat.eqb bind unpack_fields
         skipn tuple2 unpack1 le_value].
    + split; [reflexivity|]. split; [intros [? E]; discriminate E|cbn [length]; lia].
    + split; [reflexivity|]. split; [intros [? E]; discriminate E|cbn [length]; lia].
    + split; [reflexivity|]. split; [cbn [length]; lia|eauto].
Qed.
End GatingFacts.

(** * Properties of the session engine *)

(** ** Exchanges and the transfer loops *)

Module SessionFacts.
Import Struct Wire Session Engine.

Lemma SendReceive_raises message self e :
  toWire (stamp self message) = Raise e ->
  _SendReceive message self = (Raise e, self).
Proof. intros E. unfold _SendReceive, bindM, lift. now rewrite E. Qed.

Lemma SendReceive_timeout message self w :
  toWire (stamp self message) = Ok w ->
  timed_out self = true ->
  _SendReceive message self = (Raise TimeoutError, unanswered self w).
Proof.
  intros E T. unfold _SendReceive, bindM, lift, sendto, recvfrom, unanswered.
  rewrite E. cbn [sock incoming sent session sequence version].
  unfold timed_out in T. destruct (incoming (sock self)) as [|[d|] rest];
    try discriminate T; reflexivity.
Qed.

Lemma SendReceive_ok message self w d rest :
  toWire (stamp self message) = Ok w ->
  incoming (sock self) = Some d :: rest ->
  _SendReceive message self = (Ok (firstn 1024 d), exchanged self w rest).
Proof.
  intros E I. unfold _SendReceive, bindM, lift, sendto, recvfrom, next_sequence,
    ret, exchanged.
  rewrite E. cbn [sock incoming sent session sequence version]. rewrite I.
  reflexivity.
Qed.

Lemma exchange_raises cmd reply0 rsp self e :
  toWire (stamp self (new_command cmd)) = Raise e ->
  exchange cmd reply0 rsp self = (Raise e, self).
Proof. intros E. unfold exchange, bindM. now rewrite (SendReceive_raises _ _ _ E). Qed.

Lemma exchange_timeout cmd reply0 rsp self w :
  toWire (stamp self (new_command cmd)) = Ok w ->
  timed_out self = true ->
  exchange cmd reply0 rsp self = (Raise TimeoutError, unanswered self w).
Proof.
  intros E T. unfold exchange, bindM. now rewrite (SendReceive_timeout _ _ _ E T).
Qed.

Lemma exchange_ok cmd reply0 rsp self w d rest :
  toWire (stamp self (new_command cmd)) = Ok w ->
  incoming (sock self) = Some d :: rest ->
  exchange cmd reply0 rsp self =
    (fromWire (new_response reply0 rsp) (firstn 1024 d), exchanged self w rest).
Proof.
  intros E I. unfold exchange, bindM. rewrite (SendReceive_ok _ _ _ _ _ E I).
  reflexivity.
Qed.

(** C10.  For every [fd] and every session object, [Read] with size 0 and
    [Write] with an empty byte string skip their loops, leave the object as
    it is, and raise [UnboundLocalError] on the local variable [r] that no
    turn of the loop has bound; no (status, result) pair is returned. *)
Theorem zero_length_transfer_unbound fd self :
  Read fd 0 self = (Raise UnboundLocalError, self) /\
  Write fd [] self = (Raise UnboundLocalError, self).
Proof. split; reflexivity. Qed.

Lemma firstn_1024 (a b c d e : Z) t :
  firstn 1024 (a :: b :: c :: d :: e :: t) = a :: b :: c :: d :: e :: firstn 1019 t.
Proof. reflexivity. Qed.

Lemma fromWire_ReadResponse_failure c0 c1 q status payload :
  status <> 0 ->
  fromWire (new_response 0 (ReadResponse None None))
    (c0 :: c1 :: q :: 0x21 :: status :: payload) =
  Ok (Response (mkHeader (Some (le_value [c0; c1])) (le_value [q]) 0x21)
        (le_value [status]) (ReadResponse None None)).
Proof.
  intros Hs. unfold fromWire, new_response.
  cbn [app firstn skipn unpack length calcsize width Nat.add Nat.eqb
       unpack_fields unpack1 bind tuple3 TnfsCmd TnfsCmd_response].
  replace (le_value [0x21] =? 0x21) with true by reflexivity.
  cbn [negb Wire.setSession setRetry hdr with_hdr do_ExtraFromWire firstn skipn
       unpack length calcsize width Nat.add Nat.eqb unpack_fields unpack1
       bind item0 setReply do_DataFromWire response_DataFromWire
       conn_id retry command].
  replace (le_value [status] =? 0) with false
    by (symmetry; apply Z.eqb_neq; cbn [le_value]; lia).
  reflexivity.
Qed.

Lemma fromWire_ReadResponse_success c0 c1 q s0 s1 d :
  fromWire (new_response 0 (ReadResponse None None))
    (c0 :: c1 :: q :: 0x21 :: 0 :: s0 :: s1 :: d) =
  Ok (Response (mkHeader (Some (le_value [c0; c1])) (le_value [q]) 0x21) 0
        (ReadResponse (Some (le_value [s0; s1])) (Some d))).
Proof. reflexivity. Qed.

(** C3 (amended).  One turn of the loop of [Session.Read], entered with
    [size] positive, a request [w] that can be encoded, and a reply that
    carries the opcode of [Read].
    - A reply with a nonzero status ends the loop with the bytes
      accumulated so far.
    - A reply with status 0 and data [d] does not end it: the loop goes on
      with [size - len d] and [d] appended.
    - In particular a reply with status 0 and no data goes on with the same
      [size] and the same accumulated bytes, so the same request is sent
      again.
    - When the loop has ended, [Read] returns status 0 with the accumulated
      bytes if there are any, and otherwise the status of the last reply
      with no data. *)
Theorem Read_loop_reply fuel fd size data_received r self w rest
  (Hsize : 0 < size)
  (Hw : toWire (stamp self (new_command
          (Wire.Read fd (Some (if size <=? 512 then size else 512))))) = Ok w) :
  (forall c0 c1 q status payload,
     status <> 0 ->
     incoming (sock self) =
       Some (c0 :: c1 :: q :: 0x21 :: status :: payload) :: rest ->
     exists r',
       reply_of r' = status /\
       Read_loop (S fuel) fd size data_received r self =
         (Ok (data_received, Some r'), exchanged self w rest)) /\
  (forall c0 c1 q s0 s1 d,
     (length d <= 1017)%nat ->
     incoming (sock self) =
       Some (c0 :: c1 :: q :: 0x21 :: 0 :: s0 :: s1 :: d) :: rest ->
     exists r',
       reply_of r' = 0 /\
       Read_loop (S fuel) fd size data_received r self =
         Read_loop fuel fd (size - len d) (data_received ++ d) (Some r')
           (exchanged self w rest)) /\
  (forall c0 c1 q s0 s1,
     incoming (sock self) = Some [c0; c1; q; 0x21; 0; s0; s1] :: rest ->
     exists r',
       reply_of r' = 0 /\
       Read_loop (S fuel) fd size data_received r self =
         Read_loop fuel fd size data_received (Some r') (exchanged self w rest)) /\
  (forall acc r' self',
     Read_loop (turns self) fd size [] None self = (Ok (acc, Some r'), self') ->
     Read fd size self =
       (if 0 <? len acc then Ok (0, Some acc) else Ok (reply_of r', None), self')).
Proof.
  assert (forall c0 c1 q s0 s1 d,
     (length d <= 1017)%nat ->
     incoming (sock self) =
       Some (c0 :: c1 :: q :: 0x21 :: 0 :: s0 :: s1 :: d) :: rest ->
     exists r',
       reply_of r' = 0 /\
       Read_loop (S fuel) fd size data_received r self =
         Read_loop fuel fd (size - len d) (data_received ++ d) (Some r')
           (exchanged self w rest)) as Hok.
  { intros c0 c1 q s0 s1 d Hd Hi. cbn [Read_loop].
    apply Z.ltb_lt in Hsize. rewrite Hsize. unfold bindM at 1.
    rewrite (exchange_ok _ _ _ _ _ _ _ Hw Hi).
    change (firstn 1024 (c0 :: c1 :: q :: 33 :: 0 :: s0 :: s1 :: d))
      with (c0 :: c1 :: q :: 33 :: 0 :: s0 :: s1 :: firstn 1017 d).
    rewrite firstn_all2 by assumption.
    rewrite fromWire_ReadResponse_success. cbn [lift Z.eqb].
    eexists. split; [|reflexivity]. reflexivity. }
  split; [|split; [|split]].
  - intros c0 c1 q status payload Hs Hi. cbn [Read_loop].
    apply Z.ltb_lt in Hsize. rewrite Hsize. unfold bindM at 1.
    rewrite (exchange_ok _ _ _ _ _ _ _ Hw Hi), firstn_1024.
    rewrite (fromWire_ReadResponse_failure _ _ _ _ _ Hs).
    replace (le_value [status] =? 0) with false
      by (symmetry; apply Z.eqb_neq; cbn [le_value]; lia).
    eexists. split; [|reflexivity]. cbn [reply_of le_value]. lia.
  - exact Hok.
  - intros c0 c1 q s0 s1 Hi.
    destruct (Hok c0 c1 q s0 s1 [] ltac:(cbn; lia) Hi) as (r' & Hr & E).
    exists r'. split; [exact Hr|]. rewrite E.
    now rewrite app_nil_r, Z.sub_0_r.
  - intros acc r' self' E. unfold Read, bindM. rewrite E.
    destruct (0 <? len acc); reflexivity.
Qed.

Lemma slice_firstn data n :
  0 <= n -> slice data (Some 0) (Some n) = firstn (Z.to_nat n) data.
Proof.
  intros Hn. unfold slice, py_index. cbn [Z.ltb Z.compare].
  destruct (Z.ltb_spec n 0); [lia|].
  pose proof (Zle_0_nat (length data)). fold (len data) in *.
  rewrite (Z.min_l 0) by lia. cbn [Z.to_nat skipn]. rewrite Z.sub_0_r.
  destruct (Z.le_ge_cases n (len data)).
  - now rewrite Z.min_l.
  - rewrite Z.min_r by lia. unfold len in *. rewrite Nat2Z.id.
    rewrite !firstn_all2; auto; lia.
Qed.

Lemma slice_skipn data lo hi :
  0 <= lo -> len data <= hi -> slice data (Some lo) (Some hi) = skipn (Z.to_nat lo) data.
Proof.
  intros Hlo Hhi. unfold slice, py_index.
  pose proof (Zle_0_nat (length data)). fold (len data) in *.
  destruct (Z.ltb_spec lo 0); [lia|]. destruct (Z.ltb_spec hi 0); [lia|].
  rewrite (Z.min_r hi) by lia.
  destruct (Z.le_ge_cases lo (len data)).
  - rewrite Z.min_l by lia. apply firstn_all2. rewrite length_skipn.
    unfold len in *. lia.
  - rewrite Z.min_r by lia. rewrite Z.sub_diag. cbn [Z.to_nat firstn].
    symmetry. apply skipn_all2. unfold len in *. lia.
Qed.

Lemma fromWire_WriteResponse c0 c1 q n0 n1 :
  fromWire (new_response 0 (WriteResponse None)) [c0; c1; q; 0x22; 0; n0; n1] =
  Ok (Response (mkHeader (Some (le_value [c0; c1])) (le_value [q]) 0x22) 0
        (WriteResponse (Some (le_value [n0; n1])))).
Proof. reflexivity. Qed.

Lemma Write_loop_step fuel fd data_to_send written r self w c0 c1 q n0 n1 rest :
  written < len data_to_send ->
  toWire (stamp self (new_command
      (Wire.Write fd
         (Some (slice data_to_send (Some written) (Some (written + 512))))))) = Ok w ->
  incoming (sock self) = Some [c0; c1; q; 0x22; 0; n0; n1] :: rest ->
  exists r',
    reply_of r' = 0 /\
    Write_loop (S fuel) fd data_to_send written r self =
      Write_loop fuel fd data_to_send (written + le_value [n0; n1]) (Some r')
        (exchanged self w rest).
Proof.
  intros Hlt Hw Hi. cbn [Write_loop].
  apply Z.ltb_lt in Hlt. rewrite Hlt. unfold bindM at 1.
  rewrite (exchange_ok _ _ _ _ _ _ _ Hw Hi).
  change (firstn 1024 [c0; c1; q; 34; 0; n0; n1]) with [c0; c1; q; 34; 0; n0; n1].
  rewrite fromWire_WriteResponse. cbn [lift Z.eqb negb].
  eexists. split; [|reflexivity]. reflexivity.
Qed.

Lemma Write_loop_done fuel fd data_to_send written r self :
  len data_to_send <= written ->
  Write_loop fuel fd data_to_send written r self = (Ok (written, r), self).
Proof.
  intros H. apply Z.ltb_ge in H. destruct fuel; cbn [Write_loop]; now rewrite H.
Qed.

(** C9.  For a session whose [Write] requests can be encoded (it is
    mounted, and [fd] is a byte) and replies that acknowledge what was
    sent:
    - on a buffer of 1024 bytes [Write] performs exactly two exchanges, the
      first with the first 512 bytes and the second with the other 512,
      and returns status 0 and 1024 bytes written;
    - on a buffer of one byte it performs exactly one exchange, with that
      byte, and returns status 0 and 1 byte written;
    - in general, after a reply with status 0 the loop goes on with the
      cursor [written] advanced by the byte count that the reply
      acknowledges. *)
Theorem Write_chunks fd self data b w1 w2 w x0 x1 x2 y0 y1 y2 n0 n1
  (rest : list (option bytes))
  (Hdata : length data = 1024%nat)
  (Hw1 : toWire (stamp self (new_command
           (Wire.Write fd (Some (firstn 512 data))))) = Ok w1)
  (Hw2 : toWire (stamp (exchanged self w1 (Some [y0; y1; y2; 0x22; 0; 0; 2] :: rest))
           (new_command (Wire.Write fd (Some (skipn 512 data))))) = Ok w2)
  (Hw : toWire (stamp self (new_command (Wire.Write fd (Some [b])))) = Ok w) :
  (incoming (sock self) =
     Some [x0; x1; x2; 0x22; 0; 0; 2] :: Some [y0; y1; y2; 0x22; 0; 0; 2] :: rest ->
   Write fd data self =
     (Ok (0, 1024),
      exchanged (exchanged self w1 (Some [y0; y1; y2; 0x22; 0; 0; 2] :: rest)) w2 rest)
   /\ len (firstn 512 data) = 512 /\ len (skipn 512 data) = 512) /\
  (incoming (sock self) = Some [x0; x1; x2; 0x22; 0; 1; 0] :: rest ->
   Write fd [b] self = (Ok (0, 1), exchanged self w rest)) /\
  (forall fuel data_to_send written r w',
     written < len data_to_send ->
     toWire (stamp self (new_command
       (Wire.Write fd
          (Some (slice data_to_send (Some written) (Some (written + 512))))))) = Ok w' ->
     incoming (sock self) = Some [x0; x1; x2; 0x22; 0; n0; n1] :: rest ->
     exists r',
       Write_loop (S fuel) fd data_to_send written r self =
         Write_loop fuel fd data_to_send (written + le_value [n0; n1]) (Some r')
           (exchanged self w' rest)).
Proof.
  split; [|split].
  - intros Hi. split.
    + unfold Write, bindM, turns. rewrite Hi. cbn [length].
      assert (len data = 1024) as Hl by (unfold len; rewrite Hdata; reflexivity).
      destruct (Write_loop_step (S (S (length rest))) fd data 0 None self w1
                  x0 x1 x2 0 2 (Some [y0; y1; y2; 0x22; 0; 0; 2] :: rest))
        as (r1 & _ & E1); [lia| |exact Hi|].
      { rewrite slice_firstn by lia. exact Hw1. }
      rewrite E1. change (0 + le_value [0; 2]) with 512.
      destruct (Write_loop_step (S (length rest)) fd data 512 (Some r1)
                  (exchanged self w1 (Some [y0; y1; y2; 0x22; 0; 0; 2] :: rest)) w2
                  y0 y1 y2 0 2 rest)
        as (r2 & Hr2 & E2); [lia| |reflexivity|].
      { rewrite slice_skipn by lia. exact Hw2. }
      rewrite E2. change (512 + le_value [0; 2]) with 1024.
      rewrite Write_loop_done by lia. cbn [ret]. now rewrite Hr2.
    + unfold len. rewrite length_firstn, length_skipn, Hdata. split; reflexivity.
  - intros Hi. unfold Write, bindM, turns. rewrite Hi. cbn [length].
    destruct (Write_loop_step (S (length rest)) fd [b] 0 None self w
                x0 x1 x2 1 0 rest) as (r1 & Hr1 & E1);
      [reflexivity|exact Hw|exact Hi|].
    rewrite E1. change (0 + le_value [1; 0]) with 1.
    rewrite Write_loop_done by (cbn; lia). cbn [ret]. now rewrite Hr1.
  - intros fuel data_to_send written r w' Hlt Hw' Hi.
    destruct (Write_loop_step fuel fd data_to_send written r self w'
                x0 x1 x2 n0 n1 rest Hlt Hw' Hi) as (r' & _ & E).
    eauto.
Qed.
End SessionFacts.

(** ** The codec never exits *)

Module SafeFacts.
Import Struct Wire.

Lemma only_Ok {A} (a : A) : codec_only (Ok a).
Proof. intros e E; discriminate E. Qed.

Lemma only_Raise {A} e : codec_exn e = true -> codec_only (@Raise A e).
Proof. intros H e' E. apply UTF8Facts.Raise_inj in E. now subst e'. Qed.

Lemma only_bind {A B} (r : result A) (k : A -> result B) :
  codec_only r -> (forall a, codec_only (k a)) -> codec_only (bind r k).
Proof.
  intros Hr Hk. destruct r as [a|e]; cbn [bind]; [apply Hk|].
  intros e' E. apply (Hr e'). apply UTF8Facts.Raise_inj in E. now subst e'.
Qed.

Create HintDb codec.

Ltac only_step :=
  match goal with
  | |- codec_only (bind _ _) => apply only_bind; [|intros ?]
  | |- codec_only (Ok _) => apply only_Ok
  | |- codec_only (Raise _) => apply only_Raise; reflexivity
  | |- codec_only (if ?b then _ else _) => destruct b
  | |- codec_only (match ?x with _ => _ end) => destruct x
  | |- codec_only _ => solve [auto with codec]
  end.

Ltac only_tac := repeat only_step.

Lemma only_pack1 c v : codec_only (pack1 c v).
Proof. unfold pack1. only_tac. Qed.
#[local] Hint Resolve only_pack1 : codec.

Lemma only_pack fmt : forall vs, codec_only (pack fmt vs).
Proof. induction fmt; intros [|v vs]; cbn [pack]; only_tac. Qed.
#[local] Hint Resolve only_pack : codec.

Lemma only_unpack fmt data : codec_only (unpack fmt data).
Proof. unfold unpack. only_tac. Qed.
#[local] Hint Resolve only_unpack : codec.

Lemma only_item0 t : codec_only (item0 t).
Proof. unfold item0. only_tac. Qed.
Lemma only_star1 t : codec_only (star1 t).
Proof. unfold star1. only_tac. Qed.
Lemma only_tuple2 t : codec_only (tuple2 t).
Proof. unfold tuple2. only_tac. Qed.
Lemma only_tuple3 t : codec_only (tuple3 t).
Proof. unfold tuple3. only_tac. Qed.
Lemma only_tuple4 t : codec_only (tuple4 t).
Proof. unfold tuple4. only_tac. Qed.
Lemma only_tuple7 t : codec_only (tuple7 t).
Proof. unfold tuple7. only_tac. Qed.
#[local] Hint Resolve only_item0 only_star1 only_tuple2 only_tuple3 only_tuple4
  only_tuple7 : codec.

Lemma only_encode_char c : codec_only (UTF8.encode_char c).
Proof. unfold UTF8.encode_char. only_tac. Qed.
#[local] Hint Resolve only_encode_char : codec.

Lemma only_encode s : codec_only (UTF8.encode s).
Proof. induction s; cbn [UTF8.encode]; only_tac. Qed.
#[local] Hint Resolve only_encode : codec.

Lemma only_decode_upto n : forall d, (length d <= n)%nat -> codec_only (UTF8.decode d).
Proof.
  induction n as [|n IH]; intros d Hd.
  - destruct d; [apply only_Ok|cbn in Hd; lia].
  - destruct d as [|b0 r0]; [apply only_Ok|]. cbn [length] in Hd.
    rewrite UTF8Facts.decode_cons.
    assert (forall r, (length r <= length r0)%nat -> codec_only (UTF8.decode r)) as H
      by (intros; apply IH; lia).
    repeat match goal with
    | |- codec_only (bind (UTF8.decode ?r) _) =>
        apply only_bind; [apply H; cbn [length]; lia|intros ?]
    | |- codec_only (match ?x with _ => _ end) =>
        is_var x; destruct x; cbn [length] in H
    | |- _ => only_step
    end.
Qed.

Lemma only_decode d : codec_only (UTF8.decode d).
Proof. apply (only_decode_upto (length d)). lia. Qed.
#[local] Hint Resolve only_decode : codec.

Lemma only_getCstr data pos : codec_only (getCstr data pos).
Proof. unfold getCstr. only_tac. Qed.
#[local] Hint Resolve only_getCstr : codec.

Lemma only_cstr fields : codec_only (cstr fields).
Proof. unfold cstr. only_tac. Qed.
Lemma only_path_FromWire data : codec_only (path_FromWire data).
Proof. unfold path_FromWire. only_tac. Qed.
#[local] Hint Resolve only_cstr only_path_FromWire : codec.

Lemma only_read_entries n : forall data pos entries,
  codec_only (read_entries n data pos entries).
Proof. induction n; intros; cbn [read_entries]; only_tac. Qed.
#[local] Hint Resolve only_read_entries : codec.

(** Encoding raises nothing but the exceptions of the codec. *)
Lemma only_toWire self : codec_only (toWire self).
Proof.
  unfold toWire, do_ExtraToWire, do_DataToWire, command_DataToWire,
    response_DataToWire.
  only_tac.
Qed.

(** Nor does decoding. *)
Lemma only_fromWire self data : codec_only (fromWire self data).
Proof.
  unfold fromWire, do_ExtraFromWire, do_DataFromWire, command_DataFromWire,
    response_DataFromWire.
  only_tac.
Qed.

Lemma only_join data : codec_only (Session.join data).
Proof. induction data as [|[c|] data IH]; cbn [Session.join]; only_tac. Qed.

Lemma codec_only_safe {A} (r : result A) : codec_only r -> safe r.
Proof. intros H code E. specialize (H _ E). discriminate H. Qed.

Lemma codec_only_fuelled {A} (r : result A) : codec_only r -> r <> Raise OutOfFuel.
Proof. intros H E. specialize (H _ E). discriminate H. Qed.

Lemma safe_Ok {A} (a : A) : safe (Ok a).
Proof. intros code; discriminate. Qed.

Lemma safe_Raise {A} e : (forall code, e <> SystemExit code) -> safe (@Raise A e).
Proof. intros H code E. apply UTF8Facts.Raise_inj in E. now apply (H code). Qed.

Lemma safe_toWire self : safe (toWire self).
Proof. apply codec_only_safe, only_toWire. Qed.

Lemma safe_fromWire self data : safe (fromWire self data).
Proof. apply codec_only_safe, only_fromWire. Qed.

Lemma safe_join data : safe (Session.join data).
Proof. apply codec_only_safe, only_join. Qed.
End SafeFacts.

(** ** Headers and the sequence counter *)

Module HeaderFacts.
Import Struct Wire Session Engine StructFacts.

Lemma cons_inj {A} (a b : A) l l' : a :: l = b :: l' -> a = b /\ l = l'.
Proof. intros E; injection E; auto. Qed.

(** What the first four bytes of an encoded message are. *)
Lemma toWire_header self w :
  toWire self = Ok w ->
  exists c,
    conn_id (hdr self) = Some c /\ session_id w = c /\
    nth 2 w 0 = retry (hdr self) /\ opcode w = command (hdr self).
Proof.
  unfold toWire.
  destruct (pack [H; B; B] _) as [hd|] eqn:P; [|discriminate]. cbn [bind].
  destruct (do_ExtraToWire self) as [ex|]; [|discriminate]. cbn [bind].
  destruct (do_DataToWire self) as [pl|]; [|discriminate]. cbn [bind].
  intros E. apply UTF8Facts.Ok_inj in E. subst w.
  destruct (pack_unpack_fields _ _ _ (ex ++ pl) P) as [U L].
  destruct (conn_id (hdr self)) as [c|] eqn:C; [|discriminate P].
  exists c. split; [reflexivity|].
  destruct hd as [|a [|b [|k [|d [|? ?]]]]]; try discriminate L.
  cbn [app unpack_fields firstn skipn width unpack1 le_value values map] in U.
  unfold session_id, opcode. cbn [app firstn nth le_value].
  apply cons_inj in U as [U1 U]. apply cons_inj in U as [U2 U].
  apply cons_inj in U as [U3 _]. lia.
Qed.

Lemma stamp_retry self m : retry (hdr (stamp self m)) = sequence self.
Proof. destruct m as [h c|h reply r]; [destruct c|]; reflexivity. Qed.

Lemma SendReceive_sequence m self res self' :
  _SendReceive m self = (res, self') ->
  sequence self' = match res with
                   | Ok _ => (sequence self + 1) mod 256
                   | Raise _ => sequence self
                   end.
Proof.
  unfold _SendReceive, bindM, lift, sendto, recvfrom, next_sequence, ret.
  destruct (toWire (stamp self m)) as [w|e].
  - cbn [sock incoming sent session sequence version].
    destruct (incoming (sock self)) as [|[d|] rest];
      intros E; injection E as <- <-; reflexivity.
  - intros E; injection E as <- <-; reflexivity.
Qed.

(** C5.  After exchanges that each received a reply, one per message of
    [messages], on a session whose sequence counter started at
    [sequence self] (a byte): the counter is
    [(sequence self + N) mod 256] with [N] the number of exchanges, the
    next request carries that value in its sequence byte, and an exchange
    that raises (no reply within the timeout, or a message that cannot be
    encoded) leaves the counter as it was. *)
Theorem sequence_after_exchanges messages : forall self replies self',
  0 <= sequence self < 256 ->
  exchanges messages self = (Ok replies, self') ->
  sequence self' = (sequence self + len messages) mod 256 /\
  (forall m w, toWire (stamp self' m) = Ok w ->
     nth 2 w 0 = (sequence self + len messages) mod 256) /\
  (forall m e self1, _SendReceive m self' = (Raise e, self1) ->
     sequence self1 = sequence self').
Proof.
  assert (forall self replies self',
    0 <= sequence self < 256 ->
    exchanges messages self = (Ok replies, self') ->
    sequence self' = (sequence self + len messages) mod 256) as Hseq.
  { induction messages as [|m ms IH]; intros self replies self' Hr.
    - cbn [exchanges ret]. intros E; injection E as <- <-.
      unfold len. cbn [length]. rewrite Z.add_0_r. symmetry. now apply Z.mod_small.
    - cbn [exchanges]. unfold bindM at 1.
      destruct (_SendReceive m self) as [[d|e] self1] eqn:E1; [|discriminate].
      apply SendReceive_sequence in E1. unfold bindM at 1.
      destruct (exchanges ms self1) as [[ds|e] self2] eqn:E2; [|discriminate].
      cbn [ret]. intros E; injection E as <- <-.
      rewrite (IH self1 ds self2); [|rewrite E1; apply Z.mod_pos_bound; lia|exact E2].
      rewrite E1. unfold len. cbn [length]. rewrite Nat2Z.inj_succ.
      rewrite Zplus_mod_idemp_l. f_equal. lia. }
  intros self replies self' Hr E. split; [now apply (Hseq self replies)|]. split.
  - intros m w Hw. destruct (toWire_header _ _ Hw) as (c & _ & _ & Hq & _).
    rewrite Hq, stamp_retry. now apply (Hseq self replies).
  - intros m e self1 E1. now apply SendReceive_sequence in E1.
Qed.
End HeaderFacts.

(** ** What the methods send *)

Module SoundFacts.
Import Struct Wire Session Engine SessionFacts SafeFacts HeaderFacts.

Lemma SendReceive_cases m self :
  (exists e, toWire (stamp self m) = Raise e /\
             _SendReceive m self = (Raise e, self)) \/
  (exists w, toWire (stamp self m) = Ok w /\
     ((timed_out self = true /\
       _SendReceive m self = (Raise TimeoutError, unanswered self w)) \/
      (exists d rest, incoming (sock self) = Some d :: rest /\
         _SendReceive m self = (Ok (firstn 1024 d), exchanged self w rest)))).
Proof.
  destruct (toWire (stamp self m)) as [w|e] eqn:E.
  - right. exists w. split; [reflexivity|].
    destruct (timed_out self) eqn:T.
    + left. split; [reflexivity|]. now apply SendReceive_timeout.
    + right. unfold timed_out in T.
      destruct (incoming (sock self)) as [|[d|] rest] eqn:I; try discriminate T.
      exists d, rest. split; [reflexivity|]. now apply SendReceive_ok.
  - left. exists e. split; [reflexivity|]. now apply SendReceive_raises.
Qed.

Lemma stamp_command self cmd :
  TnfsCmd_command cmd <> 0 ->
  conn_id (hdr (stamp self (new_command cmd))) = session self /\
  command (hdr (stamp self (new_command cmd))) = TnfsCmd_command cmd.
Proof. destruct cmd; intros H; try (split; reflexivity). now contradiction H. Qed.

Lemma stamp_Mount self a b l u p :
  conn_id (hdr (stamp self (new_command (Wire.Mount a b l u p)))) = Some 0 /\
  command (hdr (stamp self (new_command (Wire.Mount a b l u p)))) = 0.
Proof. split; reflexivity. Qed.

Lemma sound_ret {A} (a : A) : sound (ret a).
Proof.
  intros self res self' E. injection E as <- <-.
  split; [apply safe_Ok|]. split; [reflexivity|].
  exists []. now rewrite app_nil_r.
Qed.

Lemma sound_lift {A} (r : result A) : safe r -> sound (lift r).
Proof.
  intros Hr self res self' E. injection E as <- <-.
  split; [exact Hr|]. split; [reflexivity|].
  exists []. now rewrite app_nil_r.
Qed.

Lemma sound_raise {A} e : (forall code, e <> SystemExit code) -> sound (@raise A e).
Proof. intros H. apply (sound_lift (Raise e)). now apply safe_Raise. Qed.

Lemma sound_bind {A B} (m : M A) (k : A -> M B) :
  sound m -> (forall a, sound (k a)) -> sound (bindM m k).
Proof.
  intros Hm Hk self res self' E. unfold bindM in E.
  destruct (m self) as [[a|e] self1] eqn:E1.
  - destruct (Hm _ _ _ E1) as (_ & S1 & new1 & N1 & F1).
    destruct (Hk a _ _ _ E) as (Sf & S2 & new2 & N2 & F2).
    split; [exact Sf|]. split; [congruence|].
    exists (new1 ++ new2). split; [rewrite N2, N1; now rewrite app_assoc|].
    apply Forall_app. split; [exact F1|now rewrite <- S1].
  - injection E as <- <-.
    destruct (Hm _ _ _ E1) as (Sf & S1 & new1 & N1 & F1).
    split; [|eauto]. intros code Hc. apply (Sf code). congruence.
Qed.

Lemma sound_turns {A} (F : nat -> M A) :
  (forall n, sound (F n)) -> sound (fun self => F (turns self) self).
Proof. intros H self res self' E. exact (H _ _ _ _ E). Qed.

Lemma sound_SendReceive cmd :
  TnfsCmd_command cmd <> 0 -> sound (_SendReceive (new_command cmd)).
Proof.
  intros Hc self res self' E.
  destruct (stamp_command self cmd Hc) as [Sc Sk].
  destruct (SendReceive_cases (new_command cmd) self)
    as [(e & Ew & Er)|(w & Ew & [(T & Er)|(d & rest & I & Er)])];
    rewrite Er in E; injection E as <- <-.
  - split; [rewrite <- Ew; apply safe_toWire|]. split; [reflexivity|].
    exists []. now rewrite app_nil_r.
  - split; [apply safe_Raise; discriminate|]. split; [reflexivity|].
    exists [w]. split; [reflexivity|]. repeat constructor.
    + destruct (toWire_header _ _ Ew) as (c & _ & _ & _ & Ho). congruence.
    + destruct (toWire_header _ _ Ew) as (c & Hcid & Hs & _). congruence.
  - split; [apply safe_Ok|]. split; [reflexivity|].
    exists [w]. split; [reflexivity|]. repeat constructor.
    + destruct (toWire_header _ _ Ew) as (c & _ & _ & _ & Ho). congruence.
    + destruct (toWire_header _ _ Ew) as (c & Hcid & Hs & _). congruence.
Qed.

Lemma sound_exchange cmd reply0 rsp :
  TnfsCmd_command cmd <> 0 -> sound (exchange cmd reply0 rsp).
Proof.
  intros Hc. unfold exchange. apply sound_bind; [now apply sound_SendReceive|].
  intros data. apply sound_lift, safe_fromWire.
Qed.

Create HintDb sound.

Ltac sound_step :=
  match goal with
  | |- sound (bindM _ _) => apply sound_bind; [|intros ?]
  | |- sound (ret _) => apply sound_ret
  | |- sound (raise _) => apply sound_raise; intros ?; discriminate
  | |- sound (lift _) => apply sound_lift
  | |- sound (exchange _ _ _) => apply sound_exchange; cbn; discriminate
  | |- sound (if ?b then _ else _) => destruct b
  | |- sound (match ?x with _ => _ end) => destruct x
  | |- safe _ => solve [apply safe_fromWire | apply safe_toWire]
  | |- sound _ => solve [auto with sound]
  end.

Ltac sound_tac := repeat sound_step.

Lemma sound_OpenDir path : sound (OpenDir path).
Proof. unfold OpenDir. sound_tac. Qed.
Lemma sound_ReadDir handle : sound (ReadDir handle).
Proof. unfold ReadDir. sound_tac. Qed.
Lemma sound_ReadDirX handle : sound (ReadDirX handle).
Proof. unfold ReadDirX. sound_tac. Qed.
Lemma sound_CloseDir handle : sound (CloseDir handle).
Proof. unfold CloseDir. sound_tac. Qed.
Lemma sound_MkDir path : sound (MkDir path).
Proof. unfold MkDir. sound_tac. Qed.
Lemma sound_RmDir path : sound (RmDir path).
Proof. unfold RmDir. sound_tac. Qed.
Lemma sound_Open path flags mode : sound (Open path flags mode).
Proof. unfold Open. sound_tac. Qed.
Lemma sound_Close fd : sound (Close fd).
Proof. unfold Close. sound_tac. Qed.
Lemma sound_Stat path : sound (Stat path).
Proof. unfold Stat. sound_tac. Qed.
Lemma sound_LSeek fd offset whence : sound (LSeek fd offset whence).
Proof. unfold LSeek. sound_tac. Qed.
Lemma sound_Unlink path : sound (Unlink path).
Proof. unfold Unlink. sound_tac. Qed.
Lemma sound_Rename source destination : sound (Rename source destination).
Proof. unfold Rename. sound_tac. Qed.
Lemma sound_ChMod path mode : sound (ChMod path mode).
Proof. unfold ChMod. sound_tac. Qed.
Lemma sound_GetFilesystemSize : sound GetFilesystemSize.
Proof. unfold GetFilesystemSize. sound_tac. Qed.
Lemma sound_GetFilesystemFree : sound GetFilesystemFree.
Proof. unfold GetFilesystemFree. sound_tac. Qed.
#[local] Hint Resolve sound_OpenDir sound_ReadDir sound_ReadDirX sound_CloseDir
  sound_MkDir sound_RmDir sound_Open sound_Close sound_Stat sound_LSeek
  sound_Unlink sound_Rename sound_ChMod sound_GetFilesystemSize
  sound_GetFilesystemFree : sound.

Lemma sound_if_state {A} (c : state -> bool) (m1 m2 : M A) :
  sound m1 -> sound m2 -> sound (fun self => if c self then m1 self else m2 self).
Proof.
  intros H1 H2 self res self' E.
  destruct (c self); [exact (H1 _ _ _ E)|exact (H2 _ _ _ E)].
Qed.

Lemma sound_OpenDirX path pattern d s m : sound (OpenDirX path pattern d s m).
Proof.
  unfold OpenDirX.
  apply (sound_if_state (fun self => str_lt (version self) [49; 46; 50])
           (ret (None, None, None))).
  - apply sound_ret.
  - sound_tac.
Qed.
#[local] Hint Resolve sound_OpenDirX : sound.

Lemma sound_Read_loop fuel : forall fd size data_received r,
  sound (Read_loop fuel fd size data_received r).
Proof.
  induction fuel as [|fuel IH]; intros; cbn [Read_loop]; sound_tac.
Qed.
#[local] Hint Resolve sound_Read_loop : sound.

Lemma sound_Read fd size : sound (Read fd size).
Proof.
  unfold Read.
  apply (sound_turns (fun n =>
    bindM (Read_loop n fd size [] None) _)).
  intros n. sound_tac.
Qed.
#[local] Hint Resolve sound_Read : sound.

Lemma sound_Write_loop fuel : forall fd data written r,
  sound (Write_loop fuel fd data written r).
Proof.
  induction fuel as [|fuel IH]; intros; cbn [Write_loop]; sound_tac.
Qed.
#[local] Hint Resolve sound_Write_loop : sound.

Lemma sound_Write fd data : sound (Write fd data).
Proof.
  unfold Write.
  apply (sound_turns (fun n => bindM (Write_loop n fd data 0 None) _)).
  intros n. sound_tac.
Qed.
#[local] Hint Resolve sound_Write : sound.

Lemma sound_ListDir_loop fuel : forall handle reply contents,
  sound (ListDir_loop fuel handle reply contents).
Proof.
  induction fuel as [|fuel IH]; intros; cbn [ListDir_loop]; sound_tac.
Qed.

Lemma sound_ListDirX_loop fuel : forall handle reply numEntries contents,
  sound (ListDirX_loop fuel handle reply numEntries contents).
Proof.
  induction fuel as [|fuel IH]; intros; cbn [ListDirX_loop]; sound_tac.
Qed.

Lemma sound_GetFile_loop fuel : forall fd reply data,
  sound (GetFile_loop fuel fd reply data).
Proof.
  induction fuel as [|fuel IH]; intros; cbn [GetFile_loop]; sound_tac.
Qed.

Lemma sound_PutFile_loop fuel : forall fd data pos,
  sound (PutFile_loop fuel fd data pos).
Proof.
  induction fuel as [|fuel IH]; intros; cbn [PutFile_loop]; sound_tac.
Qed.
#[local] Hint Resolve sound_PutFile_loop : sound.

Lemma sound_close_handle handle : sound (close_handle handle).
Proof. unfold close_handle. sound_tac. Qed.
#[local] Hint Resolve sound_close_handle : sound.

Lemma sound_ListDir path : sound (ListDir path).
Proof.
  unfold ListDir. sound_tac.
  apply (sound_turns (fun n => ListDir_loop n _ _ _)).
  intros n. apply sound_ListDir_loop.
Qed.

Lemma sound_ListDirX path pattern d s m : sound (ListDirX path pattern d s m).
Proof.
  unfold ListDirX. sound_tac.
  apply (sound_turns (fun n => ListDirX_loop n _ _ _ _)).
  intros n. apply sound_ListDirX_loop.
Qed.

Lemma sound_GetFile path : sound (GetFile path).
Proof.
  unfold GetFile. sound_tac.
  - apply (sound_turns (fun n => GetFile_loop n _ _ _)).
    intros n. apply sound_GetFile_loop.
  - apply safe_join.
Qed.

Lemma sound_PutFile path data : sound (PutFile path data).
Proof. unfold PutFile. sound_tac. Qed.
End SoundFacts.

Module EngineFacts.
Import Struct Wire Session Engine SessionFacts SafeFacts HeaderFacts SoundFacts.

Lemma sound_weaken {A} (m : M A) : sound m -> sound_or_unmounting m.
Proof.
  intros H self res self' E. destruct (H _ _ _ E) as (S1 & S2 & N).
  split; [exact S1|]. split; [now left|exact N].
Qed.

Lemma sound_returning {A} (f : A -> option Z) (m : M A) :
  sound m -> sound (returning f m).
Proof. intros H. unfold returning. apply sound_bind; [exact H|intros; apply sound_ret]. Qed.

Lemma unmounting_returning {A} (f : A -> option Z) (m : M A) :
  sound_or_unmounting m -> sound_or_unmounting (returning f m).
Proof.
  intros H self res self' E. unfold returning, bindM in E.
  destruct (m self) as [[a|e] self1] eqn:E1;
    destruct (H _ _ _ E1) as (S1 & S2 & N); cbn [ret] in E;
    injection E as <- <-.
  - split; [apply safe_Ok|]. now split.
  - split; [intros code Hc; apply (S1 code); congruence|]. now split.
Qed.

Lemma unmounting_Umount : sound_or_unmounting Umount.
Proof.
  intros self res self' E. unfold Umount, bindM in E.
  destruct (exchange Wire.Umount 0 UmountResponse self) as [[r|e] self1] eqn:E1;
    destruct (sound_exchange Wire.Umount 0 UmountResponse ltac:(cbn; discriminate)
                _ _ _ E1) as (S1 & S2 & N);
    cbn [setSession ret] in E; injection E as <- <-.
  - split; [apply safe_Ok|]. split; [now right|]. exact N.
  - split; [intros code Hc; apply (S1 code); congruence|]. split; [now left|exact N].
Qed.

Lemma unmounting_exit : sound_or_unmounting exit.
Proof.
  intros self res self' E. unfold exit in E.
  destruct (session self) as [c|] eqn:Hs.
  - unfold bindM in E.
    destruct (Umount self) as [[r|e] self1] eqn:E1;
      destruct (unmounting_Umount _ _ _ E1) as (S1 & S2 & N);
      cbn [setSession] in E; injection E as <- <-; rewrite Hs in *.
    + split; [apply safe_Ok|]. split; [now right|exact N].
    + split; [intros code Hc; apply (S1 code); congruence|]. now split.
  - injection E as <- <-. split; [apply safe_Ok|]. split; [now left|].
    exists []. now rewrite app_nil_r.
Qed.

Lemma run_other o : is_Mount o = false -> sound_or_unmounting (run o).
Proof.
  intros Ho.
  destruct o; try discriminate Ho; cbn [run];
    try (apply unmounting_returning;
         first [exact unmounting_Umount | exact unmounting_exit]);
    apply sound_weaken, sound_returning;
    auto using sound_ListDir, sound_ListDirX, sound_GetFile, sound_PutFile,
      sound_OpenDir, sound_ReadDir, sound_OpenDirX, sound_ReadDirX,
      sound_CloseDir, sound_MkDir, sound_RmDir, sound_Open, sound_Read,
      sound_Write, sound_Close, sound_Stat, sound_LSeek, sound_Unlink,
      sound_Rename, sound_ChMod, sound_GetFilesystemSize,
      sound_GetFilesystemFree.
Qed.

Lemma MountResponse_DataFromWire reply a b c data r' :
  response_DataFromWire reply (MountResponse a b c) data = Ok r' ->
  exists maj min rd, r' = MountResponse maj min rd.
Proof.
  cbn [response_DataFromWire]. intros E.
  destruct (unpack [B; B] (firstn 2 data)) as [t|]; [|discriminate E].
  cbn [bind] in E.
  destruct (tuple2 t) as [[vmin vmaj]|]; [|discriminate E]. cbn [bind] in E.
  match type of E with
  | bind ?x _ = _ => destruct x as [rd|]; [|discriminate E]
  end.
  cbn [bind] in E. apply UTF8Facts.Ok_inj in E. subst r'. eauto.
Qed.

Lemma fromWire_MountResponse data r :
  fromWire (new_response 0 (MountResponse 0 0 None)) data = Ok r ->
  exists q k reply maj min rd,
    r = Response (mkHeader (Some (session_id data)) q k) reply
          (MountResponse maj min rd).
Proof.
  unfold fromWire, new_response. intros E.
  destruct data as [|c0 [|c1 [|q [|k t]]]]; try discriminate E.
  cbn [firstn unpack length calcsize width Nat.add Nat.eqb unpack_fields
       skipn unpack1 bind tuple3 TnfsCmd TnfsCmd_response] in E.
  destruct (negb (le_value [k] =? 0)); [discriminate E|].
  cbn [Wire.setSession setRetry hdr with_hdr conn_id retry command
       do_ExtraFromWire skipn] in E.
  destruct t as [|s t]; [discriminate E|].
  cbn [firstn unpack length calcsize width Nat.add Nat.eqb unpack_fields
       skipn unpack1 bind item0 setReply do_DataFromWire] in E.
  destruct (response_DataFromWire _ _ _) as [r'|] eqn:D; [|discriminate E].
  cbn [bind] in E. apply UTF8Facts.Ok_inj in E. subst r.
  destruct (MountResponse_DataFromWire _ _ _ _ _ _ D) as (maj & min & rd & ->).
  unfold session_id. cbn [firstn]. eauto 10.
Qed.

Lemma session_id_firstn d : session_id (firstn 1024 d) = session_id d.
Proof. unfold session_id. now rewrite firstn_firstn. Qed.

Lemma Mount_request self path w :
  toWire (stamp self (new_command
    (Wire.Mount 1 2 (Some path) (Some empty) (Some empty)))) = Ok w ->
  mount_request w.
Proof.
  intros E. destruct (toWire_header _ _ E) as (c & Hc & Hs & _ & Ho).
  split; [exact Ho|]. cbn in Hc. congruence.
Qed.

(** What [Mount] sends, and what becomes of [session]. *)
Lemma run_Mount path self res self' :
  run (OpMount path) self = (res, self') ->
  exists new,
    sent (sock self') = sent (sock self) ++ new /\
    Forall mount_request new /\
    session self' = match res with
                    | Ok (Some 0) => mount_reply_conn self
                    | _ => session self
                    end.
Proof.
  cbn [run]. unfold returning, Mount, except_TimeoutError.
  unfold bindM at 1 2.
  set (msg := new_command (Wire.Mount 1 2 (Some path) (Some empty) (Some empty))).
  destruct (SendReceive_cases msg self)
    as [(e & Ew & Er)|(w & Ew & [(T & Er)|(d & rest & I & Er)])]; rewrite Er.
  - intros E. exists []. rewrite app_nil_r.
    destruct e; cbn [raise] in E; injection E as <- <-; repeat split; constructor.
  - cbn [raise]. intros E; injection E as <- <-.
    exists [w]. repeat split. repeat constructor; now apply (Mount_request self path).
  - unfold bindM at 1. cbn [lift].
    destruct (fromWire _ (firstn 1024 d)) as [r|e] eqn:F.
    + destruct (fromWire_MountResponse _ _ F) as (q & k & reply & maj & min & rd & ->).
      unfold bindM. rewrite session_id_firstn.
      unfold mount_reply_conn. rewrite I.
      destruct (Z.eqb_spec reply 0) as [->|Hr];
        cbn [setSession ret conn_id]; intros E; injection E as <- <-.
      * exists [w]. repeat split.
        repeat constructor; now apply (Mount_request self path).
      * exists [w]. split; [reflexivity|]. split.
        { repeat constructor; now apply (Mount_request self path). }
        destruct reply; [contradiction|reflexivity|reflexivity].
    + intros E; injection E as <- <-. exists [w]. repeat split.
      repeat constructor; now apply (Mount_request self path).
Qed.

Lemma skipn_sent {A} (l new : list A) : skipn (length l) (l ++ new) = new.
Proof. now rewrite skipn_app, Nat.sub_diag, skipn_all. Qed.

Lemma forallb_pairs mounted new :
  (forall w, In w new -> carries_session (mounted, w) = true) ->
  forallb carries_session (map (pair mounted) new) = true.
Proof.
  intros H. apply forallb_forall. intros [m w] Hin.
  apply in_map_iff in Hin as (w' & E & Hw). injection E as <- <-. now apply H.
Qed.

Lemma trace_carries ops : forall self mounted,
  session self = None \/ session self = mounted ->
  forallb carries_session (trace ops self mounted) = true.
Proof.
  induction ops as [|o ops IH]; intros self mounted Inv; [reflexivity|].
  cbn [trace]. destruct (run o self) as [res self'] eqn:E.
  rewrite forallb_app. apply andb_true_iff.
  destruct (is_Mount o) eqn:Ho.
  - destruct o; try discriminate Ho.
    destruct (run_Mount _ _ _ _ E) as (new & N & F & S).
    rewrite N, skipn_sent. split.
    + apply forallb_pairs. intros w Hw.
      rewrite Forall_forall in F. destruct (F w Hw) as [Fo Fs].
      cbn [carries_session]. rewrite Fo, Fs. reflexivity.
    + apply IH. rewrite S.
      destruct res as [[[| |]|]|]; auto.
  - destruct (run_other o Ho _ _ _ E) as (_ & S & new & N & F).
    rewrite N, skipn_sent. split.
    + apply forallb_pairs. intros w Hw.
      rewrite Forall_forall in F. destruct (F w Hw) as [Fo Fs].
      cbn [carries_session].
      destruct (Z.eqb_spec (opcode w) 0); [contradiction|].
      destruct Inv as [Inv|Inv]; [congruence|].
      rewrite <- Inv, Fs. apply Z.eqb_refl.
    + replace (match o with OpMount _ => _ | _ => mounted end) with mounted
        by (destruct o; try reflexivity; discriminate Ho).
      apply IH. destruct S as [S|S]; rewrite S; auto.
Qed.

Lemma Mount_setSession_bytes h a b l u p s w :
  toWire (Wire.setSession (Command h (Wire.Mount a b l u p)) s) = Ok w ->
  firstn 2 w = [0; 0].
Proof.
  unfold toWire. cbn [Wire.setSession hdr with_hdr conn_id].
  rewrite WireFacts.pack_cons.
  change (pack [H] [Some 0]) with (@Ok bytes [0; 0]). cbn [bind].
  destruct (pack [B; B] _) as [hd|]; [|discriminate]. cbn [bind].
  destruct (do_ExtraToWire _) as [ex|]; [|discriminate]. cbn [bind].
  destruct (do_DataToWire _) as [pl|]; [|discriminate]. cbn [bind].
  intros E. apply UTF8Facts.Ok_inj in E. subst w. reflexivity.
Qed.

(** C6.  Every encoded [Mount] request starts with the session bytes 0 0,
    whatever session [setSession] is given.  And along any sequence of
    method calls on a session object that is unmounted, or mounted with
    the id that the most recent successful [Mount] returned, every
    datagram sent is either a [Mount] request with session 0 or carries
    the id returned by the most recent successful [Mount] exchange before
    it. *)
Theorem requests_carry_session ops self mounted
  (Hinv : session self = None \/ session self = mounted) :
  (forall h a b l u p s w,
     toWire (Wire.setSession (Command h (Wire.Mount a b l u p)) s) = Ok w ->
     firstn 2 w = [0; 0]) /\
  forallb carries_session (trace ops self mounted) = true.
Proof.
  split; [exact Mount_setSession_bytes|now apply trace_carries].
Qed.
End EngineFacts.

(** ** Timeouts *)

Module TimeoutFacts.
Import Struct Wire Session Engine SessionFacts SafeFacts HeaderFacts SoundFacts
  EngineFacts.

Lemma stops_exchange cmd reply0 rsp : stops_at_timeout (exchange cmd reply0 rsp).
Proof.
  intros self T.
  destruct (toWire (stamp self (new_command cmd))) as [w|e] eqn:E.
  - right. exists w. now apply exchange_timeout.
  - left. exists e. now apply exchange_raises.
Qed.

Lemma stops_bind {A B} (m : M A) (k : A -> M B) :
  stops_at_timeout m -> stops_at_timeout (bindM m k).
Proof.
  intros H self T. unfold bindM.
  destruct (H self T) as [[e E]|[w E]]; rewrite E; eauto.
Qed.

Lemma stops_surfaces {A} (m : M A) : stops_at_timeout m -> surfaces_timeout m.
Proof.
  intros H self T. destruct (H self T) as [[e E]|[w E]]; rewrite E; cbn [fst snd];
    eauto.
Qed.

Lemma surfaces_pure {A} (r : result A) : surfaces_timeout (lift r).
Proof. intros self T. now left. Qed.

Lemma surfaces_bind {A B} (m : M A) (k : A -> M B) :
  surfaces_timeout m -> (forall a, surfaces_timeout (k a)) ->
  surfaces_timeout (bindM m k).
Proof.
  intros Hm Hk self T. unfold bindM. specialize (Hm self T).
  destruct (m self) as [[a|e] self1]; cbn [fst snd] in Hm.
  - destruct Hm as [->|[E _]]; [apply (Hk a self T)|discriminate E].
  - destruct Hm as [->|[E W]]; [now left|].
    right. cbn [fst snd]. split; [congruence|exact W].
Qed.

Lemma surfaces_turns {A} (F : nat -> M A) :
  (forall n, surfaces_timeout (F (S n))) ->
  surfaces_timeout (fun self => F (turns self) self).
Proof. intros H self T. exact (H _ self T). Qed.

Ltac stops :=
  repeat first
    [ apply stops_exchange
    | apply stops_bind ].

Lemma surfaces_run o : is_Mount o = false -> surfaces_timeout (run o).
Proof.
  intros Ho. destruct o; try discriminate Ho; cbn [run]; unfold returning.
  all: try (apply stops_surfaces;
            unfold Umount, OpenDir, ReadDir, ReadDirX, CloseDir, MkDir, RmDir,
              Open, Close, Stat, LSeek, Unlink, Rename, ChMod,
              GetFilesystemSize, GetFilesystemFree, ListDir, GetFile, PutFile;
            solve [stops]).
  - (* OpenDirX *)
    apply surfaces_bind; [|intros; apply (surfaces_pure (Ok _))].
    intros self T. unfold OpenDirX.
    destruct (str_lt (version self) [49; 46; 50]); [now left|].
    apply stops_surfaces; [stops|exact T].
  - (* Read *)
    apply surfaces_bind; [|intros; apply (surfaces_pure (Ok _))].
    unfold Read.
    apply (surfaces_turns (fun n => bindM (Read_loop n fd size [] None) _)).
    intros n. cbn [Read_loop]. destruct (0 <? size).
    + apply stops_surfaces. stops.
    + apply surfaces_bind; [apply (surfaces_pure (Ok _))|].
      intros [acc [r|]]; destruct (0 <? len acc);
        first [apply (surfaces_pure (Ok _))|apply (surfaces_pure (Raise _))].
  - (* Write *)
    apply surfaces_bind; [|intros; apply (surfaces_pure (Ok _))].
    unfold Write.
    apply (surfaces_turns (fun n => bindM (Write_loop n fd data_to_send 0 None) _)).
    intros n. cbn [Write_loop]. destruct (0 <? len data_to_send).
    + apply stops_surfaces. stops.
    + apply surfaces_bind; [apply (surfaces_pure (Ok _))|].
      intros [written [r|]];
        first [apply (surfaces_pure (Ok _))|apply (surfaces_pure (Raise _))].
  - (* ListDirX *)
    intros self T. unfold ListDirX, OpenDirX, bindM.
    destruct (str_lt (version self) [49; 46; 50]); [now left|].
    destruct (stops_exchange
                (Wire.OpenDirX (Some path) pattern dirOptions sortOptions maxResults)
                255 (OpenDirXResponse None 0 None) self T) as [[e E]|[w E]];
      rewrite E; cbn [fst snd]; eauto.
  - (* exit *)
    intros self T. unfold bindM, exit.
    destruct (session self); [|now left].
    destruct (stops_bind _ (fun _ => setSession None)
                (stops_bind _ (fun r => _ <~ setSession None ;; ret (reply_of r))
                   (stops_exchange Wire.Umount 0 UmountResponse)) self T)
      as [[e E]|[w E]].
    + unfold Umount. unfold bindM in E |- *. rewrite E. now left.
    + unfold Umount. unfold bindM in E |- *. rewrite E. right. cbn [fst snd]. eauto.
Qed.

Lemma safe_run o self : is_Mount o = false -> safe (fst (run o self)).
Proof.
  intros Ho. destruct (run o self) as [res self'] eqn:E.
  now destruct (run_other o Ho _ _ _ E).
Qed.

Lemma Mount_timeout path self w :
  toWire (stamp self (new_command
    (Wire.Mount 1 2 (Some path) (Some empty) (Some empty)))) = Ok w ->
  timed_out self = true ->
  Mount path self = (Raise (SystemExit 0), unanswered self w).
Proof.
  intros E T. unfold Mount, except_TimeoutError, bindM at 1.
  now rewrite (SendReceive_timeout _ _ _ E T).
Qed.

Lemma answered_refl self : answered self [] [] self.
Proof.
  unfold answered. cbn [map app length advanced Nat.iter].
  rewrite app_nil_r. repeat split; reflexivity.
Qed.

Lemma advanced_add n k s : advanced (n + k) s = advanced k (advanced n s).
Proof. unfold advanced. rewrite Nat.add_comm. apply Nat.iter_add. Qed.

Lemma answered_trans self ws1 ds1 mid1 ws2 ds2 mid2 :
  answered self ws1 ds1 mid1 -> answered mid1 ws2 ds2 mid2 ->
  answered self (ws1 ++ ws2) (ds1 ++ ds2) mid2.
Proof.
  intros (V1 & S1 & I1 & L1 & Q1) (V2 & S2 & I2 & L2 & Q2).
  unfold answered. rewrite !length_app, advanced_add, map_app, <- app_assoc.
  repeat split; try congruence.
  now rewrite S2, S1, app_assoc.
Qed.

Lemma times_out_raise {A B} mid e self' :
  times_out mid (@Raise A e) self' -> times_out mid (@Raise B e) self'.
Proof.
  intros (E & T & W). split; [|now split].
  apply UTF8Facts.Raise_inj in E. now subst e.
Qed.

Lemma times_out_Ok {A} mid (a : A) self' : ~ times_out mid (Ok a) self'.
Proof. intros (E & _). discriminate E. Qed.

Lemma passes_lift {A} (r : result A) : passes_timeouts (lift r).
Proof.
  intros self res self' E. injection E as <- <-.
  exists [], [], self. split; [apply answered_refl|]. split; [reflexivity|now left].
Qed.

Lemma passes_ret {A} (a : A) : passes_timeouts (ret a).
Proof. apply (passes_lift (Ok a)). Qed.

Lemma passes_raise {A} e : passes_timeouts (@raise A e).
Proof. apply (passes_lift (Raise e)). Qed.

Lemma passes_bind {A B} (m : M A) (k : A -> M B) :
  passes_timeouts m -> (forall a, passes_timeouts (k a)) ->
  passes_timeouts (bindM m k).
Proof.
  intros Hm Hk self res self' E. unfold bindM in E.
  destruct (m self) as [[a|e] self1] eqn:E1;
    destruct (Hm _ _ _ E1) as (ws1 & ds1 & mid1 & A1 & S1 & [->|T1]).
  - destruct (Hk a _ _ _ E) as (ws2 & ds2 & mid2 & A2 & S2 & H2).
    exists (ws1 ++ ws2), (ds1 ++ ds2), mid2.
    split; [now apply (answered_trans _ _ _ mid1)|]. split; [congruence|exact H2].
  - now apply times_out_Ok in T1.
  - injection E as <- <-. exists ws1, ds1, mid1.
    split; [exact A1|]. split; [exact S1|now left].
  - injection E as <- <-. exists ws1, ds1, mid1.
    split; [exact A1|]. split; [exact S1|].
    right. now apply (times_out_raise (A:=A)).
Qed.

Lemma passes_turns {A} (F : nat -> M A) :
  (forall n, passes_timeouts (F n)) ->
  passes_timeouts (fun self => F (turns self) self).
Proof. intros H self res self' E. exact (H _ _ _ _ E). Qed.

Lemma passes_if_state {A} (c : state -> bool) (m1 m2 : M A) :
  passes_timeouts m1 -> passes_timeouts m2 ->
  passes_timeouts (fun self => if c self then m1 self else m2 self).
Proof.
  intros H1 H2 self res self' E.
  destruct (c self); [exact (H1 _ _ _ E)|exact (H2 _ _ _ E)].
Qed.

Lemma passes_exchange cmd reply0 rsp : passes_timeouts (exchange cmd reply0 rsp).
Proof.
  intros self res self' E.
  destruct (toWire (stamp self (new_command cmd))) as [w|e] eqn:Ew.
  - destruct (timed_out self) eqn:T.
    + rewrite (exchange_timeout _ _ _ _ _ Ew T) in E. injection E as <- <-.
      exists [], [], self. split; [apply answered_refl|]. split; [reflexivity|].
      right. split; [reflexivity|]. split; [exact T|]. now exists cmd, w.
    + unfold timed_out in T.
      destruct (incoming (sock self)) as [|[d|] rest] eqn:I; try discriminate T.
      rewrite (exchange_ok _ _ _ _ _ _ _ Ew I) in E. injection E as <- <-.
      exists [w], [d], (exchanged self w rest).
      split; [|split; [reflexivity|now left]].
      unfold answered. cbn [exchanged version sock sent incoming sequence map app
                            length advanced Nat.iter].
      repeat split; auto.
  - rewrite (exchange_raises _ _ _ _ _ Ew) in E. injection E as <- <-.
    exists [], [], self. split; [apply answered_refl|]. split; [reflexivity|now left].
Qed.

Create HintDb passes.

Ltac passes_step :=
  match goal with
  | |- passes_timeouts (bindM _ _) => apply passes_bind; [|intros ?]
  | |- passes_timeouts (ret _) => apply passes_ret
  | |- passes_timeouts (raise _) => apply passes_raise
  | |- passes_timeouts (lift _) => apply passes_lift
  | |- passes_timeouts (exchange _ _ _) => apply passes_exchange
  | |- passes_timeouts (if ?b then _ else _) => destruct b
  | |- passes_timeouts (match ?x with _ => _ end) => destruct x
  | |- passes_timeouts _ => solve [auto with passes]
  end.

Ltac passes_tac := repeat passes_step.

Lemma passes_OpenDir path : passes_timeouts (OpenDir path).
Proof. unfold OpenDir. passes_tac. Qed.
Lemma passes_ReadDir handle : passes_timeouts (ReadDir handle).
Proof. unfold ReadDir. passes_tac. Qed.
Lemma passes_ReadDirX handle : passes_timeouts (ReadDirX handle).
Proof. unfold ReadDirX. passes_tac. Qed.
Lemma passes_CloseDir handle : passes_timeouts (CloseDir handle).
Proof. unfold CloseDir. passes_tac. Qed.
Lemma passes_MkDir path : passes_timeouts (MkDir path).
Proof. unfold MkDir. passes_tac. Qed.
Lemma passes_RmDir path : passes_timeouts (RmDir path).
Proof. unfold RmDir. passes_tac. Qed.
Lemma passes_Open path flags mode : passes_timeouts (Open path flags mode).
Proof. unfold Open. passes_tac. Qed.
Lemma passes_Close fd : passes_timeouts (Close fd).
Proof. unfold Close. passes_tac. Qed.
Lemma passes_Stat path : passes_timeouts (Stat path).
Proof. unfold Stat. passes_tac. Qed.
Lemma passes_LSeek fd offset whence : passes_timeouts (LSeek fd offset whence).
Proof. unfold LSeek. passes_tac. Qed.
Lemma passes_Unlink path : passes_timeouts (Unlink path).
Proof. unfold Unlink. passes_tac. Qed.
Lemma passes_Rename source destination : passes_timeouts (Rename source destination).
Proof. unfold Rename. passes_tac. Qed.
Lemma passes_ChMod path mode : passes_timeouts (ChMod path mode).
Proof. unfold ChMod. passes_tac. Qed.
Lemma passes_GetFilesystemSize : passes_timeouts GetFilesystemSize.
Proof. unfold GetFilesystemSize. passes_tac. Qed.
Lemma passes_GetFilesystemFree : passes_timeouts GetFilesystemFree.
Proof. unfold GetFilesystemFree. passes_tac. Qed.
#[local] Hint Resolve passes_OpenDir passes_ReadDir passes_ReadDirX passes_CloseDir
  passes_MkDir passes_RmDir passes_Open passes_Close passes_Stat passes_LSeek
  passes_Unlink passes_Rename passes_ChMod passes_GetFilesystemSize
  passes_GetFilesystemFree : passes.

Lemma passes_OpenDirX path pattern d s m : passes_timeouts (OpenDirX path pattern d s m).
Proof.
  unfold OpenDirX.
  apply (passes_if_state (fun self => str_lt (version self) [49; 46; 50])
           (ret (None, None, None))).
  - apply passes_ret.
  - passes_tac.
Qed.
#[local] Hint Resolve passes_OpenDirX : passes.

Lemma passes_Read_loop fuel : forall fd size data_received r,
  passes_timeouts (Read_loop fuel fd size data_received r).
Proof.
  induction fuel as [|fuel IH]; intros; cbn [Read_loop]; passes_tac.
Qed.
#[local] Hint Resolve passes_Read_loop : passes.

Lemma passes_Read fd size : passes_timeouts (Read fd size).
Proof.
  unfold Read.
  apply (passes_turns (fun n => bindM (Read_loop n fd size [] None) _)).
  intros n. passes_tac.
Qed.
#[local] Hint Resolve passes_Read : passes.

Lemma passes_Write_loop fuel : forall fd data written r,
  passes_timeouts (Write_loop fuel fd data written r).
Proof.
  induction fuel as [|fuel IH]; intros; cbn [Write_loop]; passes_tac.
Qed.
#[local] Hint Resolve passes_Write_loop : passes.

Lemma passes_Write fd data : passes_timeouts (Write fd data).
Proof.
  unfold Write.
  apply (passes_turns (fun n => bindM (Write_loop n fd data 0 None) _)).
  intros n. passes_tac.
Qed.
#[local] Hint Resolve passes_Write : passes.

Lemma passes_ListDir_loop fuel : forall handle reply contents,
  passes_timeouts (ListDir_loop fuel handle reply contents).
Proof.
  induction fuel as [|fuel IH]; intros; cbn [ListDir_loop]; passes_tac.
Qed.

Lemma passes_ListDirX_loop fuel : forall handle reply numEntries contents,
  passes_timeouts (ListDirX_loop fuel handle reply numEntries contents).
Proof.
  induction fuel as [|fuel IH]; intros; cbn [ListDirX_loop]; passes_tac.
Qed.

Lemma passes_GetFile_loop fuel : forall fd reply data,
  passes_timeouts (GetFile_loop fuel fd reply data).
Proof.
  induction fuel as [|fuel IH]; intros; cbn [GetFile_loop]; passes_tac.
Qed.

Lemma passes_PutFile_loop fuel : forall fd data pos,
  passes_timeouts (PutFile_loop fuel fd data pos).
Proof.
  induction fuel as [|fuel IH]; intros; cbn [PutFile_loop]; passes_tac.
Qed.
#[local] Hint Resolve passes_PutFile_loop : passes.

Lemma passes_close_handle handle : passes_timeouts (close_handle handle).
Proof. unfold close_handle. passes_tac. Qed.
#[local] Hint Resolve passes_close_handle : passes.

Lemma passes_ListDir path : passes_timeouts (ListDir path).
Proof.
  unfold ListDir. passes_tac.
  apply (passes_turns (fun n => ListDir_loop n _ _ _)).
  intros n. apply passes_ListDir_loop.
Qed.

Lemma passes_ListDirX path pattern d s m : passes_timeouts (ListDirX path pattern d s m).
Proof.
  unfold ListDirX. passes_tac.
  apply (passes_turns (fun n => ListDirX_loop n _ _ _ _)).
  intros n. apply passes_ListDirX_loop.
Qed.

Lemma passes_GetFile path : passes_timeouts (GetFile path).
Proof.
  unfold GetFile. passes_tac.
  apply (passes_turns (fun n => GetFile_loop n _ _ _)).
  intros n. apply passes_GetFile_loop.
Qed.

Lemma passes_PutFile path data : passes_timeouts (PutFile path data).
Proof. unfold PutFile. passes_tac. Qed.

Lemma passes_surfaces {A} (m : M A) : passes_timeouts m -> surfaces_timeouts m.
Proof.
  intros H self res self' E.
  destruct (H _ _ _ E) as (ws & ds & mid & Ha & S & [->|T]);
    exists ws, ds, mid; split; auto.
Qed.

(** A continuation that only sets [session]. *)
Lemma surfaces_then_session {A B} (m : M A) (k : A -> M B) :
  surfaces_timeouts m ->
  (forall a self, exists b s,
     k a self = (Ok b, mkState s (sequence self) (version self) (sock self))) ->
  surfaces_timeouts (bindM m k).
Proof.
  intros Hm Hk self res self' E. unfold bindM in E.
  destruct (m self) as [[a|e] self1] eqn:E1;
    destruct (Hm _ _ _ E1) as (ws & ds & mid & Ha & [->|[S T]]).
  - destruct (Hk a mid) as (b & s & Ek). rewrite Ek in E. injection E as <- <-.
    exists ws, ds, (mkState s (sequence mid) (version mid) (sock mid)).
    split; [exact Ha|now left].
  - now apply times_out_Ok in T.
  - injection E as <- <-. exists ws, ds, mid. split; [exact Ha|now left].
  - injection E as <- <-. exists ws, ds, mid. split; [exact Ha|].
    right. split; [exact S|]. now apply (times_out_raise (A:=A)).
Qed.

Lemma surfaces_returning {A} (f : A -> option Z) (m : M A) :
  surfaces_timeouts m -> surfaces_timeouts (returning f m).
Proof.
  intros H. unfold returning. apply surfaces_then_session; [exact H|].
  intros a [s q v k]. exists (f a), s. reflexivity.
Qed.

Lemma surfaces_Umount : surfaces_timeouts Umount.
Proof.
  unfold Umount. apply surfaces_then_session.
  - apply passes_surfaces, passes_exchange.
  - intros r self. exists (reply_of r), None. reflexivity.
Qed.

Lemma surfaces_exit : surfaces_timeouts exit.
Proof.
  intros self res self' E. unfold exit in E.
  destruct (session self) as [c|] eqn:Hs.
  - rewrite <- Hs.
    apply (surfaces_then_session Umount (fun _ => setSession None)
             surfaces_Umount); [|exact E].
    intros _ self0. exists tt, None. reflexivity.
  - injection E as <- <-. exists [], [], self. split; [apply answered_refl|now left].
Qed.

Lemma run_surfaces o : is_Mount o = false -> surfaces_timeouts (run o).
Proof.
  intros Ho.
  destruct o; try discriminate Ho; cbn [run]; apply surfaces_returning;
    first [exact surfaces_Umount | exact surfaces_exit | apply passes_surfaces];
    auto using passes_ListDir, passes_ListDirX, passes_GetFile, passes_PutFile,
      passes_OpenDir, passes_ReadDir, passes_OpenDirX, passes_ReadDirX,
      passes_CloseDir, passes_MkDir, passes_RmDir, passes_Open, passes_Read,
      passes_Write, passes_Close, passes_Stat, passes_LSeek, passes_Unlink,
      passes_Rename, passes_ChMod, passes_GetFilesystemSize,
      passes_GetFilesystemFree.
Qed.

Lemma answered_before_timeout (ds pre : list bytes) :
  forall (t rest : list (option bytes)),
  map Some ds ++ t = map Some pre ++ None :: rest ->
  exists left, pre = ds ++ left /\ t = map Some left ++ None :: rest.
Proof.
  revert pre. induction ds as [|d ds IH]; intros pre t rest E.
  - exists pre. split; [reflexivity|exact E].
  - destruct pre as [|p pre]; cbn [map app] in E; [discriminate E|].
    injection E as -> E. destruct (IH _ _ _ E) as (left & -> & Ht).
    exists left. split; [reflexivity|exact Ht].
Qed.

Lemma run_timeout_reached o self pre rest res self' :
  is_Mount o = false ->
  incoming (sock self) = map Some pre ++ None :: rest ->
  run o self = (res, self') ->
  (exists done left,
     pre = done ++ left /\
     incoming (sock self') = map Some left ++ None :: rest) \/
  (res = Raise TimeoutError /\
   incoming (sock self') = rest /\
   session self' = session self /\
   sequence self' = advanced (length pre) (sequence self) /\
   exists ws w',
     length ws = length pre /\
     sent (sock self') = sent (sock self) ++ ws ++ [w']).
Proof.
  intros Ho Hi E.
  destruct (run_surfaces o Ho _ _ _ E)
    as (ws & ds & mid & (V & S & I & L & Q) & [->|(Hs & Hr & T & cmd & w' & Hw & ->)]);
    rewrite Hi in I; symmetry in I;
    destruct (answered_before_timeout _ _ _ _ I) as (left & -> & Hm).
  - left. now exists ds, left.
  - right. unfold timed_out in T. rewrite Hm in T.
    destruct left as [|x left]; [|discriminate T].
    rewrite app_nil_r. cbn [unanswered sock incoming sent session sequence].
    rewrite Hm. cbn [map app tl].
    split; [exact Hr|]. split; [reflexivity|]. split; [exact Hs|].
    split; [exact Q|]. exists ws, w'. split; [exact L|].
    now rewrite S, app_assoc.
Qed.

(** C4 (amended).  When no reply arrives in time:
    - [Mount] exits the process: it raises [SystemExit(0)] after sending
      its request once;
    - no other method ever raises [SystemExit], in any state;
    - every other method, called when the next reply will not arrive,
      either leaves the object untouched (nothing was sent) or raises
      [TimeoutError] to its caller after sending exactly one request,
      without sending it again;
    - the same holds of every single exchange of a command: it raises
      [TimeoutError] after one [sendto], and the sequence counter is not
      advanced;
    - wherever in a call of another method the timeout falls: the call is
      a run of answered exchanges, one request for each datagram
      received, up to an object [mid]; either the call ends there, or the
      next exchange times out and the call ends with it, raising
      [TimeoutError] with the object as the one request [w'] that got no
      answer left it ([unanswered mid w']): nothing is sent after it, the
      counter stays as the replies before it left it, [session] is as at
      the call;
    - so, when the datagrams [pre] are followed by a timeout, a call
      either ends before it has used up [pre], or it raises
      [TimeoutError] having sent one request for each datagram of [pre]
      and one more, and what was to arrive after the timeout is still to
      arrive. *)
Theorem timeout_exits_only_in_Mount path self w
  (Hw : toWire (stamp self (new_command
          (Wire.Mount 1 2 (Some path) (Some empty) (Some empty)))) = Ok w)
  (Ht : timed_out self = true) :
  Mount path self = (Raise (SystemExit 0), unanswered self w) /\
  (forall o self0, is_Mount o = false -> safe (fst (run o self0))) /\
  (forall o, is_Mount o = false ->
     snd (run o self) = self \/
     (fst (run o self) = Raise TimeoutError /\
      exists w', snd (run o self) = unanswered self w')) /\
  (forall cmd reply0 rsp w',
     toWire (stamp self (new_command cmd)) = Ok w' ->
     exchange cmd reply0 rsp self = (Raise TimeoutError, unanswered self w')) /\
  (forall o self0 res self',
     is_Mount o = false ->
     run o self0 = (res, self') ->
     exists ws ds mid,
       answered self0 ws ds mid /\
       (self' = mid \/
        (session mid = session self0 /\
         res = Raise TimeoutError /\
         timed_out mid = true /\
         exists cmd w',
           toWire (stamp mid (new_command cmd)) = Ok w' /\
           self' = unanswered mid w'))) /\
  (forall o self0 pre rest res self',
     is_Mount o = false ->
     incoming (sock self0) = map Some pre ++ None :: rest ->
     run o self0 = (res, self') ->
     (exists done left,
        pre = done ++ left /\
        incoming (sock self') = map Some left ++ None :: rest) \/
     (res = Raise TimeoutError /\
      incoming (sock self') = rest /\
      session self' = session self0 /\
      sequence self' = advanced (length pre) (sequence self0) /\
      exists ws w',
        length ws = length pre /\
        sent (sock self') = sent (sock self0) ++ ws ++ [w'])).
Proof.
  split; [now apply Mount_timeout|]. split; [intros; now apply safe_run|].
  split; [intros o Ho; now apply surfaces_run|].
  split; [intros cmd reply0 rsp w' E; now apply exchange_timeout|].
  split.
  - intros o self0 res self' Ho E. exact (run_surfaces o Ho _ _ _ E).
  - intros o self0 pre rest res self' Ho Hi E.
    exact (run_timeout_reached o self0 pre rest res self' Ho Hi E).
Qed.
End TimeoutFacts.

(** ** The loops stay within their bound *)

Module TerminationFacts.
Import Struct Wire Session Engine SessionFacts SafeFacts SoundFacts.

Lemma kept_refl {A} self (res : result A) :
  res <> Raise OutOfFuel -> kept self res self.
Proof. intros H. split; [exact H|]. split; [lia|auto]. Qed.

Lemma kept_trans {A B} self (r1 : result A) self1 (r2 : result B) self2 :
  kept self r1 self1 -> kept self1 r2 self2 -> kept self r2 self2.
Proof.
  intros (_ & P1 & S1) (F2 & P2 & S2). split; [exact F2|]. split; [lia|auto].
Qed.

Lemma kept_raise {A B} self e self' :
  kept self (@Raise A e) self' -> kept self (@Raise B e) self'.
Proof.
  intros (F & P & S). split; [|now split].
  intros E. apply F. apply UTF8Facts.Raise_inj in E. now subst e.
Qed.

Lemma steady_ret {A} (a : A) : steady (ret a).
Proof. intros self res self' E. injection E as <- <-. now apply kept_refl. Qed.

Lemma steady_lift {A} (r : result A) : r <> Raise OutOfFuel -> steady (lift r).
Proof. intros H self res self' E. injection E as <- <-. now apply kept_refl. Qed.

Lemma steady_raise {A} e : e <> OutOfFuel -> steady (@raise A e).
Proof.
  intros H. apply (steady_lift (Raise e)). intros E.
  apply UTF8Facts.Raise_inj in E. contradiction.
Qed.

Lemma steady_setSession s : steady (setSession s).
Proof.
  intros self res self' E. injection E as <- <-.
  split; [discriminate|]. split; [reflexivity|auto].
Qed.

Lemma steady_bind {A B} (m : M A) (k : A -> M B) :
  steady m -> (forall a, steady (k a)) -> steady (bindM m k).
Proof.
  intros Hm Hk self res self' E. unfold bindM in E.
  destruct (m self) as [[a|e] self1] eqn:E1.
  - exact (kept_trans _ _ _ _ _ (Hm _ _ _ E1) (Hk a _ _ _ E)).
  - injection E as <- <-. exact (kept_raise _ _ _ (Hm _ _ _ E1)).
Qed.

Lemma consuming_steady {A} (m : M A) : consuming m -> steady m.
Proof. intros H self res self' E. now destruct (H _ _ _ E). Qed.

Lemma consuming_bind {A B} (m : M A) (k : A -> M B) :
  consuming m -> (forall a, steady (k a)) -> consuming (bindM m k).
Proof.
  intros Hm Hk self res self' E. unfold bindM in E.
  destruct (m self) as [[a|e] self1] eqn:E1; destruct (Hm _ _ _ E1) as [K1 C1].
  - pose proof (Hk a _ _ _ E) as K2.
    split; [exact (kept_trans _ _ _ _ _ K1 K2)|].
    intros b _. specialize (C1 a eq_refl). destruct K2 as (_ & P2 & _). lia.
  - injection E as <- <-. split; [exact (kept_raise _ _ _ K1)|].
    intros b Eb. discriminate Eb.
Qed.

Lemma steady_when_any {A} P (m : M A) : steady m -> steady_when P m.
Proof. intros H self res self' _ E. exact (H _ _ _ E). Qed.

(** One turn of a loop: after a call that received something, one turn
    less is enough. *)
Lemma steady_turn {A B} n (m : M A) (k : A -> M B) :
  consuming m ->
  (forall a, steady_when (fun self => (pending self < n)%nat) (k a)) ->
  steady_when (fun self => (pending self < S n)%nat) (bindM m k).
Proof.
  intros Hm Hk self res self' Hp E. unfold bindM in E.
  destruct (m self) as [[a|e] self1] eqn:E1; destruct (Hm _ _ _ E1) as [K1 C1].
  - specialize (C1 a eq_refl).
    assert (pending self1 < n)%nat as Hp1 by lia.
    exact (kept_trans _ _ _ _ _ K1 (Hk a _ _ _ Hp1 E)).
  - injection E as <- <-. exact (kept_raise _ _ _ K1).
Qed.

Lemma consuming_SendReceive m : consuming (_SendReceive m).
Proof.
  intros self res self' E.
  destruct (SendReceive_cases m self)
    as [(e & Ew & Er)|(w & Ew & [(T & Er)|(d & rest & I & Er)])];
    rewrite Er in E; injection E as <- <-.
  - split; [|intros a Ea; discriminate Ea].
    apply kept_refl. rewrite <- Ew. apply codec_only_fuelled, only_toWire.
  - split; [|intros a Ea; discriminate Ea].
    split; [discriminate|]. split; [|auto].
    unfold pending, unanswered. cbn [sock incoming].
    destruct (incoming (sock self)); cbn [tl length]; lia.
  - split.
    + split; [discriminate|]. unfold pending, exchanged. cbn [sock incoming sequence].
      rewrite I. cbn [length]. split; [lia|].
      intros _. apply Z.mod_pos_bound. lia.
    + intros a _. unfold pending, exchanged. cbn [sock incoming]. rewrite I.
      cbn [length]. lia.
Qed.

Lemma consuming_exchange cmd reply0 rsp : consuming (exchange cmd reply0 rsp).
Proof.
  unfold exchange. apply consuming_bind; [apply consuming_SendReceive|].
  intros data. apply steady_lift, codec_only_fuelled, only_fromWire.
Qed.

Create HintDb steady.

Ltac steady_step :=
  match goal with
  | |- consuming (bindM _ _) => apply consuming_bind; [|intros ?]
  | |- consuming (exchange _ _ _) => apply consuming_exchange
  | |- steady (exchange _ _ _) => apply consuming_steady, consuming_exchange
  | |- steady (bindM _ _) => apply steady_bind; [|intros ?]
  | |- steady (ret _) => apply steady_ret
  | |- steady (raise _) => apply steady_raise; discriminate
  | |- steady (setSession _) => apply steady_setSession
  | |- steady (lift (fromWire _ _)) =>
      apply steady_lift, codec_only_fuelled, only_fromWire
  | |- steady (lift (join _)) => apply steady_lift, codec_only_fuelled, only_join
  | |- steady (if ?b then _ else _) => destruct b
  | |- steady (match ?x with _ => _ end) => destruct x
  | |- steady_when _ (ret _) => apply steady_when_any, steady_ret
  | |- steady_when _ (raise _) => apply steady_when_any, steady_raise; discriminate
  | |- steady_when _ (if ?b then _ else _) => destruct b
  | |- steady_when _ (match ?x with _ => _ end) => destruct x
  | |- _ => solve [auto with steady]
  end.

Ltac steady_tac := repeat steady_step.

Lemma consuming_OpenDir path : consuming (OpenDir path).
Proof. unfold OpenDir. steady_tac. Qed.
Lemma consuming_ReadDir handle : consuming (ReadDir handle).
Proof. unfold ReadDir. steady_tac. Qed.
Lemma consuming_ReadDirX handle : consuming (ReadDirX handle).
Proof. unfold ReadDirX. steady_tac. Qed.
Lemma consuming_CloseDir handle : consuming (CloseDir handle).
Proof. unfold CloseDir. steady_tac. Qed.
Lemma consuming_MkDir path : consuming (MkDir path).
Proof. unfold MkDir. steady_tac. Qed.
Lemma consuming_RmDir path : consuming (RmDir path).
Proof. unfold RmDir. steady_tac. Qed.
Lemma consuming_Open path flags mode : consuming (Open path flags mode).
Proof. unfold Open. steady_tac. Qed.
Lemma consuming_Close fd : consuming (Close fd).
Proof. unfold Close. steady_tac. Qed.
Lemma consuming_Stat path : consuming (Stat path).
Proof. unfold Stat. steady_tac. Qed.
Lemma consuming_LSeek fd offset whence : consuming (LSeek fd offset whence).
Proof. unfold LSeek. steady_tac. Qed.
Lemma consuming_Unlink path : consuming (Unlink path).
Proof. unfold Unlink. steady_tac. Qed.
Lemma consuming_Rename source destination : consuming (Rename source destination).
Proof. unfold Rename. steady_tac. Qed.
Lemma consuming_ChMod path mode : consuming (ChMod path mode).
Proof. unfold ChMod. steady_tac. Qed.
Lemma consuming_GetFilesystemSize : consuming GetFilesystemSize.
Proof. unfold GetFilesystemSize. steady_tac. Qed.
Lemma consuming_GetFilesystemFree : consuming GetFilesystemFree.
Proof. unfold GetFilesystemFree. steady_tac. Qed.
Lemma consuming_Umount : consuming Umount.
Proof. unfold Umount. steady_tac. Qed.
#[local] Hint Resolve consuming_OpenDir consuming_ReadDir consuming_ReadDirX
  consuming_CloseDir consuming_MkDir consuming_RmDir consuming_Open
  consuming_Close consuming_Stat consuming_LSeek consuming_Unlink
  consuming_Rename consuming_ChMod consuming_GetFilesystemSize
  consuming_GetFilesystemFree consuming_Umount : steady.
#[local] Hint Resolve consuming_steady : steady.

Lemma steady_when_bind {A B} P (m : M A) (k : A -> M B) :
  steady_when P m -> (forall a, steady (k a)) -> steady_when P (bindM m k).
Proof.
  intros Hm Hk self res self' Hp E. unfold bindM in E.
  destruct (m self) as [[a|e] self1] eqn:E1.
  - exact (kept_trans _ _ _ _ _ (Hm _ _ _ Hp E1) (Hk a _ _ _ E)).
  - injection E as <- <-. exact (kept_raise _ _ _ (Hm _ _ _ Hp E1)).
Qed.

(** The bound [turns] is enough. *)
Lemma steady_turns {A} (F : nat -> M A) :
  (forall n, steady_when (fun self => (pending self < n)%nat) (F n)) ->
  steady (fun self => F (turns self) self).
Proof.
  intros H self res self' E. apply (H _ _ _ _ (Nat.lt_succ_diag_r _) E).
Qed.

Lemma steady_if_state {A} (c : state -> bool) (m1 m2 : M A) :
  steady m1 -> steady m2 -> steady (fun self => if c self then m1 self else m2 self).
Proof.
  intros H1 H2 self res self' E.
  destruct (c self); [exact (H1 _ _ _ E)|exact (H2 _ _ _ E)].
Qed.

Lemma steady_except {A} (m : M A) e :
  steady m -> e <> OutOfFuel -> steady (except_TimeoutError m (raise e)).
Proof.
  intros Hm He self res self' E. unfold except_TimeoutError in E.
  destruct (m self) as [[a|x] self1] eqn:E1.
  - injection E as <- <-. exact (Hm _ _ _ E1).
  - destruct (Hm _ _ _ E1) as (F & P & S).
    destruct x; injection E as <- <-; (split; [|now split]); try exact F.
    intros E. apply UTF8Facts.Raise_inj in E. contradiction.
Qed.

Lemma steady_Read_loop fuel : forall fd size data_received r,
  steady_when (fun self => (pending self < fuel)%nat)
    (Read_loop fuel fd size data_received r).
Proof.
  induction fuel as [|fuel IH]; intros; [intros self res self' Hp; cbv beta in Hp; lia|].
  cbn [Read_loop]. destruct (0 <? size); [|steady_tac].
  apply steady_turn; [apply consuming_exchange|]. intros r'. steady_tac.
Qed.

Lemma Read_loop_consumes fuel fd size data_received r self a self' :
  0 < size ->
  (pending self < fuel)%nat ->
  Read_loop fuel fd size data_received r self = (Ok a, self') ->
  (pending self' < pending self)%nat.
Proof.
  intros Hs Hp. destruct fuel as [|fuel]; [lia|]. cbn [Read_loop].
  apply Z.ltb_lt in Hs. rewrite Hs. unfold bindM at 1.
  destruct (exchange _ _ _ self) as [[r'|e] self1] eqn:E1; [|discriminate].
  destruct (consuming_exchange _ _ _ _ _ _ E1) as [_ C1].
  specialize (C1 r' eq_refl). intros E.
  assert (kept self1 (Ok a) self') as (_ & P & _).
  { destruct r' as [h c|h reply rsp]; [discriminate E|].
    destruct rsp; try discriminate E.
    destruct (reply =? 0).
    - destruct data as [d|]; [|discriminate E].
      assert (pending self1 < fuel)%nat as Hp1 by lia.
      exact (steady_Read_loop fuel _ _ _ _ self1 _ _ Hp1 E).
    - exact (steady_ret _ _ _ _ E). }
  lia.
Qed.

Lemma steady_Read fd size : steady (Read fd size).
Proof.
  unfold Read.
  apply (steady_turns (fun n => bindM (Read_loop n fd size [] None) _)).
  intros n. apply steady_when_bind; [apply steady_Read_loop|].
  intros [acc r]. steady_tac.
Qed.

Lemma consuming_Read fd size : 0 < size -> consuming (Read fd size).
Proof.
  intros Hs self res self' E. split; [exact (steady_Read fd size _ _ _ E)|].
  intros a Ea. subst res. unfold Read, bindM in E.
  destruct (Read_loop (turns self) fd size [] None self) as [[[acc r]|e] self1]
    eqn:E1; [|discriminate E].
  pose proof (Read_loop_consumes _ _ _ _ _ _ _ _ Hs (Nat.lt_succ_diag_r _) E1).
  destruct (0 <? len acc); [|destruct r]; try discriminate E;
    injection E as _ <-; assumption.
Qed.

Lemma steady_Write_loop fuel : forall fd data written r,
  steady_when (fun self => (pending self < fuel)%nat)
    (Write_loop fuel fd data written r).
Proof.
  induction fuel as [|fuel IH]; intros; [intros self res self' Hp; cbv beta in Hp; lia|].
  cbn [Write_loop]. destruct (written <? len data); [|steady_tac].
  apply steady_turn; [apply consuming_exchange|]. intros r'. steady_tac.
Qed.

Lemma steady_Write fd data : steady (Write fd data).
Proof.
  unfold Write.
  apply (steady_turns (fun n => bindM (Write_loop n fd data 0 None) _)).
  intros n. apply steady_when_bind; [apply steady_Write_loop|].
  intros [written r]. steady_tac.
Qed.
#[local] Hint Resolve steady_Read steady_Write : steady.

Lemma steady_ListDir_loop fuel : forall handle reply contents,
  steady_when (fun self => (pending self < fuel)%nat)
    (ListDir_loop fuel handle reply contents).
Proof.
  induction fuel as [|fuel IH]; intros; [intros self res self' Hp; cbv beta in Hp; lia|].
  cbn [ListDir_loop]. destruct (reply =? 0); [|steady_tac].
  apply steady_turn; [apply consuming_ReadDir|]. intros [reply' filename].
  apply IH.
Qed.

Lemma steady_ListDirX_loop fuel : forall handle reply numEntries contents,
  steady_when (fun self => (pending self < fuel)%nat)
    (ListDirX_loop fuel handle reply numEntries contents).
Proof.
  induction fuel as [|fuel IH]; intros; [intros self res self' Hp; cbv beta in Hp; lia|].
  cbn [ListDirX_loop]. destruct ((reply =? 0) && (0 <? numEntries)); [|steady_tac].
  apply steady_turn; [apply consuming_ReadDirX|]. intros [reply' entries].
  steady_tac.
Qed.

Lemma steady_GetFile_loop fuel : forall fd reply data,
  steady_when (fun self => (pending self < fuel)%nat)
    (GetFile_loop fuel fd reply data).
Proof.
  induction fuel as [|fuel IH]; intros; [intros self res self' Hp; cbv beta in Hp; lia|].
  cbn [GetFile_loop]. destruct (reply =? 0); [|steady_tac].
  apply steady_turn; [apply consuming_Read; lia|]. intros [reply' chunk].
  apply IH.
Qed.

Lemma steady_PutFile_loop fuel : forall fd data pos,
  len data - pos <= Z.of_nat fuel ->
  steady (PutFile_loop fuel fd data pos).
Proof.
  induction fuel as [|fuel IH]; intros fd data pos Hf; cbn [PutFile_loop];
    destruct (Z.ltb_spec pos (len data)); try (exfalso; lia); steady_tac.
  apply IH. lia.
Qed.

Lemma steady_close_handle handle : steady (close_handle handle).
Proof. unfold close_handle. steady_tac. Qed.
#[local] Hint Resolve steady_close_handle : steady.

Lemma steady_OpenDirX path pattern d s m : steady (OpenDirX path pattern d s m).
Proof.
  unfold OpenDirX.
  apply (steady_if_state (fun self => str_lt (version self) [49; 46; 50])
           (ret (None, None, None))).
  - apply steady_ret.
  - steady_tac.
Qed.
#[local] Hint Resolve steady_OpenDirX : steady.

Lemma steady_ListDir path : steady (ListDir path).
Proof.
  unfold ListDir. steady_tac.
  apply (steady_turns (fun n => ListDir_loop n _ _ _)).
  intros n. apply steady_ListDir_loop.
Qed.

Lemma steady_ListDirX path pattern d s m : steady (ListDirX path pattern d s m).
Proof.
  unfold ListDirX. steady_tac.
  apply (steady_turns (fun n => ListDirX_loop n _ _ _ _)).
  intros n. apply steady_ListDirX_loop.
Qed.

Lemma steady_GetFile path : steady (GetFile path).
Proof.
  unfold GetFile. steady_tac.
  apply (steady_turns (fun n => GetFile_loop n _ _ _)).
  intros n. apply steady_GetFile_loop.
Qed.

Lemma steady_PutFile path data : steady (PutFile path data).
Proof.
  unfold PutFile. steady_tac. apply steady_PutFile_loop. unfold len. lia.
Qed.

Lemma steady_Mount path : steady (Mount path).
Proof.
  unfold Mount. apply steady_bind.
  - apply steady_except; [apply consuming_steady, consuming_SendReceive|discriminate].
  - intros data. steady_tac.
Qed.

Lemma steady_exit : steady exit.
Proof.
  intros self res self' E. unfold exit in E. destruct (session self).
  - revert E. apply steady_bind; [apply consuming_steady, consuming_Umount|].
    intros ?. apply steady_setSession.
  - injection E as <- <-. now apply kept_refl.
Qed.

Lemma steady_returning {A} (f : A -> option Z) (m : M A) :
  steady m -> steady (returning f m).
Proof. intros H. unfold returning. apply steady_bind; [exact H|intros; apply steady_ret]. Qed.

(** No method of the model runs into the bound of its loops, and each
    keeps the sequence counter a byte. *)
Theorem run_steady o : steady (run o).
Proof.
  destruct o; cbn [run]; apply steady_returning;
    auto using steady_Mount, steady_exit, steady_ListDir, steady_ListDirX,
      steady_GetFile, steady_PutFile with steady.
Qed.

(** A new session object has sequence 0 or, after its [Mount], 1. *)
Lemma init_steady s :
  fst (init s) <> Raise OutOfFuel /\ 0 <= sequence (snd (init s)) < 256.
Proof.
  unfold init, bindM.
  destruct (Mount [47] (mkState None 0 [] s)) as [[[[reply maj] min]|e] self1] eqn:E;
    destruct (steady_Mount _ _ _ _ E) as (F & _ & S); cbn [fst snd sequence] in *.
  - split; [discriminate|]. apply S. lia.
  - split; [|apply S; lia]. intros E'. apply F.
    apply UTF8Facts.Raise_inj in E'. now subst e.
Qed.
End TerminationFacts.

(** ** Evaluations on concrete inputs *)

Module ExampleFacts.
Import Struct Wire Session Engine Examples.

(** C7: the failing input.  [OpenDirX] succeeds and announces two entries,
    the server then answers [ReadDirX] with the status EOF (0x21):
    [ListDirX] raises [TypeError] instead of returning. *)
Theorem ListDirX_raises_on_failure_status :
  fst (ListDirX root [] 0 0 65535
         (mounted [opendirx_ok; reply 0x18 EOF []; reply 0x12 0 []]))
  = Raise TypeError.
Proof. vm_compute. reflexivity. Qed.

(** C1: the failing input.  An [OpenDirXResponse] with status 0, handle
    0x1f and 3 entries is a legal message.  [toWire] writes the header,
    the status and the handle byte, and no more; [fromWire] into a new
    [OpenDirXResponse] finds fewer than the three bytes of handle and
    entry count and returns with [handle] left [None]; encoding the
    decoded object then raises [struct.error].  So the round trip of the
    claim does not hold of this message. *)
Theorem OpenDirXResponse_does_not_round_trip :
  Legal.message an_OpenDirXResponse = true /\
  toWire an_OpenDirXResponse = Ok [0xef; 0xbe; 0; 0x17; 0; 0x1f] /\
  fromWire (fresh an_OpenDirXResponse) [0xef; 0xbe; 0; 0x17; 0; 0x1f] =
    Ok (Response (mkHeader (Some 0xbeef) 0 0x17) 0 (OpenDirXResponse None 0 None)) /\
  toWire (Response (mkHeader (Some 0xbeef) 0 0x17) 0 (OpenDirXResponse None 0 None))
    = Raise StructError /\
  ~ RoundTrip.holds an_OpenDirXResponse.
Proof.
  split; [reflexivity|]. split; [reflexivity|]. split; [reflexivity|].
  split; [reflexivity|].
  intros (w & self' & E1 & E2 & E3 & _).
  vm_compute in E1. injection E1 as <-.
  vm_compute in E2. injection E2 as <-.
  vm_compute in E3. discriminate E3.
Qed.

(** C2: a failure [MountResponse] of header and status only. *)
Lemma MountResponse_failure_needs_version :
  fromWire (new_response 0 (MountResponse 0 0 None)) [0xef; 0xbe; 0; 0x00; 5]
  = Raise StructError.
Proof. reflexivity. Qed.

(** C3: an empty success reply does not end the loop. *)
Lemma Read_continues_after_empty_reply :
  let '(res, self') := Read (Some 3) 3 (mounted [read_ok []; read_ok [1; 2; 3]]) in
  res = Ok (0, Some [1; 2; 3]) /\
  sent (sock self') = [[0xef; 0xbe; 5; 0x21; 3; 3; 0]; [0xef; 0xbe; 6; 0x21; 3; 3; 0]].
Proof. vm_compute. split; reflexivity. Qed.

(** C4: a timeout of the [Mount] exchange exits. *)
Lemma Mount_timeout_exits :
  fst (Mount root (unmounted [None])) = Raise (SystemExit 0).
Proof. reflexivity. Qed.

(** A timeout in the second turn of the loop of [Read]: the call raises
    [TimeoutError], the request of that turn (sequence 6) has been sent
    once, and the datagram that arrives later is left unread. *)
Lemma Read_timeout_is_not_retried :
  Read (Some 3) 3 (mounted [read_ok [1]; None; read_ok [2; 3]]) =
  (Raise TimeoutError,
   mkState (Some 0xbeef) 6 v1_2
     (mkSocket [[0xef; 0xbe; 5; 0x21; 3; 3; 0]; [0xef; 0xbe; 6; 0x21; 3; 2; 0]]
        [read_ok [2; 3]])).
Proof. vm_compute. reflexivity. Qed.
End ExampleFacts.

Module Witnesses.
Import Struct Wire Session Engine Examples.

Lemma roundtrip_symmetric_witness : RoundTrip.holds a_Mount.
Proof. apply RoundTripFacts.roundtrip_symmetric; reflexivity. Defined.

Lemma failure_response_witness :
  exists self',
    fromWire (new_response 0 (OpenResponse None))
      ([0xef; 0xbe; 0; 0x29; 33] ++ [1; 2; 3]) = Ok self' /\
    fromWire (new_response 0 (OpenResponse None)) [0xef; 0xbe; 0; 0x29; 33]
    = Ok self'.
Proof.
  apply (proj1 (GatingFacts.failure_response_needs_no_payload
                  (mkHeader None 0 0x29) 0 (OpenResponse None)
                  0xef 0xbe 0 33 [1; 2; 3] ltac:(discriminate))).
  reflexivity.
Defined.

Lemma Read_loop_reply_witness :
  exists r',
    reply_of r' = 0 /\
    Read_loop 2 (Some 3) 3 [] None (mounted [read_ok []; read_ok [1; 2; 3]]) =
    Read_loop 1 (Some 3) 3 [] (Some r')
      (exchanged (mounted [read_ok []; read_ok [1; 2; 3]])
         [0xef; 0xbe; 5; 0x21; 3; 3; 0] [read_ok [1; 2; 3]]).
Proof.
  refine (proj1 (proj2 (proj2
            (SessionFacts.Read_loop_reply 1 (Some 3) 3 [] None
               (mounted [read_ok []; read_ok [1; 2; 3]])
               [0xef; 0xbe; 5; 0x21; 3; 3; 0] [read_ok [1; 2; 3]] _ _)))
            0xef 0xbe 0 0 0 _);
    [lia|reflexivity|reflexivity].
Defined.

Lemma timeout_witness :
  Mount root (unmounted [None]) =
  (Raise (SystemExit 0),
   unanswered (unmounted [None]) [0; 0; 0; 0; 2; 1; 47; 0; 0; 0]).
Proof.
  apply (proj1 (TimeoutFacts.timeout_exits_only_in_Mount root (unmounted [None])
                  [0; 0; 0; 0; 2; 1; 47; 0; 0; 0] eq_refl eq_refl)).
Defined.

Lemma sequence_witness :
  sequence (snd (exchanges [new_command Wire.Size; new_command Wire.Free]
                   (mounted [reply 0x30 0 [0; 0; 1; 0]; reply 0x31 0 [0; 0; 1; 0]])))
  = 7.
Proof.
  apply (proj1 (HeaderFacts.sequence_after_exchanges
                  [new_command Wire.Size; new_command Wire.Free]
                  (mounted [reply 0x30 0 [0; 0; 1; 0]; reply 0x31 0 [0; 0; 1; 0]])
                  [[0xef; 0xbe; 0; 0x30; 0; 0; 0; 1; 0];
                   [0xef; 0xbe; 0; 0x31; 0; 0; 0; 1; 0]]
                  _ ltac:(cbn; lia) eq_refl)).
Defined.

Lemma requests_witness :
  forallb carries_session
    (trace [OpMount root; OpOpenDir root; OpRead (Some 1) 2; OpUmount; OpClose (Some 1)]
       (unmounted [mount_ok; reply 0x10 0 [1]; read_ok [8; 9]; reply 0x01 0 []])
       None) = true.
Proof.
  apply (proj2 (EngineFacts.requests_carry_session
                  [OpMount root; OpOpenDir root; OpRead (Some 1) 2; OpUmount;
                   OpClose (Some 1)]
                  (unmounted [mount_ok; reply 0x10 0 [1]; read_ok [8; 9];
                              reply 0x01 0 []])
                  None (or_introl eq_refl))).
Defined.

Lemma Write_chunks_witness :
  Write (Some 3) kilobyte (mounted [write_ack 512; write_ack 512]) =
  (Ok (0, 1024),
   exchanged
     (exchanged (mounted [write_ack 512; write_ack 512])
        ([0xef; 0xbe; 5; 0x22; 3; 0; 2] ++ repeat 7 512) [write_ack 512])
     ([0xef; 0xbe; 6; 0x22; 3; 0; 2] ++ repeat 7 512) []).
Proof.
  apply (proj1 (proj1 (SessionFacts.Write_chunks (Some 3)
                  (mounted [write_ack 512; write_ack 512]) kilobyte 7
                  ([0xef; 0xbe; 5; 0x22; 3; 0; 2] ++ repeat 7 512)
                  ([0xef; 0xbe; 6; 0x22; 3; 0; 2] ++ repeat 7 512)
                  [0xef; 0xbe; 5; 0x22; 3; 1; 0; 7]
                  0xef 0xbe 0 0xef 0xbe 0 0 2 []
                  eq_refl ltac:(vm_compute; reflexivity)
                  ltac:(vm_compute; reflexivity) eq_refl) eq_refl)).
Defined.
End Witnesses.

(** * Further properties of the client *)

Module UnmountedFacts.
Import Struct Wire Session Engine SessionFacts SoundFacts.

Lemma toWire_unmounted self cmd :
  TnfsCmd_command cmd <> 0 ->
  session self = None ->
  toWire (stamp self (new_command cmd)) = Raise StructError.
Proof.
  intros Hc Hs. destruct (stamp_command self cmd Hc) as [Sc _].
  unfold toWire. rewrite Sc, Hs. reflexivity.
Qed.

Lemma rejects_exchange cmd reply0 rsp :
  TnfsCmd_command cmd <> 0 -> rejects (exchange cmd reply0 rsp).
Proof.
  intros Hc self Hs. apply exchange_raises. now apply toWire_unmounted.
Qed.

Lemma rejects_bind {A B} (m : M A) (k : A -> M B) :
  rejects m -> rejects (bindM m k).
Proof. intros H self Hs. unfold bindM. now rewrite (H self Hs). Qed.

Lemma rejects_untouched {A} (m : M A) : rejects m -> untouched m.
Proof. intros H self Hs. now rewrite (H self Hs). Qed.

Lemma untouched_pure {A} (r : result A) : untouched (lift r).
Proof. intros self _. reflexivity. Qed.

Lemma untouched_bind {A B} (m : M A) (k : A -> M B) :
  untouched m -> (forall a, untouched (k a)) -> untouched (bindM m k).
Proof.
  intros Hm Hk self Hs. unfold bindM. specialize (Hm self Hs).
  destruct (m self) as [[a|e] self1]; cbn [snd] in Hm; subst self1.
  - apply (Hk a self Hs).
  - reflexivity.
Qed.

Ltac rejecting :=
  repeat first
    [ apply rejects_exchange; cbn; discriminate
    | apply rejects_bind ].

Lemma rejects_run o :
  always_exchanges o = true -> rejects (run o).
Proof.
  intros Ho. destruct o; try discriminate Ho; cbn [run]; unfold returning,
    Umount, OpenDir, ReadDir, ReadDirX, CloseDir, MkDir, RmDir,
    Open, Close, Stat, LSeek, Unlink, Rename, ChMod,
    GetFilesystemSize, GetFilesystemFree, ListDir, GetFile, PutFile;
    rejecting.
Qed.

Lemma untouched_run o : is_Mount o = false -> untouched (run o).
Proof.
  intros Ho. destruct (always_exchanges o) eqn:Ha;
    [now apply rejects_untouched, rejects_run|].
  destruct o; try discriminate Ho; try discriminate Ha; cbn [run];
    unfold returning.
  - (* OpenDirX *)
    apply untouched_bind; [|intros; apply (untouched_pure (Ok _))].
    intros self Hs. unfold OpenDirX.
    destruct (str_lt (version self) [49; 46; 50]); [reflexivity|].
    apply rejects_untouched; [rejecting|exact Hs].
  - (* Read *)
    apply untouched_bind; [|intros; apply (untouched_pure (Ok _))].
    intros self Hs. unfold Read, turns. cbn [Read_loop].
    destruct (0 <? size).
    + apply rejects_untouched; [rejecting|exact Hs].
    + unfold bindM, ret. cbn [snd]. destruct (0 <? len []); reflexivity.
  - (* Write *)
    apply untouched_bind; [|intros; apply (untouched_pure (Ok _))].
    intros self Hs. unfold Write, turns. cbn [Write_loop].
    destruct (0 <? len data_to_send).
    + apply rejects_untouched; [rejecting|exact Hs].
    + reflexivity.
  - (* ListDirX *)
    intros self Hs. unfold ListDirX, OpenDirX, bindM.
    destruct (str_lt (version self) [49; 46; 50]); [reflexivity|].
    now rewrite (rejects_exchange
                   (Wire.OpenDirX (Some path) pattern dirOptions sortOptions maxResults)
                   255 (OpenDirXResponse None 0 None) ltac:(cbn; discriminate)
                   self Hs).
  - (* exit *)
    intros self Hs. unfold bindM, exit. now rewrite Hs.
Qed.

(** X1.  A session object that is not mounted sends nothing: every method
    other than [Mount] leaves the object exactly as it was, and every
    method that begins with an exchange raises [struct.error] (the session
    id [None] cannot be packed) before anything is handed to the socket. *)
Theorem unmounted_session_sends_nothing o self
  (Ho : is_Mount o = false) (Hs : session self = None) :
  snd (run o self) = self /\
  (always_exchanges o = true -> fst (run o self) = Raise StructError).
Proof.
  split; [now apply untouched_run|].
  intros Ha. now rewrite (rejects_run o Ha self Hs).
Qed.
End UnmountedFacts.

Module MountFacts.
Import Struct Wire Session Engine SessionFacts SoundFacts.

Lemma le_value_1 x : le_value [x] = x.
Proof. cbn [le_value]. lia. Qed.

Lemma le_value_2 x y : le_value [x; y] = x + 256 * y.
Proof. cbn [le_value]. lia. Qed.

Lemma status_eqb status : status <> 0 -> (le_value [status] =? 0) = false.
Proof. intros H. rewrite le_value_1. now apply Z.eqb_neq. Qed.

Lemma fromWire_MountResponse_ok c0 c1 q vmin vmaj d0 d1 :
  fromWire (new_response 0 (MountResponse 0 0 None))
    [c0; c1; q; 0x00; 0; vmin; vmaj; d0; d1] =
  Ok (Response (mkHeader (Some (le_value [c0; c1])) (le_value [q]) 0x00) 0
        (MountResponse (le_value [vmaj]) (le_value [vmin])
           (Some (le_value [d0; d1])))).
Proof. reflexivity. Qed.

Lemma fromWire_MountResponse_failed c0 c1 q status vmin vmaj extra :
  status <> 0 ->
  fromWire (new_response 0 (MountResponse 0 0 None))
    (c0 :: c1 :: q :: 0x00 :: status :: vmin :: vmaj :: extra) =
  Ok (Response (mkHeader (Some (le_value [c0; c1])) (le_value [q]) 0x00)
        (le_value [status])
        (MountResponse (le_value [vmaj]) (le_value [vmin]) None)).
Proof.
  intros Hs. unfold fromWire, new_response.
  cbn [app firstn skipn unpack length calcsize width Nat.add Nat.eqb
       unpack_fields unpack1 bind tuple3 TnfsCmd TnfsCmd_response].
  replace (le_value [0x00] =? 0x00) with true by reflexivity.
  cbn [negb Wire.setSession setRetry hdr with_hdr do_ExtraFromWire firstn skipn
       unpack length calcsize width Nat.add Nat.eqb unpack_fields unpack1
       bind item0 setReply do_DataFromWire response_DataFromWire
       conn_id retry command tuple2].
  rewrite (status_eqb _ Hs). reflexivity.
Qed.

Lemma fromWire_MountResponse_long c0 c1 q vmin vmaj d0 d1 x extra :
  fromWire (new_response 0 (MountResponse 0 0 None))
    (c0 :: c1 :: q :: 0x00 :: 0 :: vmin :: vmaj :: d0 :: d1 :: x :: extra) =
  Raise StructError.
Proof. reflexivity. Qed.

Lemma Mount_accepted path self w c0 c1 q vmin vmaj d0 d1 rest :
  toWire (stamp self (new_command
    (Wire.Mount 1 2 (Some path) (Some empty) (Some empty)))) = Ok w ->
  incoming (sock self) = Some [c0; c1; q; 0x00; 0; vmin; vmaj; d0; d1] :: rest ->
  Mount path self =
    (Ok (0, vmaj, vmin), remounted self w rest (Some (c0 + 256 * c1))).
Proof.
  intros Hw Hi. unfold Mount, except_TimeoutError. unfold bindM at 1.
  rewrite (SendReceive_ok _ _ _ _ _ Hw Hi).
  change (firstn 1024 [c0; c1; q; 0; 0; vmin; vmaj; d0; d1])
    with [c0; c1; q; 0; 0; vmin; vmaj; d0; d1].
  unfold bindM at 1. cbn [lift]. rewrite fromWire_MountResponse_ok.
  unfold bindM. cbn [Z.eqb setSession ret conn_id exchanged session sequence
                     version sock].
  rewrite !le_value_1, le_value_2. reflexivity.
Qed.

Lemma Mount_refused path self w c0 c1 q status vmin vmaj extra rest :
  toWire (stamp self (new_command
    (Wire.Mount 1 2 (Some path) (Some empty) (Some empty)))) = Ok w ->
  status <> 0 ->
  incoming (sock self) =
    Some (c0 :: c1 :: q :: 0x00 :: status :: vmin :: vmaj :: extra) :: rest ->
  Mount path self = (Ok (status, vmaj, vmin), exchanged self w rest).
Proof.
  intros Hw Hs Hi. unfold Mount, except_TimeoutError.
  unfold bindM at 1. rewrite (SendReceive_ok _ _ _ _ _ Hw Hi).
  change (firstn 1024 (c0 :: c1 :: q :: 0 :: status :: vmin :: vmaj :: extra))
    with (c0 :: c1 :: q :: 0 :: status :: vmin :: vmaj :: firstn 1017 extra).
  unfold bindM at 1. cbn [lift].
  rewrite (fromWire_MountResponse_failed _ _ _ _ _ _ _ Hs).
  unfold bindM. rewrite (status_eqb _ Hs). cbn [ret].
  rewrite !le_value_1. reflexivity.
Qed.

(** X2.  What [Mount] makes of the answer.  With status 0 and a payload of
    exactly the two version bytes and the two bytes of the retry delay,
    [Mount] records the session id of the answer's header and returns the
    status and the version.  With a nonzero status it returns the status
    and the version and leaves [session] as it was.  A success answer with
    anything after the retry delay is refused with [struct.error], the
    exchange having been counted. *)
Theorem Mount_records_session path self w c0 c1 q vmin vmaj rest
  (Hw : toWire (stamp self (new_command
          (Wire.Mount 1 2 (Some path) (Some empty) (Some empty)))) = Ok w) :
  (forall d0 d1,
     incoming (sock self) = Some [c0; c1; q; 0x00; 0; vmin; vmaj; d0; d1] :: rest ->
     Mount path self =
       (Ok (0, vmaj, vmin), remounted self w rest (Some (c0 + 256 * c1)))) /\
  (forall status extra,
     status <> 0 ->
     incoming (sock self) =
       Some (c0 :: c1 :: q :: 0x00 :: status :: vmin :: vmaj :: extra) :: rest ->
     Mount path self = (Ok (status, vmaj, vmin), exchanged self w rest)) /\
  (forall d0 d1 x extra,
     incoming (sock self) =
       Some (c0 :: c1 :: q :: 0x00 :: 0 :: vmin :: vmaj :: d0 :: d1 :: x :: extra)
       :: rest ->
     Mount path self = (Raise StructError, exchanged self w rest)).
Proof.
  split; [|split].
  - intros d0 d1 Hi. now apply Mount_accepted with (q := q) (d0 := d0) (d1 := d1).
  - intros status extra Hs Hi.
    now apply Mount_refused with (c0 := c0) (c1 := c1) (q := q) (extra := extra).
  - intros d0 d1 x extra Hi. unfold Mount, except_TimeoutError.
    unfold bindM at 1. rewrite (SendReceive_ok _ _ _ _ _ Hw Hi).
    change (firstn 1024
              (c0 :: c1 :: q :: 0 :: 0 :: vmin :: vmaj :: d0 :: d1 :: x :: extra))
      with (c0 :: c1 :: q :: 0 :: 0 :: vmin :: vmaj :: d0 :: d1 :: x
            :: firstn 1014 extra).
    unfold bindM at 1. cbn [lift]. rewrite fromWire_MountResponse_long.
    reflexivity.
Qed.

Lemma fromWire_UmountResponse c0 c1 q status payload :
  fromWire (new_response 0 UmountResponse)
    (c0 :: c1 :: q :: 0x01 :: status :: payload) =
  Ok (Response (mkHeader (Some (le_value [c0; c1])) (le_value [q]) 0x01)
        (le_value [status]) UmountResponse).
Proof. reflexivity. Qed.

Lemma Umount_answered self w c0 c1 q status payload rest :
  toWire (stamp self (new_command Wire.Umount)) = Ok w ->
  incoming (sock self) =
    Some (c0 :: c1 :: q :: 0x01 :: status :: payload) :: rest ->
  Umount self = (Ok status, remounted self w rest None).
Proof.
  intros Hw Hi. unfold Umount, bindM.
  rewrite (exchange_ok _ _ _ _ _ _ _ Hw Hi), firstn_1024.
  rewrite fromWire_UmountResponse. cbn [lift setSession ret reply_of].
  rewrite le_value_1. reflexivity.
Qed.

(** X3.  [Umount] forgets the session as soon as an answer arrives, whatever
    its status: also when the server refuses, the object is unmounted
    afterwards.  When no answer arrives, [TimeoutError] is raised and the
    session id is kept. *)
Theorem Umount_clears_session self w
  (Hw : toWire (stamp self (new_command Wire.Umount)) = Ok w) :
  (forall c0 c1 q status payload rest,
     incoming (sock self) =
       Some (c0 :: c1 :: q :: 0x01 :: status :: payload) :: rest ->
     Umount self = (Ok status, remounted self w rest None)) /\
  (timed_out self = true ->
   Umount self = (Raise TimeoutError, unanswered self w) /\
   session (unanswered self w) = session self).
Proof.
  split.
  - intros c0 c1 q status payload rest Hi.
    now apply Umount_answered with (c0 := c0) (c1 := c1) (q := q) (payload := payload).
  - intros Ht. split; [|reflexivity]. unfold Umount, bindM.
    now rewrite (exchange_timeout _ _ _ _ _ Hw Ht).
Qed.
End MountFacts.

Module FailureFacts.
Import Struct Wire Session Engine SessionFacts SoundFacts MountFacts.

Lemma version_gate_table :
  forallb (fun n => Bool.eqb (str_lt (version_string 1 (Z.of_nat n)) [49; 46; 50])
                      (sorts_below_1_2 (Z.of_nat n)))
    (seq 0 256) = true.
Proof. vm_compute. reflexivity. Qed.

Lemma version_gate minor :
  0 <= minor < 256 ->
  str_lt (version_string 1 minor) [49; 46; 50] = sorts_below_1_2 minor.
Proof.
  intros H. pose proof version_gate_table as T.
  rewrite forallb_forall in T.
  specialize (T (Z.to_nat minor)). rewrite Z2Nat.id in T by lia.
  apply eqb_prop, T, in_seq. lia.
Qed.

(** X4.  The test [self.version < "1.2"] compares strings.  For a server
    that announces version 1.[minor], [OpenDirX] answers
    [(None, None, None)] without sending anything, and [ListDirX] returns
    [None], exactly when [minor] is 0 or 1, or 10 to 19, or 100 to 199:
    the servers 1.10 to 1.19 and 1.100 to 1.199 are taken not to support
    the extended listing. *)
Theorem OpenDirX_version_gate self minor path pattern dirOptions sortOptions maxResults
  (Hm : 0 <= minor < 256)
  (Hv : version self = version_string 1 minor) :
  (sorts_below_1_2 minor = true ->
   OpenDirX path pattern dirOptions sortOptions maxResults self
     = (Ok (None, None, None), self) /\
   ListDirX path pattern dirOptions sortOptions maxResults self = (Ok None, self)) /\
  (sorts_below_1_2 minor = false ->
   OpenDirX path pattern dirOptions sortOptions maxResults self =
     (r <~ exchange (Wire.OpenDirX (Some path) pattern dirOptions sortOptions maxResults)
             255 (OpenDirXResponse None 0 None) ;;
      match r with
      | Response _ reply (OpenDirXResponse handle entries _) =>
          ret (Some reply, handle, Some entries)
      | _ => raise AttributeError
      end) self).
Proof.
  split; intros Hb.
  - assert (OpenDirX path pattern dirOptions sortOptions maxResults self
            = (Ok (None, None, None), self)) as E.
    { unfold OpenDirX. now rewrite Hv, (version_gate _ Hm), Hb. }
    split; [exact E|]. unfold ListDirX, bindM. now rewrite E.
  - unfold OpenDirX. now rewrite Hv, (version_gate _ Hm), Hb.
Qed.

Lemma fromWire_OpenDirResponse_failed c0 c1 q status payload :
  status <> 0 ->
  fromWire (new_response 255 (OpenDirResponse None))
    (c0 :: c1 :: q :: 0x10 :: status :: payload) =
  Ok (Response (mkHeader (Some (le_value [c0; c1])) (le_value [q]) 0x10)
        (le_value [status]) (OpenDirResponse None)).
Proof.
  intros Hs. unfold fromWire, new_response.
  cbn [app firstn skipn unpack length calcsize width Nat.add Nat.eqb
       unpack_fields unpack1 bind tuple3 TnfsCmd TnfsCmd_response].
  replace (le_value [0x10] =? 0x10) with true by reflexivity.
  cbn [negb Wire.setSession setRetry hdr with_hdr do_ExtraFromWire firstn skipn
       unpack length calcsize width Nat.add Nat.eqb unpack_fields unpack1
       bind item0 setReply do_DataFromWire response_DataFromWire
       conn_id retry command].
  rewrite (status_eqb _ Hs). reflexivity.
Qed.

Lemma fromWire_OpenResponse_failed c0 c1 q status payload :
  status <> 0 ->
  fromWire (new_response 0 (OpenResponse None))
    (c0 :: c1 :: q :: 0x29 :: status :: payload) =
  Ok (Response (mkHeader (Some (le_value [c0; c1])) (le_value [q]) 0x29)
        (le_value [status]) (OpenResponse None)).
Proof.
  intros Hs. unfold fromWire, new_response.
  cbn [app firstn skipn unpack length calcsize width Nat.add Nat.eqb
       unpack_fields unpack1 bind tuple3 TnfsCmd TnfsCmd_response].
  replace (le_value [0x29] =? 0x29) with true by reflexivity.
  cbn [negb Wire.setSession setRetry hdr with_hdr do_ExtraFromWire firstn skipn
       unpack length calcsize width Nat.add Nat.eqb unpack_fields unpack1
       bind item0 setReply do_DataFromWire response_DataFromWire
       conn_id retry command].
  rewrite (status_eqb _ Hs). reflexivity.
Qed.

Lemma Open_failed path flags mode self w c0 c1 q status payload rest :
  status <> 0 ->
  toWire (stamp self (new_command (Wire.Open flags mode (Some path)))) = Ok w ->
  incoming (sock self) = Some (c0 :: c1 :: q :: 0x29 :: status :: payload) :: rest ->
  Open path flags mode self = (Ok (status, None), exchanged self w rest).
Proof.
  intros Hs Hw Hi. unfold Open, bindM.
  rewrite (exchange_ok _ _ _ _ _ _ _ Hw Hi), firstn_1024.
  rewrite (fromWire_OpenResponse_failed _ _ _ _ _ Hs). cbn [lift ret].
  now rewrite le_value_1.
Qed.

(** X5.  When the server refuses [OpenDir], [ListDir] returns the empty
    list, the same value as for an empty directory: the status is lost.
    Only the [OpenDir] request has been sent, neither [ReadDir] nor
    [CloseDir] follows, and the datagrams that come later stay unread. *)
Theorem ListDir_hides_open_failure path self w c0 c1 q status payload rest
  (Hs : status <> 0)
  (Hw : toWire (stamp self (new_command (Wire.OpenDir (Some path)))) = Ok w)
  (Hi : incoming (sock self) =
          Some (c0 :: c1 :: q :: 0x10 :: status :: payload) :: rest) :
  ListDir path self = (Ok [], exchanged self w rest).
Proof.
  unfold ListDir, OpenDir. unfold bindM at 1 2.
  rewrite (exchange_ok _ _ _ _ _ _ _ Hw Hi), firstn_1024.
  rewrite (fromWire_OpenDirResponse_failed _ _ _ _ _ Hs). cbn [lift ret].
  unfold bindM, turns. cbn [ListDir_loop].
  rewrite (status_eqb _ Hs). reflexivity.
Qed.

(** X6.  When the server refuses [Open], [GetFile] returns [None] and
    [PutFile] returns having sent nothing but the [Open] request: no
    [Read], [Write] or [Close] follows.  [PutFile] opens with the flags
    write-only, create and truncate (0x0302) and mode 0o600. *)
Theorem GetFile_PutFile_stop_at_open_failure path self c0 c1 q status payload rest
  (Hs : status <> 0)
  (Hi : incoming (sock self) =
          Some (c0 :: c1 :: q :: 0x29 :: status :: payload) :: rest) :
  (forall w,
     toWire (stamp self (new_command (Wire.Open 0 0 (Some path)))) = Ok w ->
     GetFile path self = (Ok None, exchanged self w rest)) /\
  (forall w data,
     toWire (stamp self (new_command (Wire.Open 0x0302 384 (Some path)))) = Ok w ->
     PutFile path data self = (Ok tt, exchanged self w rest)).
Proof.
  split.
  - intros w Hw. unfold GetFile. unfold bindM at 1.
    now rewrite (Open_failed _ _ _ _ _ _ _ _ _ _ _ Hs Hw Hi).
  - intros w data Hw. unfold PutFile. unfold bindM at 1.
    now rewrite (Open_failed _ _ _ _ _ _ _ _ _ _ _ Hs Hw Hi).
Qed.
End FailureFacts.

Module TransferFacts.
Import Struct Wire Session Engine SessionFacts SoundFacts MountFacts CstrFacts.

Lemma requests_cons self c cs ws :
  requests self (c :: cs) = Ok ws ->
  exists w ws',
    ws = w :: ws' /\
    toWire (stamp self (new_command c)) = Ok w /\
    forall rest, requests (exchanged self w rest) cs = Ok ws'.
Proof.
  unfold requests. cbn [wires]. fold (stamp self (new_command c)).
  destruct (toWire (stamp self (new_command c))) as [w|e]; [|discriminate].
  cbn [bind].
  destruct (wires (session self) ((sequence self + 1) mod 256) cs)
    as [ws'|e] eqn:E; [|discriminate].
  cbn [bind]. intros H. apply UTF8Facts.Ok_inj in H. subst ws.
  exists w, ws'. repeat split. intros rest. exact E.
Qed.

Lemma after_one self w rest : exchanged self w rest = after self [w] rest.
Proof. reflexivity. Qed.

Lemma after_cons self w r ws rest :
  after (exchanged self w r) ws rest = after self (w :: ws) rest.
Proof.
  unfold after, exchanged. cbn [session sequence version sock sent].
  f_equal.
  - rewrite Zplus_mod_idemp_l. f_equal. unfold len. cbn [length]. lia.
  - now rewrite <- app_assoc.
Qed.

Lemma Read_exchange fd n self w d dg rest :
  toWire (stamp self (new_command (Wire.Read fd (Some n)))) = Ok w ->
  read_reply d dg ->
  incoming (sock self) = dg :: rest ->
  exists r',
    reply_of r' = 0 /\
    exchange (Wire.Read fd (Some n)) 0 (ReadResponse None None) self =
      (Ok r', exchanged self w rest) /\
    exists h s, r' = Response h 0 (ReadResponse s (Some d)).
Proof.
  intros Hw (Hd & s0 & s1 & c0 & c1 & q & ->) Hi.
  rewrite (exchange_ok _ _ _ _ _ _ _ Hw Hi).
  change (firstn 1024 (c0 :: c1 :: q :: 33 :: 0 :: s0 :: s1 :: d))
    with (c0 :: c1 :: q :: 33 :: 0 :: s0 :: s1 :: firstn 1017 d).
  rewrite firstn_all2 by assumption.
  rewrite fromWire_ReadResponse_success.
  eexists. split; [|split; [reflexivity|]]; [reflexivity|eauto].
Qed.

Lemma Read_refusal fd n self w status payload dg rest :
  toWire (stamp self (new_command (Wire.Read fd (Some n)))) = Ok w ->
  status <> 0 ->
  reply_with 0x21 status payload dg ->
  incoming (sock self) = dg :: rest ->
  exchange (Wire.Read fd (Some n)) 0 (ReadResponse None None) self =
    (Ok (Response (mkHeader (Some (match dg with
                                   | Some (c0 :: c1 :: _) => le_value [c0; c1]
                                   | _ => 0 end))
                     (match dg with Some (_ :: _ :: q :: _) => le_value [q] | _ => 0 end)
                     0x21)
           status (ReadResponse None None)),
     exchanged self w rest).
Proof.
  intros Hw Hs (c0 & c1 & q & ->) Hi.
  rewrite (exchange_ok _ _ _ _ _ _ _ Hw Hi), firstn_1024.
  rewrite (fromWire_ReadResponse_failure _ _ _ _ _ Hs).
  now rewrite (le_value_1 status).
Qed.

Lemma len_concat_nonneg (ds : list bytes) : 0 <= len (concat ds).
Proof. apply len_nonneg. Qed.

Lemma Read_loop_filled : forall front dgs last dg fuel fd size acc r self ws rest,
  Forall2 read_reply front dgs ->
  read_reply last dg ->
  len (concat front) < size <= len (concat front) + len last ->
  requests self (Read_requests fd size front) = Ok ws ->
  incoming (sock self) = dgs ++ dg :: rest ->
  exists r',
    Read_loop (S (length front) + fuel) fd size acc r self =
      (Ok (acc ++ concat front ++ last, Some r'), after self ws rest).
Proof.
  induction front as [|d front IH];
    intros dgs last dg fuel fd size acc r self ws rest F L Hsz Hr Hi.
  - inversion F; subst. cbn [concat app length Nat.add] in *.
    change (len []) with 0 in Hsz.
    destruct (requests_cons _ _ _ _ Hr) as (w & ws' & -> & Hw & Hrest).
    specialize (Hrest rest). unfold requests in Hrest. cbn [wires] in Hrest.
    apply UTF8Facts.Ok_inj in Hrest. subst ws'.
    cbn [Read_loop]. replace (0 <? size) with true by (symmetry; apply Z.ltb_lt; lia).
    unfold bindM at 1.
    destruct (Read_exchange _ _ _ _ _ _ _ Hw L Hi) as (r' & Hr' & E & h & s & ->).
    rewrite E. cbn [Z.eqb].
    destruct fuel; cbn [Read_loop];
      replace (0 <? size - len last) with false
        by (symmetry; apply Z.ltb_ge; lia);
      eexists; reflexivity.
  - inversion F as [|? dg0 ? dgs' Hd F']; subst.
    change (S (length (d :: front)) + fuel)%nat
      with (S (S (length front) + fuel)).
    set (n := (S (length front) + fuel)%nat).
    cbn [concat] in *. rewrite len_app in Hsz.
    pose proof (len_nonneg d). pose proof (len_concat_nonneg front).
    cbn [Read_requests] in Hr.
    destruct (requests_cons _ _ _ _ Hr) as (w & ws' & -> & Hw & Hrest).
    cbn [app] in Hi.
    cbn [Read_loop]. replace (0 <? size) with true by (symmetry; apply Z.ltb_lt; lia).
    unfold bindM at 1.
    destruct (Read_exchange _ _ _ _ _ _ _ Hw Hd Hi) as (r' & Hr' & E & h & s & ->).
    rewrite E. cbn [Z.eqb].
    destruct (IH dgs' last dg fuel fd (size - len d) (acc ++ d)
                (Some (Response h 0 (ReadResponse s (Some d))))
                (exchanged self w (dgs' ++ dg :: rest)) ws' rest F' L)
      as (r'' & E'); [lia|apply Hrest|reflexivity|].
    subst n. rewrite E', after_cons, <- !app_assoc.
    eexists; reflexivity.
Qed.

Lemma Read_loop_refused : forall ds dgs status payload dg fuel fd size acc r self ws rest,
  Forall2 read_reply ds dgs ->
  status <> 0 ->
  reply_with 0x21 status payload dg ->
  len (concat ds) < size ->
  requests self (Read_requests fd size ds) = Ok ws ->
  incoming (sock self) = dgs ++ dg :: rest ->
  exists r',
    reply_of r' = status /\
    Read_loop (S (length ds) + fuel) fd size acc r self =
      (Ok (acc ++ concat ds, Some r'), after self ws rest).
Proof.
  induction ds as [|d ds IH];
    intros dgs status payload dg fuel fd size acc r self ws rest F Hst L Hsz Hr Hi.
  - inversion F; subst. cbn [concat app length Nat.add] in *.
    change (len []) with 0 in Hsz.
    destruct (requests_cons _ _ _ _ Hr) as (w & ws' & -> & Hw & Hrest).
    specialize (Hrest rest). unfold requests in Hrest. cbn [wires] in Hrest.
    apply UTF8Facts.Ok_inj in Hrest. subst ws'.
    cbn [Read_loop]. replace (0 <? size) with true by (symmetry; apply Z.ltb_lt; lia).
    unfold bindM at 1.
    rewrite (Read_refusal _ _ _ _ _ _ _ _ Hw Hst L Hi).
    replace (status =? 0) with false by (symmetry; now apply Z.eqb_neq).
    rewrite app_nil_r. eexists. split; [|reflexivity]. reflexivity.
  - inversion F as [|? dg0 ? dgs' Hd F']; subst.
    change (S (length (d :: ds)) + fuel)%nat
      with (S (S (length ds) + fuel)).
    set (n := (S (length ds) + fuel)%nat).
    cbn [concat] in *. rewrite len_app in Hsz.
    pose proof (len_nonneg d). pose proof (len_concat_nonneg ds).
    cbn [Read_requests] in Hr.
    destruct (requests_cons _ _ _ _ Hr) as (w & ws' & -> & Hw & Hrest).
    cbn [app] in Hi.
    cbn [Read_loop]. replace (0 <? size) with true by (symmetry; apply Z.ltb_lt; lia).
    unfold bindM at 1.
    destruct (Read_exchange _ _ _ _ _ _ _ Hw Hd Hi) as (r' & Hr' & E & h & s & ->).
    rewrite E. cbn [Z.eqb].
    destruct (IH dgs' status payload dg fuel fd (size - len d) (acc ++ d)
                (Some (Response h 0 (ReadResponse s (Some d))))
                (exchanged self w (dgs' ++ dg :: rest)) ws' rest F' Hst L)
      as (r'' & Hr'' & E'); [lia|apply Hrest|reflexivity|].
    subst n. rewrite E', after_cons, <- !app_assoc.
    eexists; split; [exact Hr''|reflexivity].
Qed.

Lemma Read_filled fd size self front last dgs dg ws rest :
  Forall2 read_reply front dgs ->
  read_reply last dg ->
  len (concat front) < size <= len (concat front) + len last ->
  requests self (Read_requests fd size front) = Ok ws ->
  incoming (sock self) = dgs ++ dg :: rest ->
  Read fd size self = (Ok (0, Some (concat front ++ last)), after self ws rest).
Proof.
  intros F L Hsz Hr Hi.
  unfold Read, bindM, turns. rewrite Hi, length_app.
  rewrite <- (Forall2_length F). cbn [length].
  replace (S (length front + S (length rest)))
    with (S (length front) + S (length rest))%nat by lia.
  destruct (Read_loop_filled front dgs last dg (S (length rest)) fd size [] None
              self ws rest F L Hsz Hr Hi) as (r' & E).
  rewrite E. cbn [app].
  pose proof (len_concat_nonneg front). pose proof (len_nonneg last).
  replace (0 <? len (concat front ++ last)) with true
    by (symmetry; apply Z.ltb_lt; rewrite len_app; lia).
  reflexivity.
Qed.

Lemma Read_refused fd size self ds status payload dgs dg ws rest :
  Forall2 read_reply ds dgs ->
  status <> 0 ->
  reply_with 0x21 status payload dg ->
  len (concat ds) < size ->
  requests self (Read_requests fd size ds) = Ok ws ->
  incoming (sock self) = dgs ++ dg :: rest ->
  Read fd size self =
    (Ok (if 0 <? len (concat ds) then (0, Some (concat ds)) else (status, None)),
     after self ws rest).
Proof.
  intros F Hst L Hsz Hr Hi.
  unfold Read, bindM, turns. rewrite Hi, length_app.
  rewrite <- (Forall2_length F). cbn [length].
  replace (S (length ds + S (length rest)))
    with (S (length ds) + S (length rest))%nat by lia.
  destruct (Read_loop_refused ds dgs status payload dg (S (length rest)) fd size
              [] None self ws rest F Hst L Hsz Hr Hi) as (r' & Hr' & E).
  rewrite E. cbn [app]. destruct (0 <? len (concat ds)); [reflexivity|].
  cbn [ret]. now rewrite Hr'.
Qed.

(** X7.  [Read] returns all the data of the replies it received, in order.
    - When the replies bring [size] bytes or more, [Read] stops at the
      first reply that completes them and returns status 0 with the data
      of all replies: it may be more than [size] bytes.
    - When a reply with a nonzero status comes first, [Read] returns
      status 0 and the data received before it, if there are any (the
      status is then lost), and otherwise that status and no data.
    Each request asks for what is still missing, at most 512 bytes; the
    size field, the session id and the sequence number of the replies are
    not looked at. *)
Theorem Read_returns_received fd size self (dgs rest : list (option bytes)) :
  (forall front last dg ws,
     Forall2 read_reply front dgs ->
     read_reply last dg ->
     len (concat front) < size <= len (concat front) + len last ->
     requests self (Read_requests fd size front) = Ok ws ->
     incoming (sock self) = dgs ++ dg :: rest ->
     Read fd size self =
       (Ok (0, Some (concat front ++ last)), after self ws rest)) /\
  (forall ds status payload dg ws,
     Forall2 read_reply ds dgs ->
     status <> 0 ->
     reply_with 0x21 status payload dg ->
     len (concat ds) < size ->
     requests self (Read_requests fd size ds) = Ok ws ->
     incoming (sock self) = dgs ++ dg :: rest ->
     Read fd size self =
       (Ok (if 0 <? len (concat ds) then (0, Some (concat ds)) else (status, None)),
        after self ws rest)).
Proof.
  split.
  - intros. now apply Read_filled with (dgs := dgs) (dg := dg).
  - intros. now apply Read_refused with (payload := payload) (dgs := dgs) (dg := dg).
Qed.
End TransferFacts.

Module WriteFacts.
Import Struct Wire Session Engine SessionFacts SoundFacts MountFacts CstrFacts
  TransferFacts.

Lemma fromWire_WriteResponse_failure c0 c1 q status payload :
  status <> 0 ->
  fromWire (new_response 0 (WriteResponse None))
    (c0 :: c1 :: q :: 0x22 :: status :: payload) =
  Ok (Response (mkHeader (Some (le_value [c0; c1])) q 0x22)
        status (WriteResponse None)).
Proof.
  intros Hs. unfold fromWire, new_response.
  cbn [app firstn skipn unpack length calcsize width Nat.add Nat.eqb
       unpack_fields unpack1 bind tuple3 TnfsCmd TnfsCmd_response].
  replace (le_value [0x22] =? 0x22) with true by reflexivity.
  cbn [negb Wire.setSession setRetry hdr with_hdr do_ExtraFromWire firstn skipn
       unpack length calcsize width Nat.add Nat.eqb unpack_fields unpack1
       bind item0 setReply do_DataFromWire response_DataFromWire
       conn_id retry command].
  rewrite (status_eqb _ Hs), !le_value_1. reflexivity.
Qed.

Lemma Write_exchange fd d self w n dg rest :
  toWire (stamp self (new_command (Wire.Write fd (Some d)))) = Ok w ->
  ack_reply n dg ->
  incoming (sock self) = dg :: rest ->
  exists h,
    exchange (Wire.Write fd (Some d)) 0 (WriteResponse None) self =
      (Ok (Response h 0 (WriteResponse (Some n))), exchanged self w rest).
Proof.
  intros Hw (Hn & n0 & n1 & -> & c0 & c1 & q & ->) Hi.
  rewrite (exchange_ok _ _ _ _ _ _ _ Hw Hi).
  change (firstn 1024 [c0; c1; q; 34; 0; n0; n1]) with [c0; c1; q; 34; 0; n0; n1].
  rewrite fromWire_WriteResponse, (le_value_2 n0 n1). eauto.
Qed.

Lemma Write_refusal fd d self w status payload dg rest :
  toWire (stamp self (new_command (Wire.Write fd (Some d)))) = Ok w ->
  status <> 0 ->
  reply_with 0x22 status payload dg ->
  incoming (sock self) = dg :: rest ->
  exists h,
    exchange (Wire.Write fd (Some d)) 0 (WriteResponse None) self =
      (Ok (Response h status (WriteResponse None)), exchanged self w rest).
Proof.
  intros Hw Hs (c0 & c1 & q & ->) Hi.
  rewrite (exchange_ok _ _ _ _ _ _ _ Hw Hi), firstn_1024.
  rewrite (fromWire_WriteResponse_failure _ _ _ _ _ Hs). eauto.
Qed.

Lemma total_nonneg ns dgs : Forall2 ack_reply ns dgs -> 0 <= total ns.
Proof.
  induction 1 as [|n dg ns dgs (Hn & _) _ IH]; cbn [total fold_right]; [lia|].
  fold (total ns). lia.
Qed.

Lemma Write_loop_acked : forall front dgs last dg fuel fd data written r self ws rest,
  Forall2 ack_reply front dgs ->
  ack_reply last dg ->
  written + total front < len data <= written + total front + last ->
  requests self (Write_requests fd data written front) = Ok ws ->
  incoming (sock self) = dgs ++ dg :: rest ->
  exists r',
    reply_of r' = 0 /\
    Write_loop (S (length front) + fuel) fd data written r self =
      (Ok (written + total front + last, Some r'), after self ws rest).
Proof.
  induction front as [|a front IH];
    intros dgs last dg fuel fd data written r self ws rest F L Hsz Hr Hi.
  - inversion F; subst. cbn [total fold_right app length Nat.add] in *.
    destruct (requests_cons _ _ _ _ Hr) as (w & ws' & -> & Hw & Hrest).
    specialize (Hrest rest). unfold requests in Hrest. cbn [wires] in Hrest.
    apply UTF8Facts.Ok_inj in Hrest. subst ws'.
    cbn [Write_loop].
    replace (written <? len data) with true by (symmetry; apply Z.ltb_lt; lia).
    unfold bindM at 1.
    destruct (Write_exchange _ _ _ _ _ _ _ Hw L Hi) as (h & E).
    rewrite E. cbn [Z.eqb negb].
    rewrite Write_loop_done by lia.
    eexists. split; [|rewrite Z.add_0_r; reflexivity]. reflexivity.
  - inversion F as [|? dg0 ? dgs' Ha F']; subst.
    change (S (length (a :: front)) + fuel)%nat
      with (S (S (length front) + fuel)).
    set (n := (S (length front) + fuel)%nat).
    cbn [total fold_right] in Hsz. fold (total front) in Hsz.
    pose proof (total_nonneg _ _ F'). destruct Ha as (Ha0 & Ha).
    cbn [Write_requests] in Hr.
    destruct (requests_cons _ _ _ _ Hr) as (w & ws' & -> & Hw & Hrest).
    cbn [app] in Hi.
    cbn [Write_loop].
    replace (written <? len data) with true by (symmetry; apply Z.ltb_lt; lia).
    unfold bindM at 1.
    destruct (Write_exchange _ _ _ _ _ _ _ Hw (conj Ha0 Ha) Hi) as (h & E).
    rewrite E. cbn [Z.eqb negb].
    destruct (IH dgs' last dg fuel fd data (written + a)
                (Some (Response h 0 (WriteResponse (Some a))))
                (exchanged self w (dgs' ++ dg :: rest)) ws' rest F' L)
      as (r'' & Hr'' & E'); [lia|apply Hrest|reflexivity|].
    subst n. rewrite E', after_cons.
    exists r''. split; [exact Hr''|].
    cbn [total fold_right]. fold (total front).
    now replace (written + (a + total front) + last)
      with (written + a + total front + last) by lia.
Qed.

Lemma Write_loop_refused : forall ns dgs status payload dg fuel fd data written r self ws rest,
  Forall2 ack_reply ns dgs ->
  status <> 0 ->
  reply_with 0x22 status payload dg ->
  written + total ns < len data ->
  requests self (Write_requests fd data written ns) = Ok ws ->
  incoming (sock self) = dgs ++ dg :: rest ->
  exists r',
    reply_of r' = status /\
    Write_loop (S (length ns) + fuel) fd data written r self =
      (Ok (written + total ns, Some r'), after self ws rest).
Proof.
  induction ns as [|a ns IH];
    intros dgs status payload dg fuel fd data written r self ws rest F Hst L Hsz Hr Hi.
  - inversion F; subst. cbn [total fold_right app length Nat.add] in *.
    destruct (requests_cons _ _ _ _ Hr) as (w & ws' & -> & Hw & Hrest).
    specialize (Hrest rest). unfold requests in Hrest. cbn [wires] in Hrest.
    apply UTF8Facts.Ok_inj in Hrest. subst ws'.
    cbn [Write_loop].
    replace (written <? len data) with true by (symmetry; apply Z.ltb_lt; lia).
    unfold bindM at 1.
    destruct (Write_refusal _ _ _ _ _ _ _ _ Hw Hst L Hi) as (h & E).
    rewrite E.
    replace (status =? 0) with false by (symmetry; now apply Z.eqb_neq).
    cbn [negb]. eexists. split; [|rewrite Z.add_0_r; reflexivity]. reflexivity.
  - inversion F as [|? dg0 ? dgs' Ha F']; subst.
    change (S (length (a :: ns)) + fuel)%nat
      with (S (S (length ns) + fuel)).
    set (n := (S (length ns) + fuel)%nat).
    cbn [total fold_right] in Hsz. fold (total ns) in Hsz.
    pose proof (total_nonneg _ _ F'). destruct Ha as (Ha0 & Ha).
    cbn [Write_requests] in Hr.
    destruct (requests_cons _ _ _ _ Hr) as (w & ws' & -> & Hw & Hrest).
    cbn [app] in Hi.
    cbn [Write_loop].
    replace (written <? len data) with true by (symmetry; apply Z.ltb_lt; lia).
    unfold bindM at 1.
    destruct (Write_exchange _ _ _ _ _ _ _ Hw (conj Ha0 Ha) Hi) as (h & E).
    rewrite E. cbn [Z.eqb negb].
    destruct (IH dgs' status payload dg fuel fd data (written + a)
                (Some (Response h 0 (WriteResponse (Some a))))
                (exchanged self w (dgs' ++ dg :: rest)) ws' rest F' Hst L)
      as (r'' & Hr'' & E'); [lia|apply Hrest|reflexivity|].
    subst n. rewrite E', after_cons.
    exists r''. split; [exact Hr''|].
    cbn [total fold_right]. fold (total ns).
    now replace (written + (a + total ns)) with (written + a + total ns) by lia.
Qed.

Lemma Write_acked fd data self front last dgs dg ws rest :
  Forall2 ack_reply front dgs ->
  ack_reply last dg ->
  total front < len data <= total front + last ->
  requests self (Write_requests fd data 0 front) = Ok ws ->
  incoming (sock self) = dgs ++ dg :: rest ->
  Write fd data self = (Ok (0, total front + last), after self ws rest).
Proof.
  intros F L Hsz Hr Hi.
  unfold Write, bindM, turns. rewrite Hi, length_app.
  rewrite <- (Forall2_length F). cbn [length].
  replace (S (length front + S (length rest)))
    with (S (length front) + S (length rest))%nat by lia.
  destruct (Write_loop_acked front dgs last dg (S (length rest)) fd data 0 None
              self ws rest F L ltac:(lia) Hr Hi) as (r' & Hr' & E).
  rewrite E. cbn [ret]. now rewrite Hr'.
Qed.

Lemma Write_refused fd data self ns status payload dgs dg ws rest :
  Forall2 ack_reply ns dgs ->
  status <> 0 ->
  reply_with 0x22 status payload dg ->
  total ns < len data ->
  requests self (Write_requests fd data 0 ns) = Ok ws ->
  incoming (sock self) = dgs ++ dg :: rest ->
  Write fd data self = (Ok (status, total ns), after self ws rest).
Proof.
  intros F Hst L Hsz Hr Hi.
  unfold Write, bindM, turns. rewrite Hi, length_app.
  rewrite <- (Forall2_length F). cbn [length].
  replace (S (length ns + S (length rest)))
    with (S (length ns) + S (length rest))%nat by lia.
  destruct (Write_loop_refused ns dgs status payload dg (S (length rest)) fd data
              0 None self ws rest F Hst L ltac:(lia) Hr Hi) as (r' & Hr' & E).
  rewrite E. cbn [ret]. now rewrite Hr'.
Qed.

(** X8.  [Write] goes by what the server acknowledges.  Each request carries
    the (at most) 512 bytes that follow the bytes acknowledged so far, so
    after a short acknowledgement the rest of the piece is sent again.
    - [Write] stops at the first acknowledgement that brings the total to
      the length of the data or beyond, and returns status 0 and that
      total: it may be more than the length of the data.
    - A reply with a nonzero status stops it: [Write] returns that status
      and the total acknowledged before. *)
Theorem Write_follows_acknowledgements fd data self (dgs rest : list (option bytes)) :
  (forall front last dg ws,
     Forall2 ack_reply front dgs ->
     ack_reply last dg ->
     total front < len data <= total front + last ->
     requests self (Write_requests fd data 0 front) = Ok ws ->
     incoming (sock self) = dgs ++ dg :: rest ->
     Write fd data self = (Ok (0, total front + last), after self ws rest)) /\
  (forall ns status payload dg ws,
     Forall2 ack_reply ns dgs ->
     status <> 0 ->
     reply_with 0x22 status payload dg ->
     total ns < len data ->
     requests self (Write_requests fd data 0 ns) = Ok ws ->
     incoming (sock self) = dgs ++ dg :: rest ->
     Write fd data self = (Ok (status, total ns), after self ws rest)).
Proof.
  split.
  - intros. now apply Write_acked with (dgs := dgs) (dg := dg).
  - intros. now apply Write_refused with (payload := payload) (dgs := dgs) (dg := dg).
Qed.
End WriteFacts.

Module ListDirFacts.
Import Struct Wire Session Engine SessionFacts SoundFacts MountFacts CstrFacts
  WireFacts TransferFacts.

(** Decoding a reply: the first four bytes are the header, the fifth the
    status, the rest goes to the class. *)
Lemma fromWire_reply reply0 rsp c0 c1 q status payload :
  fromWire (new_response reply0 rsp)
    (c0 :: c1 :: q :: TnfsCmd_response rsp :: status :: payload) =
  r' <- response_DataFromWire status rsp payload ;;
  Ok (Response (mkHeader (Some (c0 + 256 * c1)) q (TnfsCmd_response rsp)) status r').
Proof.
  unfold fromWire, new_response.
  cbn [app firstn skipn unpack length calcsize width Nat.add Nat.eqb
       unpack_fields unpack1 bind tuple3 TnfsCmd].
  rewrite !le_value_1, le_value_2, Z.eqb_refl.
  cbn [negb Wire.setSession setRetry hdr with_hdr do_ExtraFromWire firstn skipn
       unpack length calcsize width Nat.add Nat.eqb unpack_fields unpack1
       bind item0 setReply do_DataFromWire conn_id retry command].
  rewrite !le_value_1. reflexivity.
Qed.

Lemma exchange_reply cmd reply0 rsp self w status payload dg rest :
  toWire (stamp self (new_command cmd)) = Ok w ->
  reply_with (TnfsCmd_response rsp) status payload dg ->
  (length payload <= 1019)%nat ->
  incoming (sock self) = dg :: rest ->
  exists h,
    exchange cmd reply0 rsp self =
      (r' <- response_DataFromWire status rsp payload ;; Ok (Response h status r'),
       exchanged self w rest).
Proof.
  intros Hw (c0 & c1 & q & ->) Hl Hi.
  rewrite (exchange_ok _ _ _ _ _ _ _ Hw Hi), firstn_1024.
  rewrite firstn_all2 by assumption. rewrite fromWire_reply. eauto.
Qed.

(** A reply whose payload the class does not look at may be of any
    length. *)
Lemma exchange_status cmd reply0 rsp self w status payload dg rest :
  toWire (stamp self (new_command cmd)) = Ok w ->
  reply_with (TnfsCmd_response rsp) status payload dg ->
  (forall data, response_DataFromWire status rsp data = Ok rsp) ->
  incoming (sock self) = dg :: rest ->
  exists h,
    exchange cmd reply0 rsp self = (Ok (Response h status rsp), exchanged self w rest).
Proof.
  intros Hw (c0 & c1 & q & ->) Hr Hi.
  rewrite (exchange_ok _ _ _ _ _ _ _ Hw Hi), firstn_1024.
  rewrite fromWire_reply, Hr. cbn [bind]. eauto.
Qed.

Lemma requests_one self c w :
  toWire (stamp self (new_command c)) = Ok w -> requests self [c] = Ok [w].
Proof.
  intros Hw. unfold requests. cbn [wires]. fold (stamp self (new_command c)).
  now rewrite Hw.
Qed.

Lemma requests_app : forall cs1 self cs2 ws,
  cs1 <> [] ->
  requests self (cs1 ++ cs2) = Ok ws ->
  exists ws1 ws2,
    ws = ws1 ++ ws2 /\
    requests self cs1 = Ok ws1 /\
    forall rest, requests (after self ws1 rest) cs2 = Ok ws2.
Proof.
  induction cs1 as [|c cs1 IH]; intros self cs2 ws Hne Hr; [contradiction|].
  cbn [app] in Hr.
  destruct (requests_cons _ _ _ _ Hr) as (w & ws' & -> & Hw & Hrest).
  destruct cs1 as [|c' cs1].
  - exists [w], ws'. split; [reflexivity|]. split; [now apply requests_one|].
    intros rest. rewrite <- after_one. apply Hrest.
  - destruct (IH (exchanged self w []) cs2 ws' ltac:(discriminate) (Hrest []))
      as (ws1 & ws2 & -> & H1 & H2).
    exists (w :: ws1), ws2. split; [reflexivity|]. split.
    + unfold requests. cbn [wires]. fold (stamp self (new_command c)).
      rewrite Hw. cbn [bind]. unfold requests in H1.
      cbn [exchanged session sequence wires] in H1.
      cbn [wires]. now rewrite H1.
    + intros rest. rewrite <- (after_cons self w []). apply H2.
Qed.

Lemma after_app self ws1 r ws2 rest :
  after (after self ws1 r) ws2 rest = after self (ws1 ++ ws2) rest.
Proof.
  unfold after. cbn [session sequence version sock sent].
  f_equal.
  - rewrite Zplus_mod_idemp_l, len_app. f_equal. lia.
  - now rewrite <- app_assoc.
Qed.

Lemma ReadDir_name h self w name dg rest :
  toWire (stamp self (new_command (Wire.ReadDir (Some h)))) = Ok w ->
  name_reply name dg ->
  incoming (sock self) = dg :: rest ->
  ReadDir (Some h) self = (Ok (0, Some name), exchanged self w rest).
Proof.
  intros Hw (e & extra & De & Fe & Hl & R) Hi. unfold ReadDir, bindM.
  destruct (exchange_reply _ 0 (ReadDirResponse None) _ _ _ _ _ _ Hw R Hl Hi)
    as (hd & ->).
  cbn [response_DataFromWire Z.eqb].
  rewrite (path_roundtrip name e extra Fe De). reflexivity.
Qed.

Lemma ReadDir_refused h self w status payload dg rest :
  toWire (stamp self (new_command (Wire.ReadDir (Some h)))) = Ok w ->
  status <> 0 ->
  reply_with 0x11 status payload dg ->
  incoming (sock self) = dg :: rest ->
  ReadDir (Some h) self = (Ok (status, None), exchanged self w rest).
Proof.
  intros Hw Hs R Hi. unfold ReadDir, bindM.
  destruct (exchange_status _ 0 (ReadDirResponse None) _ _ _ _ _ rest Hw R)
    as (hd & E); [|exact Hi|].
  - intros data. cbn [response_DataFromWire].
    now replace (status =? 0) with false by (symmetry; now apply Z.eqb_neq).
  - rewrite E. reflexivity.
Qed.

Lemma ListDir_loop_names : forall names dgs fuel h contents self ws status payload dg rest,
  Forall2 name_reply names dgs ->
  status <> 0 ->
  reply_with 0x11 status payload dg ->
  requests self (repeat (Wire.ReadDir (Some h)) (S (length names))) = Ok ws ->
  incoming (sock self) = dgs ++ dg :: rest ->
  ListDir_loop (S (S (length names)) + fuel) (Some h) 0 contents self =
    (Ok (contents ++ map Some names), after self ws rest).
Proof.
  induction names as [|name names IH];
    intros dgs fuel h contents self ws status payload dg rest F Hs R Hr Hi.
  - inversion F; subst. cbn [length repeat app map Nat.add] in *.
    destruct (requests_cons _ _ _ _ Hr) as (w & ws' & -> & Hw & Hrest).
    specialize (Hrest rest). unfold requests in Hrest. cbn [wires] in Hrest.
    apply UTF8Facts.Ok_inj in Hrest. subst ws'.
    cbn [ListDir_loop Z.eqb]. unfold bindM at 1.
    rewrite (ReadDir_refused _ _ _ _ _ _ _ Hw Hs R Hi).
    replace (status =? 0) with false by (symmetry; now apply Z.eqb_neq).
    destruct fuel; cbn [ListDir_loop];
      replace (status =? 0) with false by (symmetry; now apply Z.eqb_neq);
      now rewrite app_nil_r.
  - inversion F as [|? dg0 ? dgs' Hn F']; subst.
    change (S (S (length (name :: names))) + fuel)%nat
      with (S (S (S (length names)) + fuel)).
    set (n := (S (S (length names)) + fuel)%nat).
    cbn [length repeat] in Hr.
    destruct (requests_cons _ _ _ _ Hr) as (w & ws' & -> & Hw & Hrest).
    cbn [app] in Hi.
    cbn [ListDir_loop Z.eqb]. unfold bindM at 1.
    rewrite (ReadDir_name _ _ _ _ _ _ Hw Hn Hi). cbn [Z.eqb].
    subst n.
    rewrite (IH dgs' fuel h (contents ++ [Some name])
               (exchanged self w (dgs' ++ dg :: rest)) ws' status payload dg rest
               F' Hs R (Hrest _) eq_refl).
    rewrite after_cons, <- app_assoc. reflexivity.
Qed.

(** X9.  [ListDir] on a directory that the server lets it read.  After a
    successful [OpenDir] with handle [h], the names of the successful
    [ReadDir] replies are returned in the order received; the first reply
    with a nonzero status ends the listing, whatever that status is; the
    handle is then closed, and the status of [CloseDir] is ignored.  The
    requests are one [OpenDir], one [ReadDir] per name and one more, and
    one [CloseDir]. *)
Theorem ListDir_returns_names path self names h extra status payload cstatus cpayload
  (open_dg eof_dg close_dg : option bytes) dgs rest ws
  (Hopen : reply_with 0x10 0 (h :: extra) open_dg)
  (Hnames : Forall2 name_reply names dgs)
  (Hstatus : status <> 0)
  (Heof : reply_with 0x11 status payload eof_dg)
  (Hclose : reply_with 0x12 cstatus cpayload close_dg)
  (Hws : requests self
           (Wire.OpenDir (Some path)
            :: repeat (Wire.ReadDir (Some h)) (S (length names))
            ++ [Wire.CloseDir (Some h)]) = Ok ws)
  (Hi : incoming (sock self) = open_dg :: dgs ++ eof_dg :: close_dg :: rest) :
  ListDir path self = (Ok (map Some names), after self ws rest).
Proof.
  destruct (requests_cons _ _ _ _ Hws) as (w & ws' & -> & Hw & Hrest).
  unfold ListDir, OpenDir. unfold bindM at 1 2.
  destruct Hopen as (c0 & c1 & q & ->).
  rewrite (exchange_ok _ _ _ _ _ _ _ Hw Hi), firstn_1024.
  rewrite (fromWire_reply 255 (OpenDirResponse None)).
  cbn [response_DataFromWire Z.eqb firstn unpack length calcsize width Nat.add
       Nat.eqb unpack_fields unpack1 bind item0 lift ret].
  rewrite le_value_1.
  set (self1 := exchanged self w (dgs ++ eof_dg :: close_dg :: rest)).
  destruct (requests_app (repeat (Wire.ReadDir (Some h)) (S (length names)))
              self1 [Wire.CloseDir (Some h)] ws' ltac:(discriminate) (Hrest _))
    as (ws1 & ws2 & -> & H1 & H2).
  unfold bindM at 1. unfold turns.
  replace (S (length (incoming (sock self1))))
    with (S (S (length names)) + S (length rest))%nat.
  2:{ subst self1. cbn [exchanged sock incoming]. rewrite length_app.
      rewrite <- (Forall2_length Hnames). cbn [length]. lia. }
  rewrite (ListDir_loop_names names dgs (S (length rest)) h [] self1 ws1
             status payload eof_dg (close_dg :: rest) Hnames Hstatus Heof H1 eq_refl).
  cbn [app]. unfold bindM at 1. cbn [close_handle]. unfold CloseDir, bindM.
  specialize (H2 (close_dg :: rest)).
  destruct (requests_cons _ _ _ _ H2) as (wc & wn & -> & Hwc & Hn).
  specialize (Hn rest). unfold requests in Hn. cbn [wires] in Hn.
  apply UTF8Facts.Ok_inj in Hn. subst wn.
  destruct (exchange_status _ 0 CloseDirResponse _ _ _ _ _ rest Hwc Hclose)
    as (hd & E); [reflexivity|reflexivity|].
  rewrite E. cbn [ret]. subst self1.
  rewrite after_one, after_app. rewrite after_cons. reflexivity.
Qed.
End ListDirFacts.

Module GetFileFacts.
Import Struct Wire Session Engine SessionFacts SoundFacts MountFacts CstrFacts
  WireFacts TransferFacts ListDirFacts.

Lemma join_Some chunks : join (map Some chunks) = Ok (concat chunks).
Proof.
  induction chunks as [|c chunks IH]; cbn [map join concat]; [reflexivity|].
  now rewrite IH.
Qed.

Lemma Forall2_snoc {A B} (P : A -> B -> Prop) xs x ys :
  Forall2 P (xs ++ [x]) ys ->
  exists ys' y, ys = ys' ++ [y] /\ Forall2 P xs ys' /\ P x y.
Proof.
  intros F. apply Forall2_app_inv_l in F as (ys' & l & F1 & F2 & ->).
  inversion F2 as [|? y ? l' Hy F3]; subst. inversion F3; subst.
  exists ys', y. auto.
Qed.

(** The last turns of the loop of [GetFile]: a [Read] that a refusal cuts
    short and, when it brought data, one more that brings none. *)
Lemma GetFile_loop_last fuel fd data self ds dgs status payload eof
  status2 payload2 eof2 ws rest :
  Forall2 read_reply ds dgs ->
  len (concat ds) < 4096 ->
  status <> 0 -> reply_with 0x21 status payload eof ->
  status2 <> 0 -> reply_with 0x21 status2 payload2 eof2 ->
  requests self
    (Read_requests fd 4096 ds ++
     (if 0 <? len (concat ds) then [Wire.Read fd (Some 512)] else [])) = Ok ws ->
  incoming (sock self) =
    dgs ++ eof :: (if 0 <? len (concat ds) then [eof2] else []) ++ rest ->
  GetFile_loop (S (S fuel)) fd 0 data self =
    (Ok (data ++ (if 0 <? len (concat ds) then [Some (concat ds)] else [])),
     after self ws rest).
Proof.
  intros F Hsz Hs R Hs2 R2 Hr Hi.
  destruct (0 <? len (concat ds)) eqn:Hd.
  - destruct (requests_app (Read_requests fd 4096 ds) self _ ws
                ltac:(destruct ds; cbn [Read_requests]; discriminate) Hr) as (ws1 & ws2 & -> & H1 & H2).
    cbn [GetFile_loop Z.eqb]. unfold bindM at 1.
    rewrite (Read_refused fd 4096 self ds status payload dgs eof ws1
               ([eof2] ++ rest) F Hs R Hsz H1 Hi).
    rewrite Hd. cbn [Z.eqb]. unfold bindM at 1.
    specialize (H2 ([eof2] ++ rest)).
    rewrite (Read_refused fd 4096 _ [] status2 payload2 [] eof2 ws2 rest
               (Forall2_nil _) Hs2 R2 ltac:(cbn; lia) H2 eq_refl).
    cbn [concat]. change (0 <? len []) with false. cbv beta iota.
    replace (status2 =? 0) with false by (symmetry; now apply Z.eqb_neq).
    destruct fuel; cbn [GetFile_loop];
      replace (status2 =? 0) with false by (symmetry; now apply Z.eqb_neq);
      now rewrite after_app.
  - rewrite app_nil_r in Hr. cbn [app] in Hi.
    cbn [GetFile_loop Z.eqb]. unfold bindM at 1.
    rewrite (Read_refused fd 4096 self ds status payload dgs eof ws
               rest F Hs R Hsz Hr Hi).
    rewrite Hd.
    replace (status =? 0) with false by (symmetry; now apply Z.eqb_neq).
    cbn [GetFile_loop].
    replace (status =? 0) with false by (symmetry; now apply Z.eqb_neq).
    now rewrite app_nil_r.
Qed.

Lemma GetFile_loop_rounds : forall blocks dgss fuel fd data self ds dgs status payload eof
    status2 payload2 eof2 ws rest,
  Forall2 filled_round blocks dgss ->
  Forall2 read_reply ds dgs ->
  len (concat ds) < 4096 ->
  status <> 0 -> reply_with 0x21 status payload eof ->
  status2 <> 0 -> reply_with 0x21 status2 payload2 eof2 ->
  requests self
    (concat (map (fun b => Read_requests fd 4096 (fst b)) blocks) ++
     Read_requests fd 4096 ds ++
     (if 0 <? len (concat ds) then [Wire.Read fd (Some 512)] else [])) = Ok ws ->
  incoming (sock self) =
    concat dgss ++
    dgs ++ eof :: (if 0 <? len (concat ds) then [eof2] else []) ++ rest ->
  GetFile_loop (length blocks + S (S fuel)) fd 0 data self =
    (Ok (data ++ map Some (map round_data blocks) ++
         (if 0 <? len (concat ds) then [Some (concat ds)] else [])),
     after self ws rest).
Proof.
  induction blocks as [|[front last] blocks IH];
    intros dgss fuel fd data self ds dgs status payload eof status2 payload2 eof2
      ws rest FB F Hsz Hs R Hs2 R2 Hr Hi.
  - inversion FB; subst. cbn [map concat app length Nat.add] in *.
    now apply GetFile_loop_last
      with (dgs := dgs) (status := status) (payload := payload) (eof := eof)
           (status2 := status2) (payload2 := payload2) (eof2 := eof2).
  - inversion FB as [|? bdgs ? dgss' (Fb & Hb) FB']; subst.
    cbn [fst snd] in Fb, Hb.
    apply Forall2_snoc in Fb as (fdgs & ldg & -> & Ff & Fl).
    cbn [map concat fst] in Hr. rewrite <- app_assoc in Hr.
    destruct (requests_app (Read_requests fd 4096 front) self _ ws
                ltac:(destruct front; cbn [Read_requests]; discriminate) Hr) as (ws1 & ws2 & -> & H1 & H2).
    cbn [concat] in Hi. rewrite <- !app_assoc in Hi. cbn [app] in Hi.
    change (length ((front, last) :: blocks) + S (S fuel))%nat
      with (S (length blocks + S (S fuel))).
    set (n := (length blocks + S (S fuel))%nat).
    cbn [GetFile_loop Z.eqb]. unfold bindM at 1.
    rewrite (Read_filled fd 4096 self front last fdgs ldg ws1 _ Ff Fl Hb H1 Hi).
    cbn [Z.eqb]. subst n.
    etransitivity.
    { apply (IH dgss' fuel fd (data ++ [Some (concat front ++ last)]) _ ds dgs
               status payload eof status2 payload2 eof2 ws2 rest
               FB' F Hsz Hs R Hs2 R2 (H2 _) eq_refl). }
    rewrite after_app, <- app_assoc. reflexivity.
Qed.

Lemma Open_ok path flags mode self w fd dg rest :
  toWire (stamp self (new_command (Wire.Open flags mode (Some path)))) = Ok w ->
  reply_with 0x29 0 [fd] dg ->
  incoming (sock self) = dg :: rest ->
  Open path flags mode self = (Ok (0, Some fd), exchanged self w rest).
Proof.
  intros Hw R Hi. unfold Open, bindM.
  destruct (exchange_reply _ 0 (OpenResponse None) _ _ _ _ _ _ Hw R
              ltac:(cbn; lia) Hi) as (hd & ->).
  cbn [response_DataFromWire Z.eqb unpack length calcsize width Nat.add Nat.eqb
       unpack_fields unpack1 firstn bind item0].
  now rewrite le_value_1.
Qed.

Lemma Close_any fd self w status payload dg rest :
  toWire (stamp self (new_command (Wire.Close fd))) = Ok w ->
  reply_with 0x23 status payload dg ->
  incoming (sock self) = dg :: rest ->
  Close fd self = (Ok status, exchanged self w rest).
Proof.
  intros Hw R Hi. unfold Close, bindM.
  destruct (exchange_status _ 0 CloseResponse _ _ _ _ _ rest Hw R)
    as (hd & E); [reflexivity|exact Hi|].
  now rewrite E.
Qed.

(** X10.  [GetFile] returns all the data that its [Read] requests received,
    in order.  The file is opened read-only; each [Read] of 4096 bytes is
    either filled by the replies ([blocks]) or cut short by a reply with a
    nonzero status (the data [ds], fewer than 4096 bytes); a [Read] that
    brings no data at all ends the transfer, whatever the status that
    ended it.  So after a round that was cut short with data, one more
    [Read] is sent.  The descriptor is then closed, and the status of
    [Close] is ignored. *)
Theorem GetFile_returns_received path self fd blocks dgss ds dgs
  status payload status2 payload2 cstatus cpayload
  (open_dg eof eof2 close_dg : option bytes) rest ws
  (Hopen : reply_with 0x29 0 [fd] open_dg)
  (Hblocks : Forall2 filled_round blocks dgss)
  (Hlast : Forall2 read_reply ds dgs)
  (Hshort : len (concat ds) < 4096)
  (Hstatus : status <> 0) (Heof : reply_with 0x21 status payload eof)
  (Hstatus2 : status2 <> 0) (Heof2 : reply_with 0x21 status2 payload2 eof2)
  (Hclose : reply_with 0x23 cstatus cpayload close_dg)
  (Hws : requests self
           (Wire.Open 0 0 (Some path)
            :: (concat (map (fun b => Read_requests (Some fd) 4096 (fst b)) blocks)
                ++ Read_requests (Some fd) 4096 ds
                ++ (if 0 <? len (concat ds)
                    then [Wire.Read (Some fd) (Some 512)] else []))
            ++ [Wire.Close (Some fd)]) = Ok ws)
  (Hi : incoming (sock self) =
          open_dg
          :: concat dgss ++ dgs
          ++ eof :: (if 0 <? len (concat ds) then [eof2] else [])
          ++ close_dg :: rest) :
  GetFile path self =
    (Ok (Some (concat (map round_data blocks) ++ concat ds)), after self ws rest).
Proof.
  destruct (requests_cons _ _ _ _ Hws) as (w & ws' & -> & Hw & Hrest).
  unfold GetFile. unfold bindM at 1.
  rewrite (Open_ok _ _ _ _ _ _ _ _ Hw Hopen Hi).
  set (self1 := exchanged self w _).
  set (reads := concat (map (fun b => Read_requests (Some fd) 4096 (fst b)) blocks)
                ++ Read_requests (Some fd) 4096 ds
                ++ (if 0 <? len (concat ds)
                    then [Wire.Read (Some fd) (Some 512)] else [])) in *.
  assert (reads <> []) as Hne.
  { subst reads. destruct (concat (map _ blocks)); cbn [app]; [|discriminate].
    destruct ds; cbn [Read_requests app]; discriminate. }
  destruct (requests_app reads self1 [Wire.Close (Some fd)] ws' Hne (Hrest _))
    as (ws1 & ws2 & -> & H1 & H2).
  unfold bindM at 1. unfold turns.
  assert (exists fuel, S (length (incoming (sock self1)))
                       = (length blocks + S (S fuel))%nat) as (fuel & Hfuel).
  { subst self1. cbn [exchanged sock incoming].
    set (tailr := (if 0 <? len (concat ds) then [eof2] else []) ++ close_dg :: rest).
    rewrite !length_app.
    assert (length blocks <= length (concat dgss))%nat as Hlen.
    { clear - Hblocks. induction Hblocks as [|b d bs dss (Fb & _) _ IH];
        cbn [concat length]; [lia|].
      rewrite length_app. apply Forall2_length in Fb.
      rewrite length_app in Fb. cbn [length] in Fb. lia. }
    cbn [length].
    exists (length (concat dgss) - length blocks + length dgs + length tailr)%nat.
    lia. }
  rewrite Hfuel. clear Hfuel. subst self1 reads.
  rewrite (GetFile_loop_rounds blocks dgss fuel (Some fd) [] _ ds dgs
             status payload eof status2 payload2 eof2 ws1 (close_dg :: rest)
             Hblocks Hlast Hshort Hstatus Heof Hstatus2 Heof2 H1).
  2:{ reflexivity. }
  cbn [app]. unfold bindM at 1.
  specialize (H2 (close_dg :: rest)).
  destruct (requests_cons _ _ _ _ H2) as (wc & wn & -> & Hwc & Hn).
  specialize (Hn rest). unfold requests in Hn. cbn [wires] in Hn.
  apply UTF8Facts.Ok_inj in Hn. subst wn.
  rewrite (Close_any _ _ _ _ _ _ _ Hwc Hclose eq_refl).
  unfold bindM, lift.
  replace (map Some (map round_data blocks) ++
           (if 0 <? len (concat ds) then [Some (concat ds)] else []))
    with (map Some (map round_data blocks ++
                    (if 0 <? len (concat ds) then [concat ds] else []))).
  2:{ rewrite map_app. now destruct (0 <? len (concat ds)). }
  rewrite join_Some, concat_app. cbn [ret].
  rewrite after_one, after_app, after_cons.
  repeat f_equal.
  destruct (0 <? len (concat ds)) eqn:Hd; cbn [concat]; [now rewrite app_nil_r|].
  apply Z.ltb_ge in Hd. pose proof (len_nonneg (concat ds)).
  destruct (concat ds); [reflexivity|]. unfold len in Hd. cbn [length] in Hd. lia.
Qed.
End GetFileFacts.

Module SliceFacts.
Import CstrFacts.

Lemma slice_nonneg data lo hi :
  0 <= lo <= hi ->
  slice data (Some lo) (Some hi) =
    firstn (Z.to_nat (hi - lo)) (skipn (Z.to_nat lo) data).
Proof.
  intros H. unfold slice, py_index.
  pose proof (len_nonneg data) as Hl.
  destruct (Z.ltb_spec lo 0); [lia|]. destruct (Z.ltb_spec hi 0); [lia|].
  destruct (Z.le_gt_cases lo (len data)) as [Hlo|Hlo].
  - rewrite (Z.min_l lo) by lia.
    destruct (Z.le_gt_cases hi (len data)).
    + now rewrite Z.min_l by lia.
    + rewrite Z.min_r by lia.
      rewrite !firstn_all2; [reflexivity| |]; rewrite length_skipn; unfold len in *; lia.
  - rewrite !Z.min_r by lia. rewrite Z.sub_diag. cbn [Z.to_nat firstn].
    rewrite !skipn_all2 by (unfold len in *; lia). now rewrite firstn_nil.
Qed.

Lemma len_slice data lo hi :
  0 <= lo <= hi ->
  len (slice data (Some lo) (Some hi)) = Z.max 0 (Z.min hi (len data) - lo).
Proof.
  intros H. rewrite slice_nonneg by assumption.
  unfold len. rewrite length_firstn, length_skipn. lia.
Qed.

Lemma slice_slice data p c a b :
  0 <= p -> 0 <= a <= b -> b <= c ->
  slice (slice data (Some p) (Some (p + c))) (Some a) (Some b) =
  slice data (Some (p + a)) (Some (p + b)).
Proof.
  intros Hp Ha Hb. rewrite !slice_nonneg by lia.
  rewrite skipn_firstn_comm, firstn_firstn, skipn_skipn.
  f_equal; [|f_equal]; lia.
Qed.
End SliceFacts.

Module PutFileFacts.
Import Struct Wire Session Engine SessionFacts SoundFacts MountFacts CstrFacts
  WireFacts TransferFacts WriteFacts ListDirFacts GetFileFacts SliceFacts.


Lemma map_seq_from {A} (f : nat -> A) n : forall a,
  map f (seq a n) = map (fun k => f (a + k)%nat) (seq 0 n).
Proof.
  induction n as [|n IH]; intros a; cbn [seq map]; [reflexivity|].
  rewrite Nat.add_0_r. f_equal.
  rewrite IH, <- seq_shift, map_map. apply map_ext. intros k.
  f_equal. lia.
Qed.

Lemma map_seq_const {A} (f : nat -> A) x n :
  (forall k, (k < n)%nat -> f k = x) -> map f (seq 0 n) = repeat x n.
Proof.
  induction n as [|n IH]; intros H; [reflexivity|].
  rewrite seq_S, map_app, IH by (intros; apply H; lia).
  cbn [Nat.add map]. rewrite H by lia.
  change [x] with (repeat x 1). rewrite <- repeat_app. f_equal. lia.
Qed.

Lemma total_repeat x n : total (repeat x n) = x * Z.of_nat n.
Proof.
  induction n as [|n IH]; cbn [repeat total fold_right]; [lia|].
  fold (total (repeat x n)). rewrite IH. lia.
Qed.

Lemma piece_at_eq data pos k pos' k' :
  pos + 512 * Z.of_nat k = pos' + 512 * Z.of_nat k' ->
  piece_at data pos k = piece_at data pos' k'.
Proof. unfold piece_at. now intros ->. Qed.

Lemma Write_requests_repeat fd b c : forall written,
  Write_requests fd b written (repeat 512 c) =
  map (fun j => Wire.Write fd (Some (piece_at b written j))) (seq 0 (S c)).
Proof.
  induction c as [|c IH]; intros written.
  - cbn [repeat Write_requests seq map]. unfold piece_at.
    now rewrite Z.add_0_r.
  - cbn [repeat Write_requests]. rewrite IH.
    change (seq 0 (S (S c))) with (0%nat :: seq 1 (S c)).
    rewrite <- seq_shift. cbn [map]. rewrite map_map. f_equal.
    + unfold piece_at. now rewrite Z.add_0_r.
    + apply map_ext. intros k. do 2 f_equal. apply piece_at_eq. lia.
Qed.

(** [Write] on a block whose pieces the server acknowledges in full. *)
Lemma Write_block fd b self c last dgs ws rest :
  len b = 512 * Z.of_nat c + last -> 0 < last <= 512 ->
  Forall2 ack_reply (repeat 512 c ++ [last]) dgs ->
  requests self
    (map (fun j => Wire.Write fd (Some (piece_at b 0 j))) (seq 0 (S c))) = Ok ws ->
  incoming (sock self) = dgs ++ rest ->
  Write fd b self = (Ok (0, len b), after self ws rest).
Proof.
  intros Hl Hlast F Hr Hi.
  apply Forall2_snoc in F as (fdgs & ldg & -> & Ff & Fl).
  rewrite <- app_assoc in Hi. cbn [app] in Hi.
  rewrite <- Write_requests_repeat in Hr.
  rewrite (Write_acked fd b self (repeat 512 c) last fdgs ldg ws rest Ff Fl
             ltac:(rewrite total_repeat; lia) Hr Hi).
  rewrite total_repeat. now replace (512 * Z.of_nat c + last) with (len b).
Qed.

Lemma PutFile_loop_done fuel fd data pos self :
  len data <= pos -> PutFile_loop fuel fd data pos self = (Ok tt, self).
Proof.
  intros H. apply Z.ltb_ge in H. destruct fuel; cbn [PutFile_loop]; now rewrite H.
Qed.

Lemma piece_in_block data pos j :
  0 <= pos -> (j <= 7)%nat ->
  piece_at (slice data (Some pos) (Some (pos + 4096))) 0 j = piece_at data pos j.
Proof.
  intros Hp Hj. unfold piece_at. cbn [Z.add]. rewrite slice_slice by lia.
  now rewrite Z.add_assoc.
Qed.

Lemma len_piece_at data pos k :
  0 <= pos ->
  len (piece_at data pos k) =
    Z.max 0 (Z.min (pos + 512 * Z.of_nat k + 512) (len data) - (pos + 512 * Z.of_nat k)).
Proof. intros Hp. unfold piece_at. rewrite len_slice by lia. reflexivity. Qed.


Lemma PutFile_loop_honest fd data cstatus cpayload close_dg :
  reply_with 0x23 cstatus cpayload close_dg ->
  forall m fuel pos self dgs ws rest,
  0 <= pos ->
  len data - pos <= 4096 * Z.of_nat m ->
  Forall2 ack_reply
    (map (fun k => len (piece_at data pos k)) (seq 0 (remaining data pos))) dgs ->
  requests self
    (map (fun k => Wire.Write fd (Some (piece_at data pos k)))
       (seq 0 (remaining data pos))
     ++ [Wire.Close fd]) = Ok ws ->
  incoming (sock self) = dgs ++ close_dg :: rest ->
  bindM (PutFile_loop (m + fuel) fd data pos)
    (fun _ => bindM (Close fd) (fun _ => ret tt)) self =
  (Ok tt, after self ws rest).
Proof.
  intros Hclose.
  assert (forall fuel pos self dgs ws rest,
    len data <= pos ->
    Forall2 ack_reply
      (map (fun k => len (piece_at data pos k)) (seq 0 (remaining data pos))) dgs ->
    requests self
      (map (fun k => Wire.Write fd (Some (piece_at data pos k)))
         (seq 0 (remaining data pos))
       ++ [Wire.Close fd]) = Ok ws ->
    incoming (sock self) = dgs ++ close_dg :: rest ->
    bindM (PutFile_loop fuel fd data pos)
      (fun _ => bindM (Close fd) (fun _ => ret tt)) self =
    (Ok tt, after self ws rest)) as Hdone.
  { intros fuel pos self dgs ws rest Hpos F Hr Hi.
    assert (remaining data pos = 0%nat) as Hn
      by (unfold remaining; Z.div_mod_to_equations; lia).
    rewrite Hn in F, Hr. cbn [seq map app] in F, Hr.
    inversion F; subst. cbn [app] in Hi.
    unfold bindM at 1. rewrite PutFile_loop_done by assumption.
    destruct (requests_cons _ _ _ _ Hr) as (w & ws' & -> & Hw & Hrest).
    specialize (Hrest rest). unfold requests in Hrest. cbn [wires] in Hrest.
    apply UTF8Facts.Ok_inj in Hrest. subst ws'.
    unfold bindM. rewrite (Close_any _ _ _ _ _ _ _ Hw Hclose Hi).
    reflexivity. }
  induction m as [|m IH]; intros fuel pos self dgs ws rest Hpos Hm F Hr Hi.
  - apply Hdone with (dgs := dgs); auto. lia.
  - destruct (Z.le_gt_cases (len data) pos) as [Hle|Hgt].
    { apply Hdone with (dgs := dgs); auto. }
    set (b := slice data (Some pos) (Some (pos + 4096))).
    assert (len b = Z.min 4096 (len data - pos)) as Hb
      by (subst b; rewrite len_slice by lia; lia).
    set (c := Z.to_nat ((len b - 1) / 512)).
    set (last := len b - 512 * Z.of_nat c).
    assert (0 < last <= 512 /\ (c <= 7)%nat) as (Hlast & Hc)
      by (subst last c; Z.div_mod_to_equations; lia).
    assert (remaining data pos = (S c + remaining data (pos + 4096))%nat) as Hn
      by (unfold remaining; subst c; Z.div_mod_to_equations; lia).
    rewrite Hn in F, Hr. rewrite seq_app, map_app in F, Hr.
    rewrite <- app_assoc in Hr.
    apply Forall2_app_inv_l in F as (dgs1 & dgs2 & F1 & F2 & ->).
    rewrite <- app_assoc in Hi.
    pose proof (fun H => requests_app _ self _ ws H Hr) as RA.
    destruct RA as (ws1 & ws2 & -> & H1 & H2); [cbn [seq map]; discriminate|].
    change (S m + fuel)%nat with (S (m + fuel)).
    unfold bindM at 1. cbn [PutFile_loop].
    replace (pos <? len data) with true by (symmetry; apply Z.ltb_lt; lia).
    unfold bindM at 1. fold b.
    assert (Write fd b self = (Ok (0, len b), after self ws1 (dgs2 ++ close_dg :: rest)))
      as E.
    { apply Write_block with (c := c) (last := last) (dgs := dgs1).
      - subst last. lia.
      - exact Hlast.
      - replace (repeat 512 c ++ [last])
          with (map (fun k => len (piece_at data pos k)) (seq 0 (S c)));
          [exact F1|].
        rewrite seq_S, map_app. cbn [Nat.add map]. f_equal.
        + apply map_seq_const. intros k Hk. rewrite len_piece_at by lia.
          subst last c. Z.div_mod_to_equations. lia.
        + f_equal. rewrite len_piece_at by lia.
          subst last c. Z.div_mod_to_equations. lia.
      - erewrite map_ext_in; [exact H1|].
        intros k Hk. apply in_seq in Hk. cbv beta. do 2 f_equal.
        subst b. apply piece_in_block; lia.
      - exact Hi. }
    rewrite E.
    specialize (IH fuel (pos + 4096) (after self ws1 (dgs2 ++ close_dg :: rest))
                  dgs2 ws2 rest ltac:(lia) ltac:(lia)).
    unfold bindM at 1 in IH.
    etransitivity; [apply IH|].
    + rewrite map_seq_from in F2.
      erewrite map_ext_in; [exact F2|].
      intros k Hk. cbv beta. f_equal. apply piece_at_eq.
      apply in_seq in Hk.
      assert (remaining data (pos + 4096) <> 0%nat -> c = 7%nat) as Hc7
        by (unfold remaining; subst c; Z.div_mod_to_equations; lia).
      rewrite Hc7 by lia. lia.
    + specialize (H2 (dgs2 ++ close_dg :: rest)).
      rewrite map_seq_from in H2.
      erewrite (map_ext_in _ _ (seq 0 (remaining data (pos + 4096)))); [exact H2|].
      intros k Hk. cbv beta. do 2 f_equal. apply piece_at_eq.
      apply in_seq in Hk.
      assert (remaining data (pos + 4096) <> 0%nat -> c = 7%nat) as Hc7
        by (unfold remaining; subst c; Z.div_mod_to_equations; lia).
      rewrite Hc7 by lia. lia.
    + reflexivity.
    + now rewrite after_app.
Qed.

(** X11.  [PutFile] sends the data in consecutive pieces of 512 bytes, each
    of them once, when the server acknowledges every piece in full.  The
    file is opened write-only with create and truncate (flags 0x0302) and
    mode 0o600; the requests are the [Open], one [Write] per piece, in
    order, and the [Close], whose status is ignored.  For empty data
    nothing is written between [Open] and [Close]. *)
Theorem PutFile_sends_pieces path data self fd cstatus cpayload
  (open_dg close_dg : option bytes) dgs rest ws
  (Hopen : reply_with 0x29 0 [fd] open_dg)
  (Hacks : Forall2 ack_reply
             (map (fun k => len (piece data k)) (seq 0 (piece_count data))) dgs)
  (Hclose : reply_with 0x23 cstatus cpayload close_dg)
  (Hws : requests self
           (Wire.Open 0x0302 384 (Some path)
            :: map (fun k => Wire.Write (Some fd) (Some (piece data k)))
                 (seq 0 (piece_count data))
            ++ [Wire.Close (Some fd)]) = Ok ws)
  (Hi : incoming (sock self) = open_dg :: dgs ++ close_dg :: rest) :
  PutFile path data self = (Ok tt, after self ws rest).
Proof.
  destruct (requests_cons _ _ _ _ Hws) as (w & ws' & -> & Hw & Hrest).
  unfold PutFile. unfold bindM at 1.
  rewrite (Open_ok _ _ _ _ _ _ _ _ Hw Hopen Hi).
  set (m := Z.to_nat ((len data + 4095) / 4096)).
  assert (exists fuel, length data = (m + fuel)%nat) as (fuel & Hfuel).
  { exists (length data - m)%nat. subst m. unfold len.
    Z.div_mod_to_equations. lia. }
  rewrite Hfuel.
  etransitivity.
  { apply (PutFile_loop_honest (Some fd) data cstatus cpayload close_dg Hclose
             m fuel 0 _ dgs ws' rest).
    - lia.
    - subst m. Z.div_mod_to_equations. lia.
    - unfold remaining. rewrite Z.sub_0_r. exact Hacks.
    - unfold remaining. rewrite Z.sub_0_r. apply Hrest.
    - reflexivity. }
  now rewrite after_cons.
Qed.
End PutFileFacts.

Module RefusedFacts.
Import Struct Wire Session Engine SessionFacts SoundFacts MountFacts CstrFacts
  WireFacts TransferFacts WriteFacts ListDirFacts GetFileFacts SliceFacts
  PutFileFacts.


Lemma PutFile_loop_refused fd data cstatus cpayload close_dg :
  reply_with 0x23 cstatus cpayload close_dg ->
  forall m fuel pos self dgs ws rest,
  0 <= pos ->
  len data - pos <= 4096 * Z.of_nat m ->
  Forall write_refusal dgs ->
  length dgs = blocks_from data pos ->
  requests self
    (map (fun i => Wire.Write fd (Some (piece_at data pos (8 * i))))
       (seq 0 (blocks_from data pos))
     ++ [Wire.Close fd]) = Ok ws ->
  incoming (sock self) = dgs ++ close_dg :: rest ->
  bindM (PutFile_loop (m + fuel) fd data pos)
    (fun _ => bindM (Close fd) (fun _ => ret tt)) self =
  (Ok tt, after self ws rest).
Proof.
  intros Hclose.
  assert (forall fuel pos self dgs ws rest,
    len data <= pos ->
    length dgs = blocks_from data pos ->
    requests self
      (map (fun i => Wire.Write fd (Some (piece_at data pos (8 * i))))
         (seq 0 (blocks_from data pos))
       ++ [Wire.Close fd]) = Ok ws ->
    incoming (sock self) = dgs ++ close_dg :: rest ->
    bindM (PutFile_loop fuel fd data pos)
      (fun _ => bindM (Close fd) (fun _ => ret tt)) self =
    (Ok tt, after self ws rest)) as Hdone.
  { intros fuel pos self dgs ws rest Hpos Hlen Hr Hi.
    assert (blocks_from data pos = 0%nat) as Hn
      by (unfold blocks_from; Z.div_mod_to_equations; lia).
    rewrite Hn in Hlen, Hr. cbn [seq map app] in Hr.
    destruct dgs; [|discriminate Hlen]. cbn [app] in Hi.
    unfold bindM at 1. rewrite PutFile_loop_done by assumption.
    destruct (requests_cons _ _ _ _ Hr) as (w & ws' & -> & Hw & Hrest).
    specialize (Hrest rest). unfold requests in Hrest. cbn [wires] in Hrest.
    apply UTF8Facts.Ok_inj in Hrest. subst ws'.
    unfold bindM. rewrite (Close_any _ _ _ _ _ _ _ Hw Hclose Hi).
    reflexivity. }
  induction m as [|m IH]; intros fuel pos self dgs ws rest Hpos Hm F Hlen Hr Hi.
  - apply Hdone with (dgs := dgs); auto. lia.
  - destruct (Z.le_gt_cases (len data) pos) as [Hle|Hgt].
    { apply Hdone with (dgs := dgs); auto. }
    set (b := slice data (Some pos) (Some (pos + 4096))).
    assert (0 < len b) as Hb by (subst b; rewrite len_slice by lia; lia).
    assert (blocks_from data pos = S (blocks_from data (pos + 4096))) as Hn
      by (unfold blocks_from; Z.div_mod_to_equations; lia).
    rewrite Hn in Hlen, Hr.
    destruct dgs as [|dg dgs]; [discriminate Hlen|].
    inversion F as [|? ? (status & payload & Hs & R) F']; subst.
    cbn [seq map app] in Hr.
    rewrite <- seq_shift, map_map in Hr.
    destruct (requests_cons _ _ _ _ Hr) as (w & ws' & -> & Hw & Hrest).
    cbn [app] in Hi.
    change (S m + fuel)%nat with (S (m + fuel)).
    unfold bindM at 1. cbn [PutFile_loop].
    replace (pos <? len data) with true by (symmetry; apply Z.ltb_lt; lia).
    unfold bindM at 1. fold b.
    rewrite (Write_refused fd b self [] status payload [] dg [w]
               (dgs ++ close_dg :: rest) (Forall2_nil _) Hs R Hb).
    2:{ cbn [Write_requests]. apply requests_one.
        replace (slice b (Some 0) (Some (0 + 512))) with (piece_at data pos (8 * 0));
          [exact Hw|].
        change (8 * 0)%nat with 0%nat.
        subst b. rewrite <- (piece_in_block data pos 0) by lia. reflexivity. }
    2:{ exact Hi. }
    rewrite <- after_one.
    specialize (IH fuel (pos + 4096) (exchanged self w (dgs ++ close_dg :: rest))
                  dgs ws' rest ltac:(lia) ltac:(lia) F' ltac:(cbn in Hlen; lia)).
    unfold bindM at 1 in IH.
    etransitivity; [apply IH|].
    + erewrite map_ext; [apply Hrest|].
      intros k. cbv beta. do 2 f_equal. apply piece_at_eq. lia.
    + reflexivity.
    + now rewrite after_cons.
Qed.

(** X12.  [PutFile] does not look at what [Write] returns.  When the server
    refuses every [Write], [PutFile] still returns normally: of each block
    of 4096 bytes it has sent the first 512 bytes, once, and then gone on
    to the next block; the file is closed as after a complete upload. *)
Theorem PutFile_ignores_refusals path data self fd cstatus cpayload
  (open_dg close_dg : option bytes) dgs rest ws
  (Hopen : reply_with 0x29 0 [fd] open_dg)
  (Hrefused : Forall write_refusal dgs)
  (Hlen : length dgs = block_count data)
  (Hclose : reply_with 0x23 cstatus cpayload close_dg)
  (Hws : requests self
           (Wire.Open 0x0302 384 (Some path)
            :: map (fun i => Wire.Write (Some fd) (Some (piece data (8 * i))))
                 (seq 0 (block_count data))
            ++ [Wire.Close (Some fd)]) = Ok ws)
  (Hi : incoming (sock self) = open_dg :: dgs ++ close_dg :: rest) :
  PutFile path data self = (Ok tt, after self ws rest).
Proof.
  destruct (requests_cons _ _ _ _ Hws) as (w & ws' & -> & Hw & Hrest).
  unfold PutFile. unfold bindM at 1.
  rewrite (Open_ok _ _ _ _ _ _ _ _ Hw Hopen Hi).
  set (m := block_count data).
  assert (exists fuel, length data = (m + fuel)%nat) as (fuel & Hfuel).
  { exists (length data - m)%nat. subst m. unfold block_count, len.
    Z.div_mod_to_equations. lia. }
  rewrite Hfuel.
  etransitivity.
  { apply (PutFile_loop_refused (Some fd) data cstatus cpayload close_dg Hclose
             m fuel 0 _ dgs ws' rest).
    - lia.
    - subst m. unfold block_count. Z.div_mod_to_equations. lia.
    - exact Hrefused.
    - unfold blocks_from. rewrite Z.sub_0_r. exact Hlen.
    - unfold blocks_from. rewrite Z.sub_0_r. apply Hrest.
    - reflexivity. }
  now rewrite after_cons.
Qed.
End RefusedFacts.

Module DumpFacts.
Import Dump.

Lemma dumpHex_loop_cut maxBytes maxBytes' :
  0 <= maxBytes <= maxBytes' ->
  forall barray v,
  0 <= dump_i v <= 15 ->
  offs v mod 16 = 0 ->
  offs v <= maxBytes ->
  dumpHex_loop barray maxBytes v =
  dumpHex_loop (firstn (Z.to_nat (shown maxBytes - offs v - dump_i v)) barray)
    maxBytes' v.
Proof.
  intros Hm.
  induction barray as [|b rest IH]; intros v Hi Ho Hle.
  - now rewrite firstn_nil.
  - assert (exists k, Z.to_nat (shown maxBytes - offs v - dump_i v) = S k
                      /\ Z.of_nat k = shown maxBytes - offs v - dump_i v - 1)
      as (k & Hk & Hk').
    { exists (Z.to_nat (shown maxBytes - offs v - dump_i v - 1)).
      unfold shown. Z.div_mod_to_equations. lia. }
    rewrite Hk. cbn [firstn dumpHex_loop].
    destruct (Z.leb_spec 15 (dump_i v)) as [H15|H15].
    + destruct (Z.ltb_spec maxBytes (offs v + 16)) as [Hb|Hb].
      * assert (k = 0%nat) as -> by (unfold shown in Hk'; Z.div_mod_to_equations; lia).
        cbn [firstn dumpHex_loop].
        now destruct (maxBytes' <? offs v + 16).
      * destruct (Z.ltb_spec maxBytes' (offs v + 16)); [lia|].
        rewrite IH; cbn [dump_i offs]; try lia.
        -- do 2 f_equal. lia.
        -- rewrite <- Zplus_mod_idemp_l, Ho. reflexivity.
    + rewrite IH; cbn [dump_i offs]; try lia.
      do 2 f_equal. lia.
Qed.

(** X13.  The limit of [dumpHex] is looked at only at the end of a line of 16
    bytes, and the line that crosses it has then been written.  A dump
    limited to [maxBytes] shows exactly the first
    16 * (maxBytes // 16 + 1) bytes: whole lines, and up to 16 bytes more
    than the limit.  It equals the dump of those bytes under any larger
    limit. *)
Theorem dumpHex_shows_whole_lines barray maxBytes maxBytes'
  (Hlimit : 0 <= maxBytes <= maxBytes') :
  dumpHex barray maxBytes =
  dumpHex (firstn (Z.to_nat (shown maxBytes)) barray) maxBytes'.
Proof.
  unfold dumpHex.
  rewrite (dumpHex_loop_cut maxBytes maxBytes' Hlimit barray (mkDump [] [] [] 0 0));
    cbn [dump_i offs]; try lia; [|reflexivity].
  now rewrite !Z.sub_0_r.
Qed.
End DumpFacts.

Module ReplyFacts.
Import Struct Wire Session Engine SessionFacts SoundFacts MountFacts ListDirFacts.

Lemma fromWire_rejected reply0 rsp d e :
  rejected (TnfsCmd_response rsp) d = Some e ->
  fromWire (new_response reply0 rsp) (firstn 1024 d) = Raise e.
Proof.
  unfold rejected.
  destruct d as [|c0 [|c1 [|q [|op t]]]];
    try (intros E; apply (f_equal (fun o => match o with Some x => x | None => e end)) in E;
         subst e; reflexivity).
  destruct (Z.eqb_spec op (TnfsCmd_response rsp)) as [->|Hop]; cbn [negb].
  - destruct t; [|discriminate]. intros E.
    apply (f_equal (fun o => match o with Some x => x | None => e end)) in E. subst e.
    unfold fromWire, new_response.
    cbn [app firstn skipn unpack length calcsize width Nat.add Nat.eqb
         unpack_fields unpack1 bind tuple3 TnfsCmd].
    rewrite !le_value_1, Z.eqb_refl. reflexivity.
  - intros E.
    apply (f_equal (fun o => match o with Some x => x | None => e end)) in E. subst e.
    unfold fromWire, new_response.
    cbn [app firstn skipn unpack length calcsize width Nat.add Nat.eqb
         unpack_fields unpack1 bind tuple3 TnfsCmd].
    rewrite !le_value_1.
    replace (op =? TnfsCmd_response rsp) with false
      by (symmetry; now apply Z.eqb_neq).
    reflexivity.
Qed.

Lemma exchange_rejected cmd reply0 rsp self w d rest e :
  toWire (stamp self (new_command cmd)) = Ok w ->
  incoming (sock self) = Some d :: rest ->
  rejected (TnfsCmd_response rsp) d = Some e ->
  exchange cmd reply0 rsp self = (Raise e, exchanged self w rest).
Proof.
  intros Hw Hi Hr. rewrite (exchange_ok _ _ _ _ _ _ _ Hw Hi).
  now rewrite (fromWire_rejected _ _ _ _ Hr).
Qed.

(** X14.  The client does not resynchronise.  When the datagram that answers
    the first request of a method is shorter than a header, or carries
    the opcode of another command, or is a bare header without status, the
    method raises ([struct.error], [ValueError] and [struct.error]
    respectively) with the datagram used up and the sequence number
    advanced; the request is not repeated, no later datagram is read, and
    [session] stays as it was (also in [Umount]). *)
Theorem foreign_reply_raises o cmd self w d rest e
  (Ho : first_request o = Some cmd)
  (Hw : toWire (stamp self (new_command cmd)) = Ok w)
  (Hi : incoming (sock self) = Some d :: rest)
  (Hd : rejected (TnfsCmd_command cmd) d = Some e) :
  run o self = (Raise e, exchanged self w rest).
Proof.
  destruct o; cbn [first_request] in Ho; try discriminate Ho;
    apply UTF8Facts.Ok_inj in Ho || (injection Ho as Ho); subst cmd;
    cbn [run]; unfold returning, Umount, OpenDir, ReadDir, ReadDirX, CloseDir,
      MkDir, RmDir, Open, Close, Stat, LSeek, Unlink, Rename, ChMod,
      GetFilesystemSize, GetFilesystemFree, ListDir, GetFile, PutFile;
    unfold OpenDir, Open;
    repeat (unfold bindM at 1);
    match goal with
    | |- context [exchange ?c ?r0 ?rsp self] =>
        rewrite (exchange_rejected c r0 rsp self w d rest e Hw Hi Hd)
    end; reflexivity.
Qed.
End ReplyFacts.

Module StringFacts.
Import Struct Wire UTF8Facts CstrFacts WireFacts.

Lemma encode_NUL : UTF8.encode NUL = Ok [0].
Proof. reflexivity. Qed.

(** X15.  Strings on the wire.  A string without NUL and without surrogates,
    written in UTF-8 and followed by the terminator, is read back by
    [getCstr] at whatever offset it starts, together with the position
    just after its terminator, so that the next field can be read from
    there.  A string with an embedded NUL is written without complaint
    and read back cut at the NUL: the format cannot carry it. *)
Theorem getCstr_reads_what_was_written :
  (forall s, legal_str s = true ->
     exists e,
       UTF8.encode s = Ok e /\
       forall pre rest,
         getCstr (pre ++ e ++ 0 :: rest) (Some (len pre)) =
         Ok (Some s, Some (len pre + len e + 1))) /\
  (forall s1 s2, legal_str s1 = true -> legal_str s2 = true ->
     exists w,
       cstr [Some (s1 ++ 0 :: s2)] = Ok w /\
       path_FromWire w = Ok (Some s1)).
Proof.
  split.
  - intros s L. destruct (encode_legal s L) as (e & E & F).
    exists e. split; [exact E|]. intros pre rest.
    apply getCstr_at with (pre := pre) (e := e) (rest := rest); auto.
    now apply decode_encode.
  - intros s1 s2 L1 L2.
    destruct (encode_legal s1 L1) as (e1 & E1 & F1).
    destruct (encode_legal s2 L2) as (e2 & E2 & F2).
    exists (e1 ++ 0 :: e2 ++ [0]). split.
    + unfold cstr. cbn [map concat fmt]. rewrite app_nil_r.
      change (s1 ++ 0 :: s2) with (s1 ++ [0] ++ s2). rewrite <- !app_assoc.
      rewrite encode_app, E1. cbn [bind].
      change ([0] ++ s2 ++ NUL) with (NUL ++ s2 ++ NUL).
      rewrite encode_app, encode_NUL. cbn [bind].
      rewrite encode_app, E2, encode_NUL. reflexivity.
    + apply path_roundtrip; auto. now apply decode_encode.
Qed.
End StringFacts.

Module EntryFacts.
Import Struct Wire StructFacts UTF8Facts CstrFacts WireFacts SliceFacts.

Lemma read_entries_at : forall es ws pre rest acc,
  forallb legal_entry es = true ->
  entries_wire es = Ok ws ->
  read_entries (length es) (pre ++ ws ++ rest) (Some (len pre)) acc =
  Ok (acc ++ es).
Proof.
  induction es as [|e es IH]; intros ws pre rest acc L E.
  - cbn [length read_entries]. now rewrite app_nil_r.
  - cbn [forallb] in L. apply andb_true_iff in L as [Le Les].
    cbn [entries_wire] in E. unfold entry_wire in E.
    destruct e as [flags size ctime mtime name].
    unfold legal_entry in Le. cbn [de_flags de_size de_mtime de_ctime de_name] in *.
    destruct name as [s|]; [|discriminate Le].
    destruct (pack [B; I; I; I] [Some flags; Some size; Some mtime; Some ctime])
      as [p|] eqn:P; [|discriminate E]. cbn [bind] in E.
    destruct (encode_legal s Le) as (n & En & Fn). rewrite En in E. cbn [bind] in E.
    destruct (entries_wire es) as [ws'|] eqn:Es; [|discriminate E]. cbn [bind] in E.
    apply Ok_inj in E. subst ws.
    pose proof (pack_length _ _ _ P) as Lp. cbn [calcsize width Nat.add] in Lp.
    pose proof (len_nonneg pre) as Hpre.
    cbn [length read_entries].
    rewrite slice_nonneg by lia.
    replace (Z.to_nat (len pre + 13 - len pre)) with 13%nat by lia.
    replace (Z.to_nat (len pre)) with (length pre) by (unfold len; lia).
    rewrite (skipn_exact (length pre)) by reflexivity.
    rewrite <- !app_assoc.
    rewrite (firstn_exact 13) by assumption.
    rewrite (unpack_pack_exact _ _ _ P). cbn [values map bind tuple4].
    rewrite (getCstr_at _ (len pre + 13) (pre ++ p) n (ws' ++ rest) s).
    2:{ now rewrite <- !app_assoc. }
    2:{ rewrite len_app. unfold len. rewrite Lp. reflexivity. }
    2:{ exact Fn. }
    2:{ now apply decode_encode. }
    cbn [bind].
    specialize (IH ws' (pre ++ p ++ n ++ [0]) rest
                  (acc ++ [mkDirEntry flags size ctime mtime (Some s)]) Les eq_refl).
    rewrite <- !app_assoc in IH. cbn [app] in IH.
    replace (len (pre ++ p) + len n + 1) with (len (pre ++ p ++ n ++ [0])).
    2:{ rewrite !len_app. unfold len. cbn [length]. lia. }
    exact IH.
Qed.

(** X16.  The entries of a [ReadDirX] reply.  A payload made of the number of
    entries, a status byte, a two-byte position, and then the entries one
    after the other, each as the byte of flags, the four-byte size,
    modification time and change time (little-endian, in this order), the
    name in UTF-8 and a terminator, is decoded into the entries in order,
    every field in its attribute; the status byte and the position are
    stored, the path is left as it was, and what follows the last entry is
    ignored. *)
Theorem ReadDirXResponse_reads_entries es ws status d0 d1 extra path entries0 status0 dpos0
  (Hlegal : forallb legal_entry es = true)
  (Hws : entries_wire es = Ok ws)
  (Hcount : (length es < 256)%nat) :
  response_DataFromWire 0 (ReadDirXResponse path entries0 status0 dpos0)
    (Z.of_nat (length es) :: status :: d0 :: d1 :: ws ++ extra) =
  Ok (ReadDirXResponse path (Some es) (Some status) (Some (d0 + 256 * d1))).
Proof.
  cbn [response_DataFromWire Z.eqb negb firstn unpack length calcsize width
       Nat.add Nat.eqb unpack_fields unpack1 skipn bind tuple3].
  assert (le_value [Z.of_nat (length es)] = Z.of_nat (length es)) as ->
    by (cbn [le_value]; lia).
  assert (le_value [status] = status) as -> by (cbn [le_value]; lia).
  assert (le_value [d0; d1] = d0 + 256 * d1) as -> by (cbn [le_value]; lia).
  rewrite Nat2Z.id.
  pose proof (read_entries_at es ws [Z.of_nat (length es); status; d0; d1] extra []
                Hlegal Hws) as RE.
  cbn [app] in RE. change (len [Z.of_nat (length es); status; d0; d1]) with 4 in RE.
  now rewrite RE.
Qed.
End EntryFacts.

Module ListDirXFacts.
Import Struct Wire Session Engine SessionFacts SoundFacts MountFacts CstrFacts
  WireFacts TransferFacts ListDirFacts GetFileFacts EntryFacts.

Lemma ReadDirX_entries h self w es dg rest :
  toWire (stamp self (new_command (Wire.ReadDirX (Some h) 0))) = Ok w ->
  entries_reply es dg ->
  incoming (sock self) = dg :: rest ->
  ReadDirX (Some h) self = (Ok (0, Some es), exchanged self w rest).
Proof.
  intros Hw (ws & status & d0 & d1 & extra & L & E & Hn & Hl & R) Hi.
  unfold ReadDirX, bindM.
  destruct (exchange_reply _ 0 (ReadDirXResponse None None None None) _ _ _ _ _ _
              Hw R ltac:(cbn [length]; lia) Hi) as (hd & ->).
  cbn [response_DataFromWire Z.eqb negb firstn unpack length calcsize width
       Nat.add Nat.eqb unpack_fields unpack1 skipn bind tuple3].
  rewrite le_value_1, Nat2Z.id.
  pose proof (read_entries_at es ws [Z.of_nat (length es); status; d0; d1] extra []
                L E) as RE.
  cbn [app] in RE. change (len [Z.of_nat (length es); status; d0; d1]) with 4 in RE.
  rewrite RE. reflexivity.
Qed.

Lemma ListDirX_loop_batches : forall front dgs last dg fuel h n contents self ws rest,
  Forall2 entries_reply front dgs ->
  entries_reply last dg ->
  len (concat front) < n <= len (concat front) + len last ->
  requests self (repeat (Wire.ReadDirX (Some h) 0) (S (length front))) = Ok ws ->
  incoming (sock self) = dgs ++ dg :: rest ->
  ListDirX_loop (S (length front) + fuel) (Some h) 0 n contents self =
    (Ok (contents ++ concat front ++ last), after self ws rest).
Proof.
  induction front as [|es front IH];
    intros dgs last dg fuel h n contents self ws rest F L Hn Hr Hi.
  - inversion F; subst. cbn [concat app length Nat.add repeat] in *.
    change (len []) with 0 in Hn.
    destruct (requests_cons _ _ _ _ Hr) as (w & ws' & -> & Hw & Hrest).
    specialize (Hrest rest). unfold requests in Hrest. cbn [wires] in Hrest.
    apply UTF8Facts.Ok_inj in Hrest. subst ws'.
    cbn [ListDirX_loop Z.eqb andb].
    replace (0 <? n) with true by (symmetry; apply Z.ltb_lt; lia).
    unfold bindM at 1.
    rewrite (ReadDirX_entries _ _ _ _ _ _ Hw L Hi). cbn [Z.eqb].
    destruct fuel; cbn [ListDirX_loop Z.eqb andb];
      replace (0 <? n - len last) with false
        by (symmetry; apply Z.ltb_ge; lia);
      reflexivity.
  - inversion F as [|? dg0 ? dgs' He F']; subst.
    change (S (length (es :: front)) + fuel)%nat
      with (S (S (length front) + fuel)).
    set (k := (S (length front) + fuel)%nat).
    cbn [concat] in *. rewrite len_app in Hn.
    pose proof (len_nonneg es). pose proof (len_nonneg (concat front)).
    cbn [length repeat] in Hr.
    destruct (requests_cons _ _ _ _ Hr) as (w & ws' & -> & Hw & Hrest).
    cbn [app] in Hi.
    cbn [ListDirX_loop Z.eqb andb].
    replace (0 <? n) with true by (symmetry; apply Z.ltb_lt; lia).
    unfold bindM at 1.
    rewrite (ReadDirX_entries _ _ _ _ _ _ Hw He Hi). cbn [Z.eqb].
    subst k.
    etransitivity.
    { apply (IH dgs' last dg fuel h (n - len es) (contents ++ es)
               (exchanged self w (dgs' ++ dg :: rest)) ws' rest F' L
               ltac:(lia) (Hrest _) eq_refl). }
    rewrite after_cons, <- !app_assoc. reflexivity.
Qed.

(** X17.  [ListDirX] on a server of version 1.2 or later that lets it read
    the directory.  [OpenDirX] brings the handle and the number of
    entries; the entries of the successful [ReadDirX] replies are returned
    in the order received, and the reading stops at the first reply that
    brings their count to the number announced (or beyond: the entries in
    excess are returned too).  The handle is then closed and the status
    of [CloseDir] ignored. *)
Theorem ListDirX_returns_entries path pattern dirOptions sortOptions maxResults
  self h n front last cstatus cpayload
  (open_dg dg close_dg : option bytes) dgs rest ws
  (Hversion : str_lt (version self) [49; 46; 50] = false)
  (Hopen : opendirx_reply h n open_dg)
  (Hfront : Forall2 entries_reply front dgs)
  (Hlast : entries_reply last dg)
  (Hcount : len (concat front) < n <= len (concat front) + len last)
  (Hclose : reply_with 0x12 cstatus cpayload close_dg)
  (Hws : requests self
           (Wire.OpenDirX (Some path) pattern dirOptions sortOptions maxResults
            :: repeat (Wire.ReadDirX (Some h) 0) (S (length front))
            ++ [Wire.CloseDir (Some h)]) = Ok ws)
  (Hi : incoming (sock self) = open_dg :: dgs ++ dg :: close_dg :: rest) :
  ListDirX path pattern dirOptions sortOptions maxResults self =
    (Ok (Some (concat front ++ last)), after self ws rest).
Proof.
  destruct (requests_cons _ _ _ _ Hws) as (w & ws' & -> & Hw & Hrest).
  unfold ListDirX, OpenDirX. unfold bindM at 1. rewrite Hversion.
  unfold bindM at 1.
  destruct Hopen as (n0 & n1 & e & extra & p & -> & De & Fe & Hl & R).
  destruct (exchange_reply _ 255 (OpenDirXResponse None 0 None) _ _ _ _ _ _
              Hw R ltac:(cbn [length]; lia) Hi) as (hd & ->).
  cbn [response_DataFromWire].
  replace (len (h :: n0 :: n1 :: e ++ 0 :: extra) <? 3) with false.
  2:{ symmetry. apply Z.ltb_ge. unfold len. cbn [length]. lia. }
  cbn [firstn unpack length calcsize width Nat.add Nat.eqb unpack_fields unpack1
       skipn bind tuple2 Z.eqb negb].
  rewrite (path_roundtrip p e extra Fe De), le_value_1, le_value_2.
  cbn [bind ret Z.eqb].
  set (self1 := exchanged self w (dgs ++ dg :: close_dg :: rest)).
  destruct (requests_app (repeat (Wire.ReadDirX (Some h) 0) (S (length front)))
              self1 [Wire.CloseDir (Some h)] ws' ltac:(discriminate) (Hrest _))
    as (ws1 & ws2 & -> & H1 & H2).
  unfold bindM at 1. unfold turns.
  replace (S (length (incoming (sock self1))))
    with (S (length front) + S (S (length rest)))%nat.
  2:{ subst self1. cbn [exchanged sock incoming]. rewrite length_app.
      rewrite <- (Forall2_length Hfront). cbn [length]. lia. }
  rewrite (ListDirX_loop_batches front dgs last dg (S (S (length rest))) h
             (n0 + 256 * n1) [] self1 ws1 (close_dg :: rest)
             Hfront Hlast Hcount H1 eq_refl).
  cbn [app]. unfold bindM at 1. cbn [close_handle]. unfold CloseDir, bindM.
  specialize (H2 (close_dg :: rest)).
  destruct (requests_cons _ _ _ _ H2) as (wc & wn & -> & Hwc & Hn).
  specialize (Hn rest). unfold requests in Hn. cbn [wires] in Hn.
  apply UTF8Facts.Ok_inj in Hn. subst wn.
  destruct (exchange_status _ 0 CloseDirResponse _ _ _ _ _ rest Hwc Hclose)
    as (hd' & E); [reflexivity|reflexivity|].
  rewrite E. cbn [ret]. subst self1.
  rewrite after_one, after_app, after_cons. reflexivity.
Qed.
End ListDirXFacts.

Module LifecycleFacts.
Import Struct Wire Session Engine SessionFacts SoundFacts MountFacts ListDirFacts.

Lemma pack_session c0 c1 q op :
  0 <= c0 < 256 -> 0 <= c1 < 256 -> 0 <= q < 256 -> 0 <= op < 256 ->
  pack [H; B; B] [Some (c0 + 256 * c1); Some q; Some op] = Ok [c0; c1; q; op].
Proof.
  intros H0 H1 Hq Hop. cbn [pack]. unfold pack1, in_range.
  replace ((0 <=? c0 + 256 * c1) && (c0 + 256 * c1 <? 65536)) with true
    by (symmetry; apply andb_true_iff; split; [apply Z.leb_le|apply Z.ltb_lt]; lia).
  replace ((0 <=? q) && (q <? 256)) with true
    by (symmetry; apply andb_true_iff; split; [apply Z.leb_le|apply Z.ltb_lt]; lia).
  replace ((0 <=? op) && (op <? 256)) with true
    by (symmetry; apply andb_true_iff; split; [apply Z.leb_le|apply Z.ltb_lt]; lia).
  cbn [bind width le_bytes app Z.of_nat Pos.of_succ_nat Pos.succ].
  change (256 ^ 2) with 65536. change (256 ^ 1) with 256.
  repeat f_equal; Z.div_mod_to_equations; lia.
Qed.

(** X18.  The life of a session object used as a context manager.  When the
    server accepts the [Mount] of [__init__], [__exit__] sends one
    [Umount] that carries the two bytes of the session id as the answer
    to [Mount] had them, and sequence number 1; whatever the server
    answers, the object ends unmounted.  When the server refuses the
    [Mount], the object stays unmounted and [__exit__] sends nothing.  In
    both cases [version] holds major and minor of the answer, joined by a
    dot. *)
Theorem session_is_unmounted_on_exit s c0 c1 q vmin vmaj rest
  (Hc0 : 0 <= c0 < 256) (Hc1 : 0 <= c1 < 256) :
  (forall d0 d1 status payload dg,
     reply_with 0x01 status payload dg ->
     incoming s = Some [c0; c1; q; 0x00; 0; vmin; vmaj; d0; d1] :: dg :: rest ->
     with_Session s =
       (Ok tt,
        mkState None 2 (version_string vmaj vmin)
          (mkSocket (sent s ++ [first_mount; [c0; c1; 1; 1]]) rest))) /\
  (forall status extra,
     status <> 0 ->
     incoming s =
       Some (c0 :: c1 :: q :: 0x00 :: status :: vmin :: vmaj :: extra) :: rest ->
     with_Session s =
       (Ok tt,
        mkState None 1 (version_string vmaj vmin)
          (mkSocket (sent s ++ [first_mount]) rest))).
Proof.
  split.
  - intros d0 d1 status payload dg (u0 & u1 & uq & ->) Hi.
    unfold with_Session, init. unfold bindM at 1.
    rewrite (Mount_accepted [47] (mkState None 0 [] s) first_mount
               c0 c1 q vmin vmaj d0 d1 _ eq_refl Hi).
    cbn [remounted session sequence version sock sent].
    unfold exit. cbn [session]. unfold bindM at 1.
    erewrite Umount_answered.
    2:{ unfold toWire, stamp. cbn [new_command Wire.setSession
          setRetry hdr with_hdr conn_id retry command TnfsCmd_command sequence
          session do_ExtraToWire do_DataToWire command_DataToWire].
        change ((0 + 1) mod 256) with 1.
        rewrite (pack_session c0 c1 1 1) by lia. reflexivity. }
    2:{ reflexivity. }
    unfold setSession, remounted. cbn [session sequence version sock sent].
    rewrite <- app_assoc. reflexivity.
  - intros status extra Hs Hi.
    unfold with_Session, init. unfold bindM at 1.
    rewrite (Mount_refused [47] (mkState None 0 [] s) first_mount
               c0 c1 q status vmin vmaj extra rest eq_refl Hs Hi).
    reflexivity.
Qed.
End LifecycleFacts.

Module LoadTestFacts.
Import LoadTest.

Lemma back_one (l : list str) x : snd (cd [46; 46] (l ++ [x])) = l.
Proof.
  unfold cd.
  destruct (list_eq_dec Z.eq_dec [46; 46] [46; 46]) as [_|N]; [|contradiction].
  destruct (l ++ [x]) eqn:E.
  - now destruct l.
  - rewrite <- E. cbn [snd]. apply removelast_last.
Qed.

(** X19.  [TestConn.path] of the load test is not a query: asking for the
    path of a file appends its name to the working directory.  After the
    paths of the files [files] have been asked for, the working directory
    is deeper by all of them, [path()] returns the path of the last file
    nested in all the earlier ones, and it takes as many [cd('..')] as
    there were files to bring the connection back to where it was. *)
Theorem path_changes_directory files self
  (Hnames : Forall (fun f => f <> []) files) :
  snd (paths files self) = self ++ files /\
  path None (self ++ files) = (47 :: join [47] (self ++ files), self ++ files) /\
  Nat.iter (length files) (fun conn => snd (cd [46; 46] conn)) (self ++ files)
  = self.
Proof.
  split; [|split].
  - revert self. induction Hnames as [|f files Hf _ IH]; intros self.
    + cbn [paths snd]. now rewrite app_nil_r.
    + cbn [paths]. unfold path at 1.
      destruct f as [|c f]; [contradiction|]. cbn [truthy]. cbv beta iota zeta.
      specialize (IH (self ++ [c :: f])).
      match goal with
      | |- context [paths files ?x] =>
          destruct (paths files x) as [ps self2] eqn:E
      end.
      cbn [snd].
      assert (self2 = (self ++ [c :: f]) ++ files) as ->
        by (change self2 with (snd (ps, self2)); rewrite <- E; exact IH).
      now rewrite <- app_assoc.
  - reflexivity.
  - clear Hnames. induction files as [|f files IH] using rev_ind.
    + cbn [length Nat.iter]. now rewrite app_nil_r.
    + rewrite length_app, Nat.add_comm. cbn [length Nat.add].
      rewrite Nat.iter_succ_r, app_assoc, back_one. exact IH.
Qed.
End LoadTestFacts.

Module FlagsFacts.
Import Flags.

Lemma land_3 flags :
  Z.land flags 3 = 0 \/ Z.land flags 3 = 1 \/ Z.land flags 3 = 2 \/ Z.land flags 3 = 3.
Proof.
  assert (Z.land flags 3 = flags mod 4) as ->
    by (change 3 with (Z.ones 2); now rewrite Z.land_ones by lia).
  pose proof (Z.mod_pos_bound flags 4 ltac:(lia)). lia.
Qed.

(** X20.  What [flagsToTNFS] makes of the flags of [open], on a host where
    [O_RDONLY], [O_WRONLY] and [O_RDWR] are 0, 1 and 2.  The access mode
    of the result is the host's plus one, and none at all (0) for the
    host mode 3; the bits 0x0008, 0x0100, 0x0200 and 0x0400 of the result
    are set exactly when [flags] has a bit in common with [O_APPEND],
    [O_CREAT], [O_TRUNC] and [O_EXCL]; no other bit is ever set. *)
Theorem flagsToTNFS_translates O_APPEND O_CREAT O_EXCL O_TRUNC flags :
  let r := flagsToTNFS 0 1 2 O_APPEND O_CREAT O_EXCL O_TRUNC flags in
  Z.land r 0x0003 = (Z.land flags 0x03 + 1) mod 4 /\
  Z.testbit r 3 = truth (Z.land flags O_APPEND) /\
  Z.testbit r 8 = truth (Z.land flags O_CREAT) /\
  Z.testbit r 9 = truth (Z.land flags O_TRUNC) /\
  Z.testbit r 10 = truth (Z.land flags O_EXCL) /\
  Z.land r 0x070B = r.
Proof.
  unfold flagsToTNFS. cbv zeta.
  destruct (land_3 flags) as [E|[E|[E|E]]]; rewrite E;
    destruct (truth (Z.land flags O_APPEND));
    destruct (truth (Z.land flags O_CREAT));
    destruct (truth (Z.land flags O_EXCL));
    destruct (truth (Z.land flags O_TRUNC));
    vm_compute; repeat split; reflexivity.
Qed.
End FlagsFacts.

Module StrictFacts.
Import Struct Wire Session Engine SessionFacts SoundFacts MountFacts ListDirFacts.

Lemma unpack_wrong_length fmt data :
  length data <> calcsize fmt -> unpack fmt data = Raise StructError.
Proof.
  intros H. unfold unpack.
  destruct (Nat.eqb_spec (length data) (calcsize fmt)); [contradiction|reflexivity].
Qed.

Lemma exchange_strict cmd rsp self w payload dg rest (k : nat) :
  toWire (stamp self (new_command cmd)) = Ok w ->
  reply_with (TnfsCmd_response rsp) 0 payload dg ->
  incoming (sock self) = dg :: rest ->
  (k < 1019)%nat ->
  length payload <> k ->
  (forall data, length data <> k ->
     response_DataFromWire 0 rsp data = Raise StructError) ->
  exchange cmd 0 rsp self = (Raise StructError, exchanged self w rest).
Proof.
  intros Hw (c0 & c1 & q & ->) Hi Hk Hl Hr.
  rewrite (exchange_ok _ _ _ _ _ _ _ Hw Hi), firstn_1024, fromWire_reply.
  rewrite Hr; [reflexivity|]. rewrite length_firstn. lia.
Qed.

(** X21.  The fields that must fill the reply.  [Open], [Write],
    [GetFilesystemSize] and [GetFilesystemFree] take a reply with status
    0 only if its payload has exactly the length of the field they read
    (1, 2, 4 and 4 bytes): with a payload shorter or longer they raise
    [struct.error], the exchange having been counted.  (The replies to
    [OpenDir] and [ReadDir] may carry more than is read.) *)
Theorem success_replies_are_exact self dg rest payload :
  (forall path flags mode w,
     toWire (stamp self (new_command (Wire.Open flags mode (Some path)))) = Ok w ->
     incoming (sock self) = dg :: rest ->
     reply_with 0x29 0 payload dg ->
     length payload <> 1%nat ->
     Open path flags mode self = (Raise StructError, exchanged self w rest)) /\
  (forall fd data w,
     0 < len data ->
     toWire (stamp self (new_command
       (Wire.Write fd (Some (slice data (Some 0) (Some (0 + 512))))))) = Ok w ->
     incoming (sock self) = dg :: rest ->
     reply_with 0x22 0 payload dg ->
     length payload <> 2%nat ->
     Write fd data self = (Raise StructError, exchanged self w rest)) /\
  (forall w,
     toWire (stamp self (new_command Wire.Size)) = Ok w ->
     incoming (sock self) = dg :: rest ->
     reply_with 0x30 0 payload dg ->
     length payload <> 4%nat ->
     GetFilesystemSize self = (Raise StructError, exchanged self w rest)) /\
  (forall w,
     toWire (stamp self (new_command Wire.Free)) = Ok w ->
     incoming (sock self) = dg :: rest ->
     reply_with 0x31 0 payload dg ->
     length payload <> 4%nat ->
     GetFilesystemFree self = (Raise StructError, exchanged self w rest)).
Proof.
  split; [|split; [|split]].
  - intros path flags mode w Hw Hi R Hl. unfold Open, bindM.
    rewrite (exchange_strict _ (OpenResponse None) _ _ _ _ _ 1 Hw R Hi);
      [reflexivity|lia|exact Hl|].
    intros data Hd. cbn [response_DataFromWire Z.eqb].
    now rewrite unpack_wrong_length.
  - intros fd data w Hd Hw Hi R Hl. unfold Write, bindM, turns.
    rewrite Hi. cbn [length Write_loop].
    replace (0 <? len data) with true by (symmetry; now apply Z.ltb_lt).
    unfold bindM.
    rewrite (exchange_strict _ (WriteResponse None) _ _ _ _ _ 2 Hw R Hi);
      [reflexivity|lia|exact Hl|].
    intros data' Hd'. cbn [response_DataFromWire Z.eqb].
    now rewrite unpack_wrong_length.
  - intros w Hw Hi R Hl. unfold GetFilesystemSize, bindM.
    rewrite (exchange_strict _ (SizeResponse None) _ _ _ _ _ 4 Hw R Hi);
      [reflexivity|lia|exact Hl|].
    intros data Hd. cbn [response_DataFromWire Z.eqb].
    now rewrite unpack_wrong_length.
  - intros w Hw Hi R Hl. unfold GetFilesystemFree, bindM.
    rewrite (exchange_strict _ (FreeResponse None) _ _ _ _ _ 4 Hw R Hi);
      [reflexivity|lia|exact Hl|].
    intros data Hd. cbn [response_DataFromWire Z.eqb].
    now rewrite unpack_wrong_length.
Qed.
End StrictFacts.

Module PaceFacts.
Import Struct Wire Session Engine TerminationFacts.

(** X22.  No loop of the client turns without an exchange.  In every method
    each turn of a loop receives a datagram or raises, so a call ends
    within as many turns as there are datagrams to come, and one more
    (the bound of the model's loops, [OutOfFuel], is never reached); a
    call reads datagrams and never puts one back; and the sequence number
    stays a byte through every call. *)
Theorem methods_keep_pace o self
  (Hsequence : 0 <= sequence self < 256) :
  fst (run o self) <> Raise OutOfFuel /\
  (pending (snd (run o self)) <= pending self)%nat /\
  0 <= sequence (snd (run o self)) < 256.
Proof.
  destruct (run o self) as [res self'] eqn:E.
  destruct (run_steady o self res self' E) as (F & P & S).
  cbn [fst snd]. auto.
Qed.
End PaceFacts.

Module StatusFacts.
Import Struct Wire Session Engine SessionFacts SoundFacts MountFacts ListDirFacts.

(** X23.  The methods that only report.  [CloseDir], [MkDir], [RmDir],
    [Close], [LSeek], [Unlink], [Rename] and [ChMod] return the status
    byte of the reply to their request as it is, zero or not, without
    raising; the payload of the reply, its session id and its sequence
    number are not looked at.  One request has been sent, one datagram
    received, and [session] is as before. *)
Theorem status_is_returned_as_is o cmd self w status payload dg rest
  (Ho : returns_status o = true)
  (Hcmd : first_request o = Some cmd)
  (Hw : toWire (stamp self (new_command cmd)) = Ok w)
  (Hdg : reply_with (TnfsCmd_command cmd) status payload dg)
  (Hi : incoming (sock self) = dg :: rest) :
  run o self = (Ok (Some status), exchanged self w rest).
Proof.
  destruct o; try discriminate Ho; cbn [first_request] in Hcmd;
    injection Hcmd as Hcmd; subst cmd;
    cbn [run]; unfold returning, CloseDir, MkDir, RmDir, Close, LSeek, Unlink,
      Rename, ChMod;
    repeat (unfold bindM at 1);
    match goal with
    | |- context [exchange ?c 0 ?rsp self] =>
        destruct (exchange_status c 0 rsp self w status payload dg rest Hw Hdg)
          as (hd & E); [reflexivity|exact Hi|rewrite E]
    end; reflexivity.
Qed.
End StatusFacts.

(** * Instances of the further properties *)

Module Instances.
Import Struct Wire Session Engine Examples Scenarios.

(** Datagrams of the examples match the descriptions used in the
    statements. *)
Ltac describe :=
  repeat first
    [ apply Forall2_nil | apply Forall2_cons | apply Forall_nil | apply Forall_cons
    | split
    | progress (cbv beta; cbn [length len concat app total fold_right])
    | lia
    | discriminate
    | reflexivity
    | solve [cbn; lia]
    | eexists ].

Ltac described := describe; describe.

Lemma unmounted_session_witness :
  snd (run (OpStat root) (unmounted [mount_ok])) = unmounted [mount_ok] /\
  (always_exchanges (OpStat root) = true ->
   fst (run (OpStat root) (unmounted [mount_ok])) = Raise StructError).
Proof.
  apply (UnmountedFacts.unmounted_session_sends_nothing (OpStat root)
           (unmounted [mount_ok]) eq_refl eq_refl).
Defined.

Lemma Mount_records_session_witness :
  Mount root (unmounted [mount_ok]) =
  (Ok (0, 1, 2),
   remounted (unmounted [mount_ok]) [0; 0; 0; 0; 2; 1; 47; 0; 0; 0] []
     (Some (0xef + 256 * 0xbe))).
Proof.
  apply (proj1 (MountFacts.Mount_records_session root (unmounted [mount_ok])
                  [0; 0; 0; 0; 2; 1; 47; 0; 0; 0] 0xef 0xbe 0 2 1 [] eq_refl)
           0xe8 3 eq_refl).
Defined.

Lemma Umount_clears_session_witness :
  Umount (mounted [reply 0x01 0 []]) =
  (Ok 0, remounted (mounted [reply 0x01 0 []]) [0xef; 0xbe; 5; 0x01] [] None).
Proof.
  apply (proj1 (MountFacts.Umount_clears_session (mounted [reply 0x01 0 []])
                  [0xef; 0xbe; 5; 0x01] eq_refl)
           0xef 0xbe 0 0 [] [] eq_refl).
Defined.

Lemma OpenDirX_version_gate_witness :
  ListDirX root [] 0 0 65535 on_1_10 = (Ok None, on_1_10).
Proof.
  apply (proj2 (proj1 (FailureFacts.OpenDirX_version_gate on_1_10 10 root [] 0 0 65535
                         ltac:(lia) eq_refl) eq_refl)).
Defined.

Lemma ListDir_hides_open_failure_witness :
  ListDir root (mounted [reply 0x10 2 []]) =
  (Ok [], exchanged (mounted [reply 0x10 2 []]) [0xef; 0xbe; 5; 0x10; 47; 0] []).
Proof.
  apply (FailureFacts.ListDir_hides_open_failure root (mounted [reply 0x10 2 []])
           [0xef; 0xbe; 5; 0x10; 47; 0] 0xef 0xbe 0 2 [] []
           ltac:(discriminate) eq_refl eq_refl).
Defined.

Lemma GetFile_stops_at_open_failure_witness :
  GetFile root (mounted [reply 0x29 13 []]) =
  (Ok None,
   exchanged (mounted [reply 0x29 13 []])
     [0xef; 0xbe; 5; 0x29; 0; 0; 0; 0; 47; 0] []).
Proof.
  apply (proj1 (FailureFacts.GetFile_PutFile_stop_at_open_failure root
                  (mounted [reply 0x29 13 []]) 0xef 0xbe 0 13 [] []
                  ltac:(discriminate) eq_refl)
           [0xef; 0xbe; 5; 0x29; 0; 0; 0; 0; 47; 0] eq_refl).
Defined.

(** Asked for 5 bytes, [Read] returns the 6 that two replies brought. *)
Lemma Read_returns_received_witness :
  Read (Some 3) 5 (mounted [read_ok [1; 2]; read_ok [3; 4; 5; 6]]) =
  (Ok (0, Some [1; 2; 3; 4; 5; 6]),
   after (mounted [read_ok [1; 2]; read_ok [3; 4; 5; 6]])
     [[0xef; 0xbe; 5; 0x21; 3; 5; 0]; [0xef; 0xbe; 6; 0x21; 3; 3; 0]] []).
Proof.
  apply (proj1 (TransferFacts.Read_returns_received (Some 3) 5
                  (mounted [read_ok [1; 2]; read_ok [3; 4; 5; 6]])
                  [read_ok [1; 2]] [])
           [[1; 2]] [3; 4; 5; 6] (read_ok [3; 4; 5; 6])
           [[0xef; 0xbe; 5; 0x21; 3; 5; 0]; [0xef; 0xbe; 6; 0x21; 3; 3; 0]]);
    unfold read_reply, reply_with, read_ok, reply; cbn [length len concat app];
    described.
Defined.

(** The server takes two bytes of three, then the third. *)
Lemma Write_follows_acknowledgements_witness :
  Write (Some 3) [1; 2; 3] (mounted [write_ack 2; write_ack 1]) =
  (Ok (0, 3),
   after (mounted [write_ack 2; write_ack 1])
     [[0xef; 0xbe; 5; 0x22; 3; 3; 0; 1; 2; 3]; [0xef; 0xbe; 6; 0x22; 3; 1; 0; 3]] []).
Proof.
  apply (proj1 (WriteFacts.Write_follows_acknowledgements (Some 3) [1; 2; 3]
                  (mounted [write_ack 2; write_ack 1]) [write_ack 2] [])
           [2] 1 (write_ack 1)
           [[0xef; 0xbe; 5; 0x22; 3; 3; 0; 1; 2; 3]; [0xef; 0xbe; 6; 0x22; 3; 1; 0; 3]]);
    unfold ack_reply, reply_with, write_ack, reply; cbn [length len total fold_right app];
    described.
Defined.

Lemma ListDir_returns_names_witness :
  ListDir root (mounted listing) =
  (Ok [Some [97]; Some [98]],
   after (mounted listing)
     [[0xef; 0xbe; 5; 0x10; 47; 0]; [0xef; 0xbe; 6; 0x11; 1];
      [0xef; 0xbe; 7; 0x11; 1]; [0xef; 0xbe; 8; 0x11; 1];
      [0xef; 0xbe; 9; 0x12; 1]] []).
Proof.
  apply (ListDirFacts.ListDir_returns_names root (mounted listing) [[97]; [98]]
           1 [] EOF [] 0 []
           (reply 0x10 0 [1]) (reply 0x11 EOF []) (reply 0x12 0 [])
           [reply 0x11 0 [97; 0]; reply 0x11 0 [98; 0]] []
           [[0xef; 0xbe; 5; 0x10; 47; 0]; [0xef; 0xbe; 6; 0x11; 1];
            [0xef; 0xbe; 7; 0x11; 1]; [0xef; 0xbe; 8; 0x11; 1];
            [0xef; 0xbe; 9; 0x12; 1]]);
    unfold name_reply, reply_with, reply, EOF;
    try (repeat first [apply Forall2_nil | apply Forall2_cons];
         [exists [97], [] | exists [98], []]);
    described.
Defined.

Lemma GetFile_returns_received_witness :
  GetFile root (mounted download) =
  (Ok (Some [1; 2; 3]),
   after (mounted download)
     [[0xef; 0xbe; 5; 0x29; 0; 0; 0; 0; 47; 0]; [0xef; 0xbe; 6; 0x21; 4; 0; 2];
      [0xef; 0xbe; 7; 0x21; 4; 0; 2]; [0xef; 0xbe; 8; 0x21; 4; 0; 2];
      [0xef; 0xbe; 9; 0x23; 4]] []).
Proof.
  apply (GetFileFacts.GetFile_returns_received root (mounted download) 4
           [] [] [[1; 2; 3]] [read_ok [1; 2; 3]] EOF [] EOF [] 0 []
           (reply 0x29 0 [4]) (reply 0x21 EOF []) (reply 0x21 EOF [])
           (reply 0x23 0 []) []
           [[0xef; 0xbe; 5; 0x29; 0; 0; 0; 0; 47; 0]; [0xef; 0xbe; 6; 0x21; 4; 0; 2];
            [0xef; 0xbe; 7; 0x21; 4; 0; 2]; [0xef; 0xbe; 8; 0x21; 4; 0; 2];
            [0xef; 0xbe; 9; 0x23; 4]]);
    unfold read_reply, reply_with, read_ok, reply, EOF;
    cbn [length len concat app];
    described.
Defined.

(** 600 bytes go out as a piece of 512 and a piece of 88. *)
Lemma PutFile_sends_pieces_witness :
  PutFile root (repeat 7 600)
    (mounted [reply 0x29 0 [4]; write_ack 512; write_ack 88; reply 0x23 0 []]) =
  (Ok tt,
   after (mounted [reply 0x29 0 [4]; write_ack 512; write_ack 88; reply 0x23 0 []])
     [[0xef; 0xbe; 5; 0x29; 2; 3; 0x80; 1; 47; 0];
      [0xef; 0xbe; 6; 0x22; 4; 0; 2] ++ repeat 7 512;
      [0xef; 0xbe; 7; 0x22; 4; 88; 0] ++ repeat 7 88;
      [0xef; 0xbe; 8; 0x23; 4]] []).
Proof.
  apply (PutFileFacts.PutFile_sends_pieces root (repeat 7 600)
           (mounted [reply 0x29 0 [4]; write_ack 512; write_ack 88; reply 0x23 0 []])
           4 0 [] (reply 0x29 0 [4]) (reply 0x23 0 [])
           [write_ack 512; write_ack 88] []);
    [ unfold reply_with, reply; described
    | change (Forall2 ack_reply [512; 88] [write_ack 512; write_ack 88]);
      unfold ack_reply, reply_with, write_ack, reply; described
    | unfold reply_with, reply; described
    | vm_compute; reflexivity
    | reflexivity ].
Defined.

(** 5000 bytes are two blocks; the server refuses both. *)
Lemma PutFile_ignores_refusals_witness :
  PutFile root (repeat 7 5000)
    (mounted [reply 0x29 0 [4]; reply 0x22 5 []; reply 0x22 5 []; reply 0x23 0 []]) =
  (Ok tt,
   after (mounted [reply 0x29 0 [4]; reply 0x22 5 []; reply 0x22 5 []; reply 0x23 0 []])
     [[0xef; 0xbe; 5; 0x29; 2; 3; 0x80; 1; 47; 0];
      [0xef; 0xbe; 6; 0x22; 4; 0; 2] ++ repeat 7 512;
      [0xef; 0xbe; 7; 0x22; 4; 0; 2] ++ repeat 7 512;
      [0xef; 0xbe; 8; 0x23; 4]] []).
Proof.
  apply (RefusedFacts.PutFile_ignores_refusals root (repeat 7 5000)
           (mounted [reply 0x29 0 [4]; reply 0x22 5 []; reply 0x22 5 [];
                     reply 0x23 0 []])
           4 0 [] (reply 0x29 0 [4]) (reply 0x23 0 [])
           [reply 0x22 5 []; reply 0x22 5 []] []);
    [ unfold reply_with, reply; described
    | unfold write_refusal, reply_with, reply;
      repeat first [apply Forall_nil | apply Forall_cons];
      exists 5, []; described
    | reflexivity
    | unfold reply_with, reply; described
    | vm_compute; reflexivity
    | reflexivity ].
Defined.

(** Limited to 16 bytes, the dump of 40 bytes shows 32. *)
Lemma dumpHex_shows_whole_lines_witness :
  Dump.dumpHex (repeat 65 40) 16 = Dump.dumpHex (repeat 65 32) 65535.
Proof.
  apply (DumpFacts.dumpHex_shows_whole_lines (repeat 65 40) 16 65535). lia.
Defined.
(** The answer to an earlier [OpenDir] arrives for a [Stat]. *)
Lemma foreign_reply_raises_witness :
  run (OpStat root) (mounted [reply 0x10 0 [1]]) =
  (Raise ValueError,
   exchanged (mounted [reply 0x10 0 [1]]) [0xef; 0xbe; 5; 0x24; 47; 0] []).
Proof.
  apply (ReplyFacts.foreign_reply_raises (OpStat root) (Wire.Stat (Some root))
           (mounted [reply 0x10 0 [1]]) [0xef; 0xbe; 5; 0x24; 47; 0]
           [0xef; 0xbe; 0; 0x10; 0; 1] [] ValueError
           eq_refl eq_refl eq_refl eq_refl).
Defined.

(** The string "a\0b" is read back as "a". *)
Lemma getCstr_reads_what_was_written_witness :
  exists w, cstr [Some ([97] ++ 0 :: [98])] = Ok w /\ path_FromWire w = Ok (Some [97]).
Proof.
  apply (proj2 StringFacts.getCstr_reads_what_was_written [97] [98] eq_refl eq_refl).
Defined.

Lemma ReadDirXResponse_reads_entries_witness :
  response_DataFromWire 0 (ReadDirXResponse None None None None)
    (Z.of_nat (length [an_entry]) :: 0 :: 0 :: 0 :: an_entry_wire ++ []) =
  Ok (ReadDirXResponse None (Some [an_entry]) (Some 0) (Some (0 + 256 * 0))).
Proof.
  apply (EntryFacts.ReadDirXResponse_reads_entries [an_entry] an_entry_wire 0 0 0 []
           None None None None eq_refl eq_refl).
  cbn. lia.
Defined.

Lemma ListDirX_returns_entries_witness :
  ListDirX root [] 0 0 65535 (mounted listing_x) =
  (Ok (Some [an_entry]),
   after (mounted listing_x)
     [[0xef; 0xbe; 5; 0x17; 0; 0; 255; 255; 0; 47; 0]; [0xef; 0xbe; 6; 0x18; 1; 0];
      [0xef; 0xbe; 7; 0x12; 1]] []).
Proof.
  apply (ListDirXFacts.ListDirX_returns_entries root [] 0 0 65535 (mounted listing_x)
           1 1 [] [an_entry] 0 []
           (reply 0x17 0 [1; 1; 0; 47; 0])
           (reply 0x18 0 ([1; 0; 0; 0] ++ an_entry_wire)) (reply 0x12 0 [])
           [] []
           [[0xef; 0xbe; 5; 0x17; 0; 0; 255; 255; 0; 47; 0];
            [0xef; 0xbe; 6; 0x18; 1; 0]; [0xef; 0xbe; 7; 0x12; 1]]);
    [ reflexivity
    | exists 1, 0, [47], [], [47]; unfold reply_with, reply; described
    | constructor
    | exists an_entry_wire, 0, 0, 0, []; unfold reply_with, reply; described
    | cbn; lia
    | unfold reply_with, reply; described
    | reflexivity
    | reflexivity ].
Defined.

Lemma session_is_unmounted_on_exit_witness :
  with_Session (mkSocket [] [mount_ok; reply 0x01 0 []]) =
  (Ok tt,
   mkState None 2 [49; 46; 50]
     (mkSocket ([] ++ [first_mount; [0xef; 0xbe; 1; 1]]) [])).
Proof.
  apply (proj1 (LifecycleFacts.session_is_unmounted_on_exit
                  (mkSocket [] [mount_ok; reply 0x01 0 []]) 0xef 0xbe 0 2 1 []
                  ltac:(lia) ltac:(lia))
           0xe8 3 0 [] (reply 0x01 0 []));
    [unfold reply_with, reply; described|reflexivity].
Defined.

(** The paths of "a" and then "b" leave the connection in /a/b. *)
Lemma path_changes_directory_witness :
  snd (LoadTest.paths [[97]; [98]] []) = [] ++ [[97]; [98]] /\
  LoadTest.path None ([] ++ [[97]; [98]]) =
    (47 :: LoadTest.join [47] ([] ++ [[97]; [98]]), [] ++ [[97]; [98]]) /\
  Nat.iter (length [[97]; [98]])
    (fun conn => snd (LoadTest.cd [46; 46] conn)) ([] ++ [[97]; [98]]) = [].
Proof.
  apply (LoadTestFacts.path_changes_directory [[97]; [98]] []).
  repeat constructor; discriminate.
Defined.

(** The flags of [PutFile], from the constants of Linux:
    [O_WRONLY | O_CREAT | O_TRUNC] is 0x241. *)
Lemma flagsToTNFS_translates_witness :
  Z.land (Flags.flagsToTNFS 0 1 2 0x400 0x40 0x80 0x200 0x241) 3 = 2.
Proof.
  apply (proj1 (FlagsFacts.flagsToTNFS_translates 0x400 0x40 0x80 0x200 0x241)).
Defined.

(** A reply to [Open] with a byte after the descriptor. *)
Lemma success_replies_are_exact_witness :
  Open root 0 0 (mounted [reply 0x29 0 [4; 0]]) =
  (Raise StructError,
   exchanged (mounted [reply 0x29 0 [4; 0]])
     [0xef; 0xbe; 5; 0x29; 0; 0; 0; 0; 47; 0] []).
Proof.
  apply (proj1 (StrictFacts.success_replies_are_exact
                  (mounted [reply 0x29 0 [4; 0]]) (reply 0x29 0 [4; 0]) [] [4; 0])
           root 0 0 [0xef; 0xbe; 5; 0x29; 0; 0; 0; 0; 47; 0]);
    [reflexivity|reflexivity|unfold reply_with, reply; described|cbn; lia].
Defined.

Lemma methods_keep_pace_witness :
  fst (run (OpGetFile root) (mounted download)) <> Raise OutOfFuel /\
  (pending (snd (run (OpGetFile root) (mounted download)))
   <= pending (mounted download))%nat /\
  0 <= sequence (snd (run (OpGetFile root) (mounted download))) < 256.
Proof.
  apply (PaceFacts.methods_keep_pace (OpGetFile root) (mounted download)).
  cbn. lia.
Defined.
(** The server refuses a [MkDir] with status 17 and two bytes more. *)
Lemma status_is_returned_as_is_witness :
  run (OpMkDir root) (mounted [reply 0x13 17 [9; 9]]) =
  (Ok (Some 17),
   exchanged (mounted [reply 0x13 17 [9; 9]]) [0xef; 0xbe; 5; 0x13; 47; 0] []).
Proof.
  apply (StatusFacts.status_is_returned_as_is (OpMkDir root) (Wire.MkDir (Some root))
           (mounted [reply 0x13 17 [9; 9]]) [0xef; 0xbe; 5; 0x13; 47; 0]
           17 [9; 9] (reply 0x13 17 [9; 9]) [] eq_refl eq_refl eq_refl);
    [unfold reply_with, reply; described|reflexivity].
Defined.
End Instances.
